(** * RxPython scheduler core (scheduler.py): shallow embedding

    The Python module is embedded function by function.  Python objects
    that are mutated in place become explicit state; a call that may
    raise returns an [outcome]; loops that need not terminate take fuel.

    The module imports [disposable], [concurrency] and [internal], which
    are not part of the sources at hand; wherever one of their members is
    needed it is introduced under a comment starting "Modelled from the
    spec".  [queue.PriorityQueue], [threading] and the built-in
    exceptions belong to the Python standard library. *)

From Stdlib Require Import ZArith QArith Reals Lra Lia List String Bool.
From stdpp Require Import base option gmap.
Import ListNotations.

Local Open Scope Z_scope.

(** ** Python exceptions and call outcomes *)

(** The exceptions that the module can raise or meet.  [Fault] is a user
  fault raised by a scheduled action and deriving from [Exception];
  [SystemExit] and [KeyboardInterrupt] derive from [BaseException]
  only. *)
Inductive exn : Type :=
| NameError (name : string)
| AttributeError (attr : string)
| TypeError (what : string)
| UnboundLocalError (name : string)
| QueueEmpty
| PyException (msg : string)
| NotImplementedError
| Fault (n : nat)
| SystemExit
| KeyboardInterrupt.

(** [isinstance(e, Exception)], the test behind [except Exception]. *)
Definition is_Exception (e : exn) : bool :=
  match e with
  | SystemExit | KeyboardInterrupt => false
  | _ => true
  end.

(** The result of a call: a returned value, a raised exception, or no
  result within the fuel given. *)
Inductive outcome (A : Type) : Type :=
| Normal (v : A)
| Raised (e : exn)
| Diverged.
Arguments Normal {A} v.
Arguments Raised {A} e.
Arguments Diverged {A}.

(** ** Scheduler.normalize *)

(** The numbers [normalize] accepts: anything with a zero and a [<]. *)
Class PyNumber (T : Type) := {
  num_zero : T;
  num_ltb : T -> T -> bool
}.

#[export] Instance Z_PyNumber : PyNumber Z :=
  {| num_zero := 0%Z; num_ltb := Z.ltb |}.

#[export] Instance Q_PyNumber : PyNumber Q :=
  {| num_zero := 0%Q; num_ltb := fun a b => negb (Qle_bool b a) |}.

#[export] Instance R_PyNumber : PyNumber R :=
  {| num_zero := 0%R; num_ltb := fun a b => if Rlt_dec a b then true else false |}.

Module Scheduler.

(** [def normalize(timeSpan): if timeSpan < 0: return 0 else: return timeSpan] *)
Definition normalize {T : Type} `{PyNumber T} (timeSpan : T) : T :=
  if num_ltb timeSpan num_zero then num_zero else timeSpan.

End Scheduler.

(** ** queue.PriorityQueue (Python standard library)

    A bounded priority queue.  The heap is represented by the list of its
    items in the order in which [get] hands them out: [put] places the
    new item before the first item that is greater ([__lt__] decides),
    [get_nowait] takes the first item and raises [queue.Empty] when there
    is none.  Among items that compare equal the list keeps the order of
    arrival; the heap fixes some order of its own there, on which nothing
    below depends.  [put] on a full queue blocks; with a single thread
    nothing ever makes room, so the call does not return. *)
Module PriorityQueue.
Section PQ.
Context {Item : Type}.
Variable lt : Item -> Item -> bool.

Fixpoint insert (x : Item) (q : list Item) : list Item :=
  match q with
  | [] => [x]
  | y :: q' => if lt x y then x :: y :: q' else y :: insert x q'
  end.

Definition put (maxsize : nat) (x : Item) (q : list Item) : outcome (list Item) :=
  if (maxsize <=? length q)%nat then Diverged else Normal (insert x q).

Definition get_nowait (q : list Item) : outcome (Item * list Item) :=
  match q with
  | [] => Raised QueueEmpty
  | x :: q' => Normal (x, q')
  end.
End PQ.
End PriorityQueue.

(** ** ScheduledItem, VirtualTimeScheduler, HistoricalScheduler *)

Module VirtualTimeScheduler.
Section VirtualTime.
(** Absolute times, relative times and the opaque state handed to an
    action. *)
Context {Abs Rel St : Type}.

(** [self.comparer], and the methods a concrete clock supplies:
    [self.add], [self.toRelative] and [self.toDateTimeOffset]; [sub] is
    the subtraction in [dueTime - self.now()]. *)
Variable comparer : Abs -> Abs -> Z.
Variable add : Abs -> Rel -> Abs.
Variable toRelative : Rel -> Rel.
Variable toDateTimeOffset : Abs -> outcome Abs.
Variable sub : Abs -> Abs -> Rel.

(** What a scheduled action does with the scheduler it is handed: a
    sequence of calls on it, ended by a return or a raise.  [aTry body k]
    is [try: body / except Exception: pass] followed by [k]. *)
Inductive action : Type :=
| aReturn
| aRaise (e : exn)
| aCall (c : call) (k : action)
| aTry (body : action) (k : action)
with call : Type :=
| cScheduleAbsoluteWithState (state : St) (dueTime : Abs) (a : action)
| cScheduleRelativeWithState (state : St) (dueTime : Rel) (a : action)
| cScheduleWithState (state : St) (a : action)
| cScheduleWithRelativeAndState (state : St) (dueTime : Rel) (a : action)
| cScheduleWithAbsoluteAndState (state : St) (dueTime : Abs) (a : action)
| cSchedulePeriodicWithState (state : St) (period : Rel) (a : action)
| cScheduleLongRunningWithState (state : St) (a : action)
| cStart (until : option Abs)
| cStop
| cAdvanceTo (time : Abs)
| cAdvanceBy (time : Rel)
| cSleep (time : Rel).

(** [class ScheduledItem]; [isDisposed] is the flag of the item's own
    [SingleAssignmentDisposable], the token given back to the caller. *)
Record ScheduledItem : Type := mkScheduledItem {
  state : St;
  item_action : action;
  dueTime : Abs;
  isDisposed : bool
}.

(** [compareTo] and [__lt__]. *)
Definition compareTo (a b : ScheduledItem) : Z := comparer (dueTime a) (dueTime b).
Definition item_lt (a b : ScheduledItem) : bool := compareTo a b <? 0.

(** [isCancelled]: [self.disposable.isDisposed]. *)
Definition isCancelled (si : ScheduledItem) : bool := isDisposed si.

(** The scheduler object.  [invoked] is a ghost log: the state of every
    item invoked so far with the clock at that moment, oldest first. *)
Record t : Type := mk {
  clock : Abs;
  isEnabled : bool;
  queue : list ScheduledItem;
  invoked : list (St * Abs)
}.

Definition set_clock (c : Abs) (s : t) : t :=
  mk c (isEnabled s) (queue s) (invoked s).
Definition set_isEnabled (b : bool) (s : t) : t :=
  mk (clock s) b (queue s) (invoked s).
Definition set_queue (q : list ScheduledItem) (s : t) : t :=
  mk (clock s) (isEnabled s) q (invoked s).
Definition log_invocation (si : ScheduledItem) (s : t) : t :=
  mk (clock s) (isEnabled s) (queue s) (invoked s ++ [(state si, clock s)]).

(** [__init__]: [self.queue = PriorityQueue(1024)]. *)
Definition maxsize : nat := 1024.
Definition init (initialClock : Abs) : t := mk initialClock false [] [].

(** The name [run] is free in [scheduleAbsoluteWithState]; Python looks
    it up among the module's globals when the line runs.  scheduler.py
    binds no such name. *)
Definition module_global_run : option action := None.

(** [_localNow], installed as [self.now]. *)
Definition _localNow (s : t) : outcome Abs := toDateTimeOffset (clock s).

(** [scheduleAbsoluteWithState]:
    [si = ScheduledItem(self, state, run, dueTime, self.comparer)],
    [self.queue.put(si)], [return si.disposable].  The parameter
    [action] is not used by the body. *)
Definition scheduleAbsoluteWithState (state : St) (dueTime : Abs) (a : action)
    (s : t) : t * outcome unit :=
  match module_global_run with
  | None => (s, Raised (NameError "run"))
  | Some run =>
      let si := mkScheduledItem state run dueTime false in
      match PriorityQueue.put item_lt maxsize si (queue s) with
      | Normal q' => (set_queue q' s, Normal tt)
      | Raised e => (s, Raised e)
      | Diverged => (s, Diverged)
      end
  end.

(** [scheduleRelativeWithState]: [runAt = self.add(self.clock, dueTime)]. *)
Definition scheduleRelativeWithState (state : St) (dueTime : Rel) (a : action)
    (s : t) : t * outcome unit :=
  let runAt := add (clock s) dueTime in
  scheduleAbsoluteWithState state runAt a s.

(** [_scheduleNow], reached through [Scheduler.scheduleWithState]. *)
Definition _scheduleNow (state : St) (a : action) (s : t) : t * outcome unit :=
  scheduleAbsoluteWithState state (clock s) a s.

(** [_scheduleRelative], reached through
    [Scheduler.scheduleWithRelativeAndState]. *)
Definition _scheduleRelative (state : St) (dueTime : Rel) (a : action)
    (s : t) : t * outcome unit :=
  scheduleRelativeWithState state (toRelative dueTime) a s.

(** [_scheduleAbsolute], reached through
    [Scheduler.scheduleWithAbsoluteAndState]; its argument is
    [self.toRelative(dueTime - self.now())]. *)
Definition _scheduleAbsolute (state : St) (dueTime : Abs) (a : action)
    (s : t) : t * outcome unit :=
  match _localNow s with
  | Normal now => scheduleRelativeWithState state (toRelative (sub dueTime now)) a s
  | Raised e => (s, Raised e)
  | Diverged => (s, Diverged)
  end.

(** [schedulePeriodicWithState], overridden to refuse, and
    [scheduleLongRunningWithState], inherited from [Scheduler].  The other
    scheduling methods of [Scheduler] end in one of the calls above. *)
Definition schedulePeriodicWithState (state : St) (period : Rel) (a : action)
    (s : t) : t * outcome unit :=
  (s, Raised (PyException "Not implemented")).

Definition scheduleLongRunningWithState (state : St) (a : action) (s : t)
    : t * outcome unit :=
  (s, Raised NotImplementedError).

(** [stop]. *)
Definition stop (s : t) : t * outcome unit := (set_isEnabled false s, Normal tt).

(** [sleep]. *)
Definition sleep (time : Rel) (s : t) : t * outcome unit :=
  let until := add (clock s) time in
  if 0 <=? comparer (clock s) until
  then (s, Raised (PyException "Argument out of range"))
  else (set_clock until s, Normal tt).

(** [getNext]: the loop [while True] around [self.queue.get_nowait()],
    which skips cancelled items.  [get_nowait] never hands out [None],
    so the branch [if next == None: return None] is never taken and the
    loop is left through [queue.Empty] when the items run out. *)
Fixpoint getNext_loop (n : nat) (q : list ScheduledItem)
    : list ScheduledItem * outcome (option ScheduledItem) :=
  match n with
  | O => (q, Diverged)
  | S n' =>
      match PriorityQueue.get_nowait q with
      | Normal (next, q') =>
          if isCancelled next then getNext_loop n' q' else (q', Normal (Some next))
      | Raised e => (q, Raised e)
      | Diverged => (q, Diverged)
      end
  end.

(** Every turn of the loop removes an item, so one turn more than there
    are items is enough. *)
Definition getNext (s : t) : t * outcome (option ScheduledItem) :=
  let '(q', r) := getNext_loop (S (length (queue s))) (queue s) in
  (set_queue q' s, r).

(** [nextIsTooLate = until != None and self.comparer(next.dueTime, until) > 0],
    computed before [next] is tested against [None]. *)
Definition nextIsTooLate (until : option Abs) (next : option ScheduledItem)
    : outcome bool :=
  match until with
  | None => Normal false
  | Some u =>
      match next with
      | None => Raised (AttributeError "dueTime")
      | Some si => Normal (0 <? comparer (dueTime si) u)
      end
  end.

(** [if self.comparer(next.dueTime, self.clock) > 0: self.clock = next.dueTime] *)
Definition advance_clock (next : ScheduledItem) (s : t) : t :=
  if 0 <? comparer (dueTime next) (clock s) then set_clock (dueTime next) s else s.

(** Modelled from the spec: [SingleAssignmentDisposable], of the module
    [disposable], which is not among the sources.  Its attribute
    [disposable] holds the token assigned to it ([d.disposable = ...] in
    [DefaultScheduler] and [AsyncLockScheduler]), or nothing yet: it is
    not a function.  [ScheduledItem.invoke] is
    [self.disposable.disposable(self.invokeCore())]: Python evaluates the
    argument first, so [invokeCore], which is
    [self.action(self.scheduler, self.state)], runs the action (the ghost
    log records it); when the action returns, the call of the attribute
    raises [TypeError].  An exception of the action leaves [invoke] as it
    is. *)
Definition invoke_with (run_action : action -> t -> t * outcome unit)
    (si : ScheduledItem) (s : t) : t * outcome unit :=
  match run_action (item_action si) (log_invocation si s) with
  | (s1, Normal _) => (s1, Raised (TypeError "self.disposable.disposable is not callable"))
  | (s1, Raised e) => (s1, Raised e)
  | (s1, Diverged) => (s1, Diverged)
  end.

(** [start]: [if not self.isEnabled: self.isEnabled = True; while ...]. *)
Definition start_with (loop : option Abs -> t -> t * outcome unit)
    (until : option Abs) (s : t) : t * outcome unit :=
  if isEnabled s then (s, Normal tt) else loop until (set_isEnabled true s).

(** [advanceTo]. *)
Definition advanceTo_with (loop : option Abs -> t -> t * outcome unit)
    (time : Abs) (s : t) : t * outcome unit :=
  let dueToClock := comparer time (clock s) in
  if dueToClock <? 0 then (s, Raised (PyException "Argument out of range"))
  else if dueToClock =? 0 then (s, Normal tt)
  else start_with loop (Some time) s.

(** [advanceBy]. *)
Definition advanceBy_with (loop : option Abs -> t -> t * outcome unit)
    (time : Rel) (s : t) : t * outcome unit :=
  advanceTo_with loop (add (clock s) time) s.

(** The loop of [start], the body of an action and a call made by an
    action, each with the fuel that is left. *)
Fixpoint start_loop (fuel : nat) (until : option Abs) (s : t) {struct fuel}
    : t * outcome unit :=
  match fuel with
  | O => (s, Diverged)
  | S n =>
      if isEnabled s then
        match getNext s with
        | (s1, Normal next) =>
            match nextIsTooLate until next with
            | Normal late =>
                match next with
                | None => start_loop n until (set_isEnabled false s1)
                | Some si =>
                    if late then start_loop n until (set_isEnabled false s1)
                    else
                      match invoke_with (exec n) si (advance_clock si s1) with
                      | (s2, Normal _) => start_loop n until s2
                      | (s2, Raised e) => (s2, Raised e)
                      | (s2, Diverged) => (s2, Diverged)
                      end
                end
            | Raised e => (s1, Raised e)
            | Diverged => (s1, Diverged)
            end
        | (s1, Raised e) => (s1, Raised e)
        | (s1, Diverged) => (s1, Diverged)
        end
      else (s, Normal tt)
  end
with exec (fuel : nat) (a : action) (s : t) {struct fuel} : t * outcome unit :=
  match fuel with
  | O => (s, Diverged)
  | S n =>
      match a with
      | aReturn => (s, Normal tt)
      | aRaise e => (s, Raised e)
      | aCall c k =>
          match perform n c s with
          | (s1, Normal _) => exec n k s1
          | (s1, Raised e) => (s1, Raised e)
          | (s1, Diverged) => (s1, Diverged)
          end
      | aTry body k =>
          match exec n body s with
          | (s1, Normal _) => exec n k s1
          | (s1, Raised e) => if is_Exception e then exec n k s1 else (s1, Raised e)
          | (s1, Diverged) => (s1, Diverged)
          end
      end
  end
with perform (fuel : nat) (c : call) (s : t) {struct fuel} : t * outcome unit :=
  match fuel with
  | O => (s, Diverged)
  | S n =>
      match c with
      | cScheduleAbsoluteWithState st due a => scheduleAbsoluteWithState st due a s
      | cScheduleRelativeWithState st due a => scheduleRelativeWithState st due a s
      | cScheduleWithState st a => _scheduleNow st a s
      | cScheduleWithRelativeAndState st due a => _scheduleRelative st due a s
      | cScheduleWithAbsoluteAndState st due a => _scheduleAbsolute st due a s
      | cSchedulePeriodicWithState st period a => schedulePeriodicWithState st period a s
      | cScheduleLongRunningWithState st a => scheduleLongRunningWithState st a s
      | cStart until => start_with (start_loop n) until s
      | cStop => stop s
      | cAdvanceTo time => advanceTo_with (start_loop n) time s
      | cAdvanceBy time => advanceBy_with (start_loop n) time s
      | cSleep time => sleep time s
      end
  end.

Definition start (fuel : nat) (until : option Abs) (s : t) : t * outcome unit :=
  start_with (start_loop fuel) until s.

Definition advanceTo (fuel : nat) (time : Abs) (s : t) : t * outcome unit :=
  advanceTo_with (start_loop fuel) time s.

Definition advanceBy (fuel : nat) (time : Rel) (s : t) : t * outcome unit :=
  advanceBy_with (start_loop fuel) time s.

(** A call of [start] as Python makes it: [def start(self, until)] has
    no default for [until], so it takes exactly one argument. *)
Definition start_call (fuel : nat) (args : list (option Abs)) (s : t)
    : t * outcome unit :=
  match args with
  | [until] => start fuel until s
  | _ => (s, Raised (TypeError "start() takes exactly one argument besides self"))
  end.

(** [b] is not earlier than [a], as the comparer sees it. *)
Definition not_earlier (a b : Abs) : Prop := 0 <= comparer b a.

(** A loop that leaves the clock where it was or later. *)
Definition loop_mono (loop : option Abs -> t -> t * outcome unit) : Prop :=
  forall until s, not_earlier (clock s) (clock (fst (loop until s))).
End VirtualTime.
End VirtualTimeScheduler.

(** [class HistoricalScheduler(VirtualTimeScheduler)]: times are numbers.
    They are taken to be Python integers here, as the default
    [initialClock = 0] is; integer arithmetic is exact.  With float
    timestamps [absolute + relative] rounds, which this instance does not
    show. *)
Module HistoricalScheduler.

(** Modelled from the spec: [defaultSubComparer], the default comparer,
    of the module [internal], which is not among the sources; it
    compares two numbers by their difference. *)
Definition defaultSubComparer (a b : Z) : Z := a - b.

(** [add], [toRelative] and [toDateTimeOffset].  The last one reads the
    name [datetime], which scheduler.py does not import. *)
Definition add (absolute relative : Z) : Z := absolute + relative.
Definition toRelative (timeSpan : Z) : Z := timeSpan.
Definition toDateTimeOffset (absolute : Z) : outcome Z :=
  Raised (NameError "datetime").

Section Historical.
Context {St : Type}.
Variable comparer : Z -> Z -> Z.

Definition t : Type := @VirtualTimeScheduler.t Z Z St.
Definition action : Type := @VirtualTimeScheduler.action Z Z St.

(** [__init__(self, initialClock = 0, comparer = defaultSubComparer)]. *)
Definition init (initialClock : Z) : t := VirtualTimeScheduler.init initialClock.

Definition scheduleAbsoluteWithState :=
  @VirtualTimeScheduler.scheduleAbsoluteWithState Z Z St comparer.
Definition scheduleRelativeWithState :=
  @VirtualTimeScheduler.scheduleRelativeWithState Z Z St comparer add.
Definition scheduleWithRelativeAndState :=
  @VirtualTimeScheduler._scheduleRelative Z Z St comparer add toRelative.
Definition start :=
  @VirtualTimeScheduler.start Z Z St comparer add toRelative toDateTimeOffset Z.sub.
Definition start_call :=
  @VirtualTimeScheduler.start_call Z Z St comparer add toRelative toDateTimeOffset Z.sub.
Definition advanceTo :=
  @VirtualTimeScheduler.advanceTo Z Z St comparer add toRelative toDateTimeOffset Z.sub.
Definition advanceBy :=
  @VirtualTimeScheduler.advanceBy Z Z St comparer add toRelative toDateTimeOffset Z.sub.
Definition sleep := @VirtualTimeScheduler.sleep Z Z St comparer add.
End Historical.
End HistoricalScheduler.

(** ** Cancellation tokens *)

(** Modelled from the spec: [Disposable.empty()], of the module
    [disposable], which is not among the sources: the no-op cancellation
    token.  [Token n] is any other token. *)
Inductive Disposable : Type :=
| Disposable_empty
| Token (n : nat).

(** ** CatchWrapper and CatchScheduler *)

Module CatchScheduler.

(** Scheduler objects are known by their identity.  Schedulers define no
    [__eq__], so [!=] between two of them compares identities. *)
Abbreviation ref := positive.

(** The instance attributes [__init__] sets, apart from the four bound
    methods handed to [Scheduler.__init__] and the lock. *)
Record instance : Type := mkInstance {
  _scheduler : ref;
  _handler : exn -> outcome bool;
  _recursiveOriginal : option ref;
  _recursiveWrapper : option ref
}.

(** The objects alive: a [CatchScheduler] with its attributes, or a
    scheduler of another class, of which only the identity matters. *)
Inductive object : Type :=
| OtherScheduler
| Catch (c : instance).

Abbreviation heap := (gmap ref object).

(** [CatchScheduler(scheduler, handler)]: a new object. *)
Definition new (scheduler : ref) (handler : exn -> outcome bool) (h : heap)
    : heap * ref :=
  let r := fresh (dom h) in
  (<[r := Catch (mkInstance scheduler handler None None)]> h, r).

(** [_clone]. *)
Definition _clone (c : instance) (scheduler : ref) (h : heap) : heap * ref :=
  new scheduler (_handler c) h.

Definition set_recursiveOriginal (v : option ref) (c : instance) : instance :=
  mkInstance (_scheduler c) (_handler c) v (_recursiveWrapper c).
Definition set_recursiveWrapper (v : option ref) (c : instance) : instance :=
  mkInstance (_scheduler c) (_handler c) (_recursiveOriginal c) v.

(** Assignment to an attribute of the object [r]. *)
Definition update (r : ref) (f : instance -> instance) (h : heap) : heap :=
  match h !! r with
  | Some (Catch c) => <[r := Catch (f c)]> h
  | _ => h
  end.

(** [_getRecursiveWrapper]: under the lock, [if self._recursiveOriginal
    != scheduler] then [self._recursiveOriginal = scheduler], [wrapper =
    self._clone(scheduler)], [wrapper._recursiveOriginal = scheduler],
    [wrapper._recursiveWrapper = wrapper], [self._recursiveWrapper =
    wrapper]; then [return self._recursiveWrapper].  The result is [None]
    where Python returns [None]. *)
Definition _getRecursiveWrapper (self : ref) (scheduler : ref) (h : heap)
    : heap * outcome (option ref) :=
  match h !! self with
  | Some (Catch c) =>
      if decide (_recursiveOriginal c = Some scheduler)
      then (h, Normal (_recursiveWrapper c))
      else
        let h1 := update self (set_recursiveOriginal (Some scheduler)) h in
        let '(h2, wrapper) := _clone c scheduler h1 in
        let h3 := update wrapper (set_recursiveOriginal (Some scheduler)) h2 in
        let h4 := update wrapper (set_recursiveWrapper (Some wrapper)) h3 in
        let h5 := update self (set_recursiveWrapper (Some wrapper)) h4 in
        (h5, Normal (Some wrapper))
  | _ => (h, Raised (AttributeError "_getRecursiveWrapper"))
  end.

(** A sequence of lookups on one decorator, with the wrappers returned. *)
Fixpoint lookups (self : ref) (schedulers : list ref) (h : heap)
    : heap * list (outcome (option ref)) :=
  match schedulers with
  | [] => (h, [])
  | scheduler :: rest =>
      let '(h1, r) := _getRecursiveWrapper self scheduler h in
      let '(h2, rs) := lookups self rest h1 in
      (h2, r :: rs)
  end.

Section Wrapper.
(** The state handed to an action and whatever else an action may
    touch besides the schedulers. *)
Context {St World : Type}.

(** A scheduled action: [(scheduler, state) -> cancellation token]. *)
Definition action : Type :=
  option ref -> St -> heap * World -> (heap * World) * outcome Disposable.

(** [self.parent._handler(e)], read when the fault is caught. *)
Definition parent_handler (parent : ref) (h : heap) (e : exn) : outcome bool :=
  match h !! parent with
  | Some (Catch c) => _handler c e
  | _ => Raised (AttributeError "_handler")
  end.

(** The clause [except Exception as e] of [CatchWrapper.__call__]. *)
Definition on_fault (parent : ref) (e : exn) (s : heap * World)
    : (heap * World) * outcome Disposable :=
  if is_Exception e then
    match parent_handler parent (fst s) e with
    | Normal true => (s, Normal Disposable_empty)
    | Normal false => (s, Raised e)
    | Raised e' => (s, Raised e')
    | Diverged => (s, Diverged)
    end
  else (s, Raised e).

(** [CatchWrapper.__call__(self, _self, _state)], with [self.parent]
    and [self.action]. *)
Definition CatchWrapper_call (parent : ref) (a : action) (_self : ref)
    (_state : St) (s : heap * World) : (heap * World) * outcome Disposable :=
  match _getRecursiveWrapper parent _self (fst s) with
  | (h1, Normal wrapper) =>
      match a wrapper _state (h1, snd s) with
      | (s2, Normal d) => (s2, Normal d)
      | (s2, Raised e) => on_fault parent e s2
      | (s2, Diverged) => (s2, Diverged)
      end
  | (h1, Raised e) => on_fault parent e (h1, snd s)
  | (h1, Diverged) => ((h1, snd s), Diverged)
  end.
End Wrapper.

(** *** schedulePeriodicWithState *)

(** What [with] is given: [threading.RLock] itself, which is a function
    and no context manager, or a lock made by calling it. *)
Inductive lock_value : Type :=
| RLock_function
| RLock_instance.

(** Entering a [with] block. *)
Definition enter (l : lock_value) : outcome unit :=
  match l with
  | RLock_instance => Normal tt
  | RLock_function =>
      Raised (TypeError "object does not support the context manager protocol")
  end.

(** [failureLock = RLock]. *)
Definition failureLock : lock_value := RLock_function.

(** Attribute lookup on a [CatchScheduler] for something to call on a
    fault.  Its instance attributes are [now], [_schedule],
    [_scheduleRelative], [_scheduleAbsolute], [_scheduler], [_handler],
    [_recursiveOriginal], [_recursiveWrapper] and [lock]; neither they
    nor the methods of the class and of [Scheduler] include a name
    [handler]. *)
Definition getattr_handler (c : instance) (name : string)
    : outcome (exn -> outcome bool) :=
  if String.eqb name "_handler" then Normal (_handler c)
  else Raised (AttributeError name).

(** The variables the closure [scheduled] shares with
    [schedulePeriodicWithState]: [failed], and [d] with its flag.
    [calls] is a ghost counter of the invocations of the user action. *)
Record closure : Type := mkClosure {
  failed : bool;
  d_isDisposed : bool;
  calls : nat
}.

Definition new_closure : closure := mkClosure false false 0.

Section Periodic.
Context {St : Type}.

(** The user action of a tick, told how often it has run before. *)
Variable action : nat -> St -> outcome St.

(** The body of [scheduled(_state)], with the value [with] is given. *)
Definition scheduled_with (lock : lock_value) (self : instance) (_state : St)
    (k : closure) : closure * outcome (option St) :=
  match enter lock with
  | Normal _ =>
      if failed k then (k, Normal None)
      else
        let k1 := mkClosure (failed k) (d_isDisposed k) (S (calls k)) in
        match action (calls k) _state with
        | Normal v => (k1, Normal (Some v))
        | Diverged => (k1, Diverged)
        | Raised e =>
            if is_Exception e then
              let k2 := mkClosure true (d_isDisposed k1) (calls k1) in
              match getattr_handler self "handler" with
              | Normal handler =>
                  match handler e with
                  | Normal true =>
                      (mkClosure true true (calls k2), Normal None)
                  | Normal false => (k2, Raised e)
                  | Raised e' => (k2, Raised e')
                  | Diverged => (k2, Diverged)
                  end
              | Raised e' => (k2, Raised e')
              | Diverged => (k2, Diverged)
              end
            else (k1, Raised e)
        end
  | Raised e => (k, Raised e)
  | Diverged => (k, Diverged)
  end.

(** [scheduled(_state)], one tick. *)
Definition scheduled : instance -> St -> closure -> closure * outcome (option St) :=
  scheduled_with failureLock.

(** The inner scheduler firing [n] ticks in a row, each with the state
    the previous one returned, or the same state again when it
    returned none or raised. *)
Fixpoint ticks (n : nat) (self : instance) (state : St) (k : closure)
    : closure * list (outcome (option St)) :=
  match n with
  | O => (k, [])
  | S n' =>
      let '(k1, r) := scheduled self state k in
      let state1 := match r with Normal (Some v) => v | _ => state end in
      let '(k2, rs) := ticks n' self state1 k1 in
      (k2, r :: rs)
  end.
End Periodic.
End CatchScheduler.

(** ** CurrentThreadScheduler *)

Module CurrentThreadScheduler.
Section CurrentThread.
Context {St : Type}.

(** What a scheduled action does with the scheduler: it schedules
    further actions at a relative due time, then returns. *)
Inductive action : Type :=
| aReturn
| aScheduleWithRelativeAndState (state : St) (dueTime : Z) (a : action) (k : action).

(** The values passed as positional arguments. *)
Inductive value : Type :=
| VState (state : St)
| VNum (z : Z)
| VAction (a : action).

(** The scheduler: the wall clock [defaultNow] reads, and the ghost log
    of the states of the actions invoked so far. *)
Record t : Type := mk {
  now : Z;
  invoked : list St
}.

(** The name [state] is free in [_scheduleRelative], whose parameters
    are [self], [dueTime] and [action]; scheduler.py binds no global of
    that name. *)
Definition module_global_state : option St := None.

(** The property [_queue].  Its getter asks a new [threading.local()]
    for the attribute, finds none, sets it on a second new object and
    reads it from a third, which does not have it: every read of
    [self._queue] raises. *)
Definition queue_fget_raises : exn :=
  AttributeError "reactive_extensions_current_thread_queue".

(** [_scheduleRelative(self, dueTime, action)], called with the
    positional arguments [args].  Past the free name [state] the body
    tests [self._queue == None]; reading the property raises, so the
    enqueueing and the drain behind that test are never reached. *)
Definition _scheduleRelative (args : list value) (s : t) : t * outcome Disposable :=
  match args with
  | [dueTime; action] =>
      match dueTime with
      | VNum z =>
          let dt := now s + Scheduler.normalize z in
          match module_global_state with
          | None => (s, Raised (NameError "state"))
          | Some state => (s, Raised queue_fget_raises)
          end
      | _ => (s, Raised (TypeError "'<' not supported between a due time and 0"))
      end
  | _ => (s, Raised (TypeError "_scheduleRelative() takes 3 positional arguments"))
  end.

(** [Scheduler.scheduleWithRelativeAndState]:
    [self._scheduleRelative(state, dueTime, action)]. *)
Definition scheduleWithRelativeAndState (state : St) (dueTime : Z) (a : action)
    (s : t) : t * outcome Disposable :=
  _scheduleRelative [VState state; VNum dueTime; VAction a] s.

(** [_scheduleNow], reached through [Scheduler.scheduleWithState]. *)
Definition _scheduleNow (state : St) (a : action) (s : t) : t * outcome Disposable :=
  scheduleWithRelativeAndState state 0 a s.
End CurrentThread.
End CurrentThreadScheduler.

(** ** RecursiveScheduledFunction: a chain of self-rescheduling steps

    One coordinator serves the whole chain: [isDone], [isAdded] and
    [cancel] are attributes of [self], written by every call of
    [actionCallback] and read by every [schedulerCallback].  A call of
    [actionCallback] runs on the thread of the action that makes it, a
    [schedulerCallback] on the thread the scheduler gives it (which is the
    calling thread when the scheduler runs its work inside
    [self.schedule]), and the owner of the group may dispose it at any
    moment.  Each event below is one stretch of code that runs without
    interruption: a statement, or a block under [self.lock].  An action
    may call the continuation from any thread and at any time once it has
    been invoked; nothing is assumed of the scheduler beyond the meaning
    of a disposed token. *)

Module RecursiveScheduledFunction.

(** Where a call of [actionCallback] stands. *)
Inductive caller_pc : Type :=
| AtEntry
| DoneCleared
| FlagsReset
| Scheduled
| CancelAssigned
| Returned.

(** Where the scheduler stands with the callback a call has handed it. *)
Inductive callback_pc : Type :=
| NotScheduled
| Armed
| Started
| Locked
| Running
| Ended.

(** One call of [actionCallback], that is one step asked for: who made
    the call ([None] is the action invoked by [scheduled.run(state)] in
    [invokeRecImmediate], [Some j] the action invoked by the callback of
    call [j]), where the call stands, and where its callback stands.
    Calls are numbered in the order in which they are made; the token
    that [self.schedule] returns to call [k] is named [k]. *)
Record call : Type := mkCall {
  made_by : option nat;
  pc : caller_pc;
  cb : callback_pc
}.

(** The attributes of the coordinator ([isDone], [isAdded], [cancel]),
    the tokens [self.group] holds and whether it is disposed, the tokens
    disposed so far, the calls made so far, and the ghost log of the
    steps whose action was invoked.  The three attributes do not exist
    before the first call; nothing reads them before a call has written
    them. *)
Record t : Type := mk {
  isDone : bool;
  isAdded : bool;
  cancel : option nat;
  group : list nat;
  group_isDisposed : bool;
  disposed : list nat;
  calls : list call;
  invoked : list nat
}.

Definition init : t := mk false false None [] false [] [] [].

Definition mem (x : nat) (l : list nat) : bool := existsb (Nat.eqb x) l.

Definition set_isDone (b : bool) (s : t) : t :=
  mk b (isAdded s) (cancel s) (group s) (group_isDisposed s) (disposed s)
     (calls s) (invoked s).
Definition set_isAdded (b : bool) (s : t) : t :=
  mk (isDone s) b (cancel s) (group s) (group_isDisposed s) (disposed s)
     (calls s) (invoked s).
Definition set_cancel (c : option nat) (s : t) : t :=
  mk (isDone s) (isAdded s) c (group s) (group_isDisposed s) (disposed s)
     (calls s) (invoked s).
Definition set_calls (l : list call) (s : t) : t :=
  mk (isDone s) (isAdded s) (cancel s) (group s) (group_isDisposed s) (disposed s)
     l (invoked s).
Definition set_call (k : nat) (c : call) (s : t) : t :=
  set_calls (<[k := c]> (calls s)) s.
Definition run_action (k : nat) (s : t) : t :=
  mk (isDone s) (isAdded s) (cancel s) (group s) (group_isDisposed s) (disposed s)
     (calls s) (invoked s ++ [k]).

(** Modelled from the spec: [CompositeDisposable], of the module
    [disposable], which is not among the sources.  It holds a set of
    tokens; [add] on a disposed group disposes the token instead of
    keeping it; [remove] takes a token out; [dispose] disposes and clears
    all held tokens. *)
Definition group_add (x : option nat) (s : t) : t :=
  match x with
  | Some tok =>
      if group_isDisposed s
      then mk (isDone s) (isAdded s) (cancel s) (group s) true (tok :: disposed s)
              (calls s) (invoked s)
      else mk (isDone s) (isAdded s) (cancel s) (tok :: group s) false (disposed s)
              (calls s) (invoked s)
  | None => s
  end.

(** Modelled from the spec: [CompositeDisposable.remove]. *)
Definition group_remove (x : option nat) (s : t) : t :=
  match x with
  | Some tok =>
      mk (isDone s) (isAdded s) (cancel s)
         (List.filter (fun y => negb (Nat.eqb tok y)) (group s))
         (group_isDisposed s) (disposed s) (calls s) (invoked s)
  | None => s
  end.

(** Modelled from the spec: [CompositeDisposable.dispose]. *)
Definition group_dispose (s : t) : t :=
  mk (isDone s) (isAdded s) (cancel s) [] true (group s ++ disposed s)
     (calls s) (invoked s).

(** Modelled from the spec: the scheduler behind [self.schedule], which
    may be any scheduler.  Every scheduling call returns a token of its
    own; disposing the token of a scheduled action before the action has
    run guarantees that the action never runs: the scheduler starts the
    callback of call [k] only while token [k] is not disposed. *)
Definition scheduler_may_start (k : nat) (s : t) : bool := negb (mem k (disposed s)).

Definition same_caller (p q : option nat) : bool :=
  match p, q with
  | None, None => true
  | Some a, Some b => Nat.eqb a b
  | _, _ => false
  end.

(** The action [p] has been invoked: the first action is invoked before
    anything else happens, the action of step [j] by [self.run(state)] in
    the callback of call [j]. *)
Definition was_invoked (p : option nat) (s : t) : bool :=
  match p with
  | None => true
  | Some j =>
      match calls s !! j with
      | Some (mkCall _ _ Running) => true
      | Some (mkCall _ _ Ended) => true
      | _ => false
      end
  end.

(** The events.  [Call p]: the action [p], which has been invoked, calls
    the continuation, which is [self.actionCallback].  Of the call number
    [k]:
    [ClearDone k] is [self.isDone = False], [ClearAdded k] is
    [self.isAdded = False]; [Schedule k] enters
    [self.schedule(newState, self.schedulerCallback)], which arms the
    callback; [Assign k] is the return of that call and the assignment of
    its result to [self.cancel]; [Register k] is the block under the
    lock, after which the call returns.  Of the scheduler: [CbStart k] is
    its decision to run the callback of call [k], which it takes only
    while token [k] is not disposed; [CbLock k] is the block under the
    lock in [schedulerCallback]; [CbRun k] is [self.run(state)] invoking
    the action, which may then call the continuation; [CbReturn k] is the
    return of that action and of the callback.  [DisposeGroup] is
    [group.dispose()]. *)
Inductive event : Type :=
| Call (p : option nat)
| ClearDone (k : nat)
| ClearAdded (k : nat)
| Schedule (k : nat)
| Assign (k : nat)
| Register (k : nat)
| CbStart (k : nat)
| CbLock (k : nat)
| CbRun (k : nat)
| CbReturn (k : nat)
| DisposeGroup.

(** One event; [None] when the event cannot happen in that state. *)
Definition step (e : event) (s : t) : option t :=
  match e with
  | Call p =>
      if was_invoked p s
      then Some (set_calls (calls s ++ [mkCall p AtEntry NotScheduled]) s)
      else None
  | ClearDone k =>
      match calls s !! k with
      | Some (mkCall p AtEntry b) =>
          Some (set_call k (mkCall p DoneCleared b) (set_isDone false s))
      | _ => None
      end
  | ClearAdded k =>
      match calls s !! k with
      | Some (mkCall p DoneCleared b) =>
          Some (set_call k (mkCall p FlagsReset b) (set_isAdded false s))
      | _ => None
      end
  | Schedule k =>
      match calls s !! k with
      | Some (mkCall p FlagsReset NotScheduled) =>
          Some (set_call k (mkCall p Scheduled Armed) s)
      | _ => None
      end
  | Assign k =>
      match calls s !! k with
      | Some (mkCall p Scheduled b) =>
          Some (set_call k (mkCall p CancelAssigned b) (set_cancel (Some k) s))
      | _ => None
      end
  | Register k =>
      match calls s !! k with
      | Some (mkCall p CancelAssigned b) =>
          Some (set_call k (mkCall p Returned b)
                  (if isDone s then s
                   else set_isAdded true (group_add (cancel s) s)))
      | _ => None
      end
  | CbStart k =>
      match calls s !! k with
      | Some (mkCall p a Armed) =>
          if scheduler_may_start k s
          then Some (set_call k (mkCall p a Started) s)
          else None
      | _ => None
      end
  | CbLock k =>
      match calls s !! k with
      | Some (mkCall p a Started) =>
          Some (set_call k (mkCall p a Locked)
                  (if isAdded s then group_remove (cancel s) s
                   else set_isDone true s))
      | _ => None
      end
  | CbRun k =>
      match calls s !! k with
      | Some (mkCall p a Locked) =>
          Some (set_call k (mkCall p a Running) (run_action k s))
      | _ => None
      end
  | CbReturn k =>
      match calls s !! k with
      | Some (mkCall p a Running) => Some (set_call k (mkCall p a Ended) s)
      | _ => None
      end
  | DisposeGroup => Some (group_dispose s)
  end.

(** A sequence of events. *)
Fixpoint run (es : list event) (s : t) : option t :=
  match es with
  | [] => Some s
  | e :: es' =>
      match step e s with
      | Some s' => run es' s'
      | None => None
      end
  end.

(** The scheduler starts a callback only after the call that scheduled
    it has returned. *)
Definition deferred (e : event) (s : t) : bool :=
  match e with
  | CbStart k =>
      match calls s !! k with
      | Some (mkCall _ Returned _) => true
      | _ => false
      end
  | _ => true
  end.

(** An action calls the continuation once at most. *)
Definition linear (e : event) (s : t) : bool :=
  match e with
  | Call p => forallb (fun c => negb (same_caller (made_by c) p)) (calls s)
  | _ => true
  end.

(** A run in which every callback is deferred and every action linear. *)
Fixpoint orderly (es : list event) (s : t) : bool :=
  match es with
  | [] => true
  | e :: es' =>
      deferred e s && linear e s &&
      match step e s with
      | Some s' => orderly es' s'
      | None => false
      end
  end.

(** A call that has not returned, or whose callback has not yet invoked
    its action. *)
Definition unfinished (c : call) : bool :=
  match pc c, cb c with
  | Returned, Running => false
  | Returned, Ended => false
  | _, _ => true
  end.

(** What holds in every state an orderly run leads to from [init]: the
    calls form one chain, all calls but the last have returned and their
    callbacks have invoked their actions, and the attributes are those of
    the last call. *)
Record chain_inv (s : t) : Prop := {
  ci_chain :
    forall k c, calls s !! k = Some c ->
      made_by c = match k with O => None | S j => Some j end;
  ci_older :
    forall k c, calls s !! k = Some c -> (S k < length (calls s))%nat ->
      pc c = Returned /\ (cb c = Running \/ cb c = Ended);
  ci_deferred :
    forall k c, calls s !! k = Some c -> pc c <> Returned ->
      cb c = NotScheduled \/ cb c = Armed;
  ci_armed :
    forall k c, calls s !! k = Some c -> cb c = NotScheduled ->
      pc c = AtEntry \/ pc c = DoneCleared \/ pc c = FlagsReset;
  ci_done :
    forall k c, calls s !! k = Some c ->
      pc c = DoneCleared \/ pc c = FlagsReset \/ pc c = Scheduled \/
      pc c = CancelAssigned ->
      isDone s = false;
  ci_cancel :
    forall k c, calls s !! k = Some c -> pc c = CancelAssigned -> cancel s = Some k;
  ci_added :
    forall k c, calls s !! k = Some c -> pc c = Returned ->
      cb c = Armed \/ cb c = Started ->
      isAdded s = true /\ cancel s = Some k;
  ci_pending :
    forall k c, calls s !! k = Some c -> pc c = Returned -> cb c = Armed ->
      mem k (group s) = true \/ mem k (disposed s) = true;
  ci_group :
    forall k, mem k (group s) = true ->
      exists c, calls s !! k = Some c /\ pc c = Returned /\
                (cb c = Armed \/ cb c = Started);
  ci_log :
    forall k, mem k (invoked s) = true ->
      exists c, calls s !! k = Some c /\ (cb c = Running \/ cb c = Ended)
}.

(** The token of call [k] is disposed while its callback is still
    waiting: the scheduler never starts it. *)
Definition cancelled (k : nat) (s : t) : Prop :=
  mem k (disposed s) = true /\
  (exists c, calls s !! k = Some c /\ cb c = Armed) /\
  mem k (invoked s) = false.
End RecursiveScheduledFunction.

(** ** ImmediateScheduler, and CatchScheduler scheduling on it *)

Module ImmediateScheduler.
Section Immediate.
Context {St World : Type}.

(** What a scheduler is given to call: [action(scheduler, state)]. *)
Definition callable : Type :=
  positive -> St ->
  gmap positive CatchScheduler.object * World ->
  (gmap positive CatchScheduler.object * World) * outcome Disposable.

(** [self.AsyncLockScheduler()]: a new scheduler object. *)
Definition new_AsyncLockScheduler (h : gmap positive CatchScheduler.object)
    : gmap positive CatchScheduler.object * positive :=
  let r := fresh (dom h) in (<[r := CatchScheduler.OtherScheduler]> h, r).

(** [_scheduleNow(self, state, action)]:
    [return action(self.AsyncLockScheduler(), state)]; reached through
    [Scheduler.scheduleWithState]. *)
Definition _scheduleNow (state : St) (action : callable)
    (s : gmap positive CatchScheduler.object * World)
    : (gmap positive CatchScheduler.object * World) * outcome Disposable :=
  let '(h1, nested) := new_AsyncLockScheduler (fst s) in
  action nested state (h1, snd s).
End Immediate.
End ImmediateScheduler.

Module CatchSchedulerCalls.
Section Calls.
Context {St World : Type}.

(** [_wrap(self, action)]: [CatchWrapper(self, action)], called as
    [wrapper(_self, _state)]. *)
Definition _wrap (self : positive) (a : @CatchScheduler.action St World)
    : @ImmediateScheduler.callable St World :=
  fun _self _state s => CatchScheduler.CatchWrapper_call self a _self _state s.

(** [_scheduleNow(self, state, action)]:
    [return self._scheduler.scheduleWithState(state, self._wrap(action))],
    with the method [scheduleWithState] of the inner scheduler. *)
Definition _scheduleNow
    (inner_scheduleWithState :
       St -> @ImmediateScheduler.callable St World ->
       gmap positive CatchScheduler.object * World ->
       (gmap positive CatchScheduler.object * World) * outcome Disposable)
    (self : positive) (state : St) (a : @CatchScheduler.action St World)
    (s : gmap positive CatchScheduler.object * World)
    : (gmap positive CatchScheduler.object * World) * outcome Disposable :=
  inner_scheduleWithState state (_wrap self a) s.

(** [CatchScheduler(immediateScheduler, handler).scheduleWithState]. *)
Definition scheduleWithState_on_immediate (self : positive) (state : St)
    (a : @CatchScheduler.action St World)
    (s : gmap positive CatchScheduler.object * World)
    : (gmap positive CatchScheduler.object * World) * outcome Disposable :=
  _scheduleNow ImmediateScheduler._scheduleNow self state a s.
End Calls.
End CatchSchedulerCalls.

(** ** Items of the queue *)

Module VirtualTimeItems.
Section Items.
Context {Abs Rel St : Type}.

(** [item.isCancelled()]. *)
Definition cancelled_item (si : @VirtualTimeScheduler.ScheduledItem Abs Rel St) : Prop :=
  VirtualTimeScheduler.isCancelled si = true.

(** A call other than [sleep(time)], and an action that never calls
    [sleep] itself. *)
Definition calls_no_sleep (c : @VirtualTimeScheduler.call Abs Rel St) : bool :=
  match c with
  | VirtualTimeScheduler.cSleep _ => false
  | _ => true
  end.

Fixpoint sleep_free (a : @VirtualTimeScheduler.action Abs Rel St) : bool :=
  match a with
  | VirtualTimeScheduler.aReturn => true
  | VirtualTimeScheduler.aRaise _ => true
  | VirtualTimeScheduler.aCall c k => calls_no_sleep c && sleep_free k
  | VirtualTimeScheduler.aTry body k => sleep_free body && sleep_free k
  end.

(** No queued item calls [sleep]. *)
Definition items_sleep_free (q : list (@VirtualTimeScheduler.ScheduledItem Abs Rel St))
    : Prop :=
  Forall (fun si => sleep_free (VirtualTimeScheduler.item_action si) = true) q.

(** [s'] holds items of [s] only, and its clock is the clock of [s] or
    the due time of an item queued in [s]. *)
Definition clock_from (s s' : @VirtualTimeScheduler.t Abs Rel St) : Prop :=
  (forall x, List.In x (VirtualTimeScheduler.queue s') ->
             List.In x (VirtualTimeScheduler.queue s)) /\
  (VirtualTimeScheduler.clock s' = VirtualTimeScheduler.clock s \/
   List.In (VirtualTimeScheduler.clock s')
     (List.map VirtualTimeScheduler.dueTime (VirtualTimeScheduler.queue s))).
End Items.
End VirtualTimeItems.

(** ** Sample objects *)

(** A fresh [HistoricalScheduler()]. *)
Definition fresh_historical : @HistoricalScheduler.t nat := HistoricalScheduler.init 0.

(** A scheduler at clock 0 holding one item that is due at 0. *)
Definition due_now : @HistoricalScheduler.t nat :=
  VirtualTimeScheduler.mk 0 false
    [VirtualTimeScheduler.mkScheduledItem 7%nat VirtualTimeScheduler.aReturn 0 false]
    [].

(** A scheduler at clock 0 whose queue was filled by hand with an item in
    state 2 due at 5 and an item in state 1 due at 10. *)
Definition two_items : @HistoricalScheduler.t nat :=
  VirtualTimeScheduler.mk 0 false
    [VirtualTimeScheduler.mkScheduledItem 2%nat VirtualTimeScheduler.aReturn 5 false;
     VirtualTimeScheduler.mkScheduledItem 1%nat VirtualTimeScheduler.aReturn 10 false]
    [].

(** A handler that accepts every fault. *)
Definition accept_all : exn -> outcome bool := fun _ => Normal true.

(** A decorator, the object 1, around the scheduler 10, with the handler
    [accept_all]; 11 is another scheduler. *)
Definition one_decorator : gmap positive CatchScheduler.object :=
  <[1%positive :=
      CatchScheduler.Catch (CatchScheduler.mkInstance 10%positive accept_all None None)]>
    (<[10%positive := CatchScheduler.OtherScheduler]>
       (<[11%positive := CatchScheduler.OtherScheduler]> ∅)).

(** An action that calls [sys.exit()], and one that raises a user fault. *)
Definition exits : @CatchScheduler.action unit unit :=
  fun _ _ s => (s, Raised SystemExit).
Definition faults : @CatchScheduler.action unit unit :=
  fun _ _ s => (s, Raised (Fault 0)).

(** A scheduler at clock 0 with a cancelled item due at 3 before the two
    items of [two_items]. *)
Definition cancelled_first : @HistoricalScheduler.t nat :=
  VirtualTimeScheduler.mk 0 false
    [VirtualTimeScheduler.mkScheduledItem 9%nat VirtualTimeScheduler.aReturn 3 true;
     VirtualTimeScheduler.mkScheduledItem 2%nat VirtualTimeScheduler.aReturn 5 false;
     VirtualTimeScheduler.mkScheduledItem 1%nat VirtualTimeScheduler.aReturn 10 false]
    [].

(** A scheduler at clock 0 whose first item, due at 5, calls [stop()]. *)
Definition stops_first : @HistoricalScheduler.t nat :=
  VirtualTimeScheduler.mk 0 false
    [VirtualTimeScheduler.mkScheduledItem 4%nat
       (VirtualTimeScheduler.aCall VirtualTimeScheduler.cStop VirtualTimeScheduler.aReturn)
       5 false;
     VirtualTimeScheduler.mkScheduledItem 1%nat VirtualTimeScheduler.aReturn 10 false]
    [].

(** A handler that accepts no fault. *)
Definition reject_all : exn -> outcome bool := fun _ => Normal false.

(** The decorator of [one_decorator] with a handler that accepts nothing. *)
Definition rejecting_decorator : gmap positive CatchScheduler.object :=
  <[1%positive :=
      CatchScheduler.Catch (CatchScheduler.mkInstance 10%positive reject_all None None)]>
    (<[10%positive := CatchScheduler.OtherScheduler]>
       (<[11%positive := CatchScheduler.OtherScheduler]> ∅)).

(** The events of one call of [actionCallback], in program order. *)
Definition one_call (k : nat) : list RecursiveScheduledFunction.event :=
  [RecursiveScheduledFunction.ClearDone k; RecursiveScheduledFunction.ClearAdded k;
   RecursiveScheduledFunction.Schedule k; RecursiveScheduledFunction.Assign k;
   RecursiveScheduledFunction.Register k].

(** An orderly chain: the first action asks for step 0; the callback of
    step 0 runs after that call has returned and its action asks for
    step 1, whose callback is left waiting. *)
Definition two_steps : list RecursiveScheduledFunction.event :=
  RecursiveScheduledFunction.Call None :: one_call 0 ++
  [RecursiveScheduledFunction.CbStart 0; RecursiveScheduledFunction.CbLock 0;
   RecursiveScheduledFunction.CbRun 0; RecursiveScheduledFunction.Call (Some 0%nat)] ++
  one_call 1.

(** A run in which the callback of step 0 begins while the call that
    scheduled it is still in flight: the callback passes its block under
    the lock before the call assigns and registers. *)
Definition callback_first : list RecursiveScheduledFunction.event :=
  [RecursiveScheduledFunction.Call None;
   RecursiveScheduledFunction.ClearDone 0; RecursiveScheduledFunction.ClearAdded 0;
   RecursiveScheduledFunction.Schedule 0;
   RecursiveScheduledFunction.CbStart 0; RecursiveScheduledFunction.CbLock 0;
   RecursiveScheduledFunction.Assign 0; RecursiveScheduledFunction.Register 0].

(** A run on two threads.  The callback of step 0 begins while call 0 is
    still inside [self.schedule]; its action asks for step 1, and call 1
    gets as far as [self.cancel = token 1]; then call 0 goes on with its
    own assignment, [self.cancel = token 0]; call 1 registers what
    [self.cancel] holds and returns. *)
Definition late_assignment : list RecursiveScheduledFunction.event :=
  [RecursiveScheduledFunction.Call None;
   RecursiveScheduledFunction.ClearDone 0; RecursiveScheduledFunction.ClearAdded 0;
   RecursiveScheduledFunction.Schedule 0;
   RecursiveScheduledFunction.CbStart 0; RecursiveScheduledFunction.CbLock 0;
   RecursiveScheduledFunction.CbRun 0; RecursiveScheduledFunction.Call (Some 0%nat);
   RecursiveScheduledFunction.ClearDone 1; RecursiveScheduledFunction.ClearAdded 1;
   RecursiveScheduledFunction.Schedule 1; RecursiveScheduledFunction.Assign 1;
   RecursiveScheduledFunction.Assign 0;
   RecursiveScheduledFunction.Register 1].

(** * Properties *)

(** ** Scheduler.normalize *)

Example normalize_Z_neg : Scheduler.normalize (-5)%Z = 0%Z.
Proof. reflexivity. Qed.

Example normalize_Z_pos : Scheduler.normalize 7%Z = 7%Z.
Proof. reflexivity. Qed.

Example normalize_Q_neg : Scheduler.normalize (-5 # 2)%Q = 0%Q.
Proof. reflexivity. Qed.

Example normalize_Q_pos : Scheduler.normalize (7 # 2)%Q = (7 # 2)%Q.
Proof. reflexivity. Qed.

Lemma normalize_R_neg (t : R) : (t < 0)%R -> Scheduler.normalize t = 0%R.
Proof.
  intros Hneg. unfold Scheduler.normalize. simpl.
  destruct (Rlt_dec t 0) as [_ | Hge]; [reflexivity | contradiction].
Qed.

Lemma normalize_R_nonneg (t : R) : (0 <= t)%R -> Scheduler.normalize t = t.
Proof.
  intros Hpos. unfold Scheduler.normalize. simpl.
  destruct (Rlt_dec t 0) as [Hlt | _]; [lra | reflexivity].
Qed.

(** C9: for every real [t], [normalize t] is [0] when [t] is negative and
    [t] itself when [t] is non-negative; [normalize (-5) = 0] and
    [normalize 7 = 7]. *)
Theorem C9_normalize_clamps :
  (forall t : R, (t < 0)%R -> Scheduler.normalize t = 0%R) /\
  (forall t : R, (0 <= t)%R -> Scheduler.normalize t = t) /\
  Scheduler.normalize (-5)%R = 0%R /\
  Scheduler.normalize 7%R = 7%R.
Proof.
  repeat split.
  - exact normalize_R_neg.
  - exact normalize_R_nonneg.
  - apply normalize_R_neg. lra.
  - apply normalize_R_nonneg. lra.
Qed.

Lemma C9_normalize_witness :
  Scheduler.normalize (-5)%R = 0%R /\ Scheduler.normalize 7%R = 7%R.
Proof.
  split.
  - apply (proj1 C9_normalize_clamps (-5)%R). lra.
  - apply (proj1 (proj2 C9_normalize_clamps) 7%R). lra.
Defined.

(** ** VirtualTimeScheduler *)

Section VirtualTimeFacts.
Import VirtualTimeScheduler.
Context {Abs Rel St : Type}.
Variable comparer : Abs -> Abs -> Z.
Variable add : Abs -> Rel -> Abs.
Variable toRelative : Rel -> Rel.
Variable toDateTimeOffset : Abs -> outcome Abs.
Variable sub : Abs -> Abs -> Rel.

Local Abbreviation sched := (@VirtualTimeScheduler.t Abs Rel St).
Local Abbreviation start := (start comparer add toRelative toDateTimeOffset sub).
Local Abbreviation start_loop := (start_loop comparer add toRelative toDateTimeOffset sub).
Local Abbreviation exec := (exec comparer add toRelative toDateTimeOffset sub).
Local Abbreviation perform := (perform comparer add toRelative toDateTimeOffset sub).
Local Abbreviation advanceTo := (advanceTo comparer add toRelative toDateTimeOffset sub).
Local Abbreviation advanceBy := (advanceBy comparer add toRelative toDateTimeOffset sub).
Local Abbreviation not_earlier := (not_earlier comparer).
Local Abbreviation loop_mono := (@loop_mono Abs Rel St comparer).

Lemma start_enabled fuel until (s : sched) :
  isEnabled s = true -> start fuel until s = (s, Normal tt).
Proof.
  intros Hen. unfold VirtualTimeScheduler.start, start_with. now rewrite Hen.
Qed.

(** A call of [start] made by an action while [isEnabled] is set. *)
Lemma perform_start_enabled fuel until (s : sched) :
  isEnabled s = true -> perform (S fuel) (cStart until) s = (s, Normal tt).
Proof.
  intros Hen. simpl. unfold start_with. now rewrite Hen.
Qed.

(** Every scheduling call ends in [NameError] and leaves the scheduler as
    it was. *)
Lemma scheduleAbsoluteWithState_raises st due a (s : sched) :
  scheduleAbsoluteWithState comparer st due a s = (s, Raised (NameError "run")).
Proof. reflexivity. Qed.

Lemma advanceTo_earlier fuel time (s : sched) :
  comparer time (clock s) < 0 ->
  advanceTo fuel time s = (s, Raised (PyException "Argument out of range")).
Proof.
  intros Hlt. unfold VirtualTimeScheduler.advanceTo, advanceTo_with.
  apply Z.ltb_lt in Hlt. now rewrite Hlt.
Qed.

Lemma advanceTo_same fuel time (s : sched) :
  comparer time (clock s) = 0 -> advanceTo fuel time s = (s, Normal tt).
Proof.
  intros Heq. unfold VirtualTimeScheduler.advanceTo, advanceTo_with.
  rewrite Heq. reflexivity.
Qed.

Lemma advanceTo_later fuel time (s : sched) :
  0 < comparer time (clock s) -> advanceTo fuel time s = start fuel (Some time) s.
Proof.
  intros Hgt. unfold VirtualTimeScheduler.advanceTo, advanceTo_with.
  destruct (comparer time (clock s) <? 0) eqn:E1; [apply Z.ltb_lt in E1; lia |].
  destruct (comparer time (clock s) =? 0) eqn:E2; [apply Z.eqb_eq in E2; lia |].
  reflexivity.
Qed.

(** The loop of [getNext] is never short of turns and leaves the loop
    with an item or with [queue.Empty]. *)
Lemma getNext_loop_result (q : list (@ScheduledItem Abs Rel St)) : forall n,
  (length q < n)%nat ->
  (exists q' si, getNext_loop n q = (q', Normal (Some si)) /\ isCancelled si = false) \/
  getNext_loop n q = ([], Raised QueueEmpty).
Proof.
  induction q as [| x q IH]; intros n Hn.
  - destruct n as [| n]; [inversion Hn |]. right. reflexivity.
  - destruct n as [| n]; [inversion Hn |]. simpl in Hn. simpl.
    destruct (isCancelled x) eqn:Hx.
    + apply IH. lia.
    + left. exists q, x. split; [reflexivity | assumption].
Qed.

Lemma getNext_clock (s : sched) : clock (fst (getNext s)) = clock s.
Proof.
  unfold getNext. destruct (getNext_loop _ _) as [q' r]. reflexivity.
Qed.

Lemma getNext_frame (s s1 : sched) r :
  getNext s = (s1, r) ->
  clock s1 = clock s /\ isEnabled s1 = isEnabled s /\ invoked s1 = invoked s.
Proof.
  unfold getNext. destruct (getNext_loop _ _) as [q' r'].
  intros H. inversion H; subst. simpl. auto.
Qed.

(** The action of an item is run with [isEnabled] set. *)
Lemma action_runs_enabled (s s1 : sched) r si :
  isEnabled s = true -> getNext s = (s1, r) ->
  isEnabled (log_invocation si (advance_clock comparer si s1)) = true.
Proof.
  intros Hen Hnext. destruct (getNext_frame s s1 r Hnext) as (_ & Hen1 & _).
  unfold advance_clock. destruct (0 <? comparer (dueTime si) (clock s1)); simpl; congruence.
Qed.

(** One turn of the loop of [start] that finds an item in time: the
    clock is advanced as [advance_clock] says, the invocation is logged at
    that clock and the action runs; when the action returns, [invoke]
    raises [TypeError], which ends [start]. *)
Lemma start_loop_turn n until (s s1 : sched) si :
  isEnabled s = true ->
  getNext s = (s1, Normal (Some si)) ->
  nextIsTooLate comparer until (Some si) = Normal false ->
  start_loop (S n) until s =
    match exec n (item_action si) (log_invocation si (advance_clock comparer si s1)) with
    | (s2, Normal _) =>
        (s2, Raised (TypeError "self.disposable.disposable is not callable"))
    | (s2, Raised e) => (s2, Raised e)
    | (s2, Diverged) => (s2, Diverged)
    end.
Proof.
  intros Hen Hnext Hlate. simpl. rewrite Hen, Hnext, Hlate. unfold invoke_with.
  destruct (exec n _ _) as [s2 [v | e |]]; reflexivity.
Qed.

Lemma advance_clock_later si (s : sched) :
  0 < comparer (dueTime si) (clock s) -> clock (advance_clock comparer si s) = dueTime si.
Proof.
  intros H. unfold advance_clock. apply Z.ltb_lt in H. now rewrite H.
Qed.

Lemma advance_clock_not_later si (s : sched) :
  comparer (dueTime si) (clock s) <= 0 -> advance_clock comparer si s = s.
Proof.
  intros H. unfold advance_clock.
  destruct (0 <? comparer (dueTime si) (clock s)) eqn:E; [apply Z.ltb_lt in E; lia |].
  reflexivity.
Qed.

(** The scheduling calls leave the clock alone. *)
Lemma scheduleAbsoluteWithState_clock st due a (s : sched) :
  clock (fst (scheduleAbsoluteWithState comparer st due a s)) = clock s.
Proof.
  unfold scheduleAbsoluteWithState.
  destruct module_global_run; [| reflexivity].
  destruct (PriorityQueue.put _ _ _ _); reflexivity.
Qed.

Lemma scheduleRelativeWithState_clock st due a (s : sched) :
  clock (fst (scheduleRelativeWithState comparer add st due a s)) = clock s.
Proof. apply scheduleAbsoluteWithState_clock. Qed.

Lemma _scheduleNow_clock st a (s : sched) :
  clock (fst (_scheduleNow comparer st a s)) = clock s.
Proof. apply scheduleAbsoluteWithState_clock. Qed.

Lemma _scheduleRelative_clock st due a (s : sched) :
  clock (fst (_scheduleRelative comparer add toRelative st due a s)) = clock s.
Proof. apply scheduleAbsoluteWithState_clock. Qed.

Lemma _scheduleAbsolute_clock st due a (s : sched) :
  clock (fst (_scheduleAbsolute comparer add toRelative toDateTimeOffset sub st due a s))
  = clock s.
Proof.
  unfold _scheduleAbsolute.
  destruct (_localNow _ _);
    [apply scheduleRelativeWithState_clock | reflexivity | reflexivity].
Qed.

Section Monotone.
(** The comparer orders the times: a time equals itself, "not earlier"
    is transitive, and of two times one of which is earlier the other is
    later. *)
Hypothesis comparer_refl : forall a, comparer a a = 0.
Hypothesis comparer_trans :
  forall a b c, 0 <= comparer b a -> 0 <= comparer c b -> 0 <= comparer c a.
Hypothesis comparer_antisym : forall a b, comparer a b < 0 -> 0 < comparer b a.

Lemma not_earlier_refl a : not_earlier a a.
Proof. unfold not_earlier. rewrite comparer_refl. lia. Qed.

Lemma advance_clock_mono si (s : sched) :
  not_earlier (clock s) (clock (advance_clock comparer si s)).
Proof.
  unfold advance_clock.
  destruct (0 <? comparer (dueTime si) (clock s)) eqn:E.
  - apply Z.ltb_lt in E. unfold not_earlier. simpl. lia.
  - apply not_earlier_refl.
Qed.

Lemma sleep_mono time (s : sched) :
  not_earlier (clock s) (clock (fst (sleep comparer add time s))).
Proof.
  unfold sleep.
  destruct (0 <=? comparer (clock s) (add (clock s) time)) eqn:E.
  - apply not_earlier_refl.
  - apply Z.leb_gt in E. apply comparer_antisym in E. unfold not_earlier. simpl. lia.
Qed.

Lemma start_with_mono loop until (s : sched) :
  loop_mono loop -> not_earlier (clock s) (clock (fst (start_with loop until s))).
Proof.
  intros Hloop. unfold start_with. destruct (isEnabled s).
  - apply not_earlier_refl.
  - apply (Hloop until (set_isEnabled true s)).
Qed.

Lemma advanceTo_with_mono loop time (s : sched) :
  loop_mono loop ->
  not_earlier (clock s) (clock (fst (advanceTo_with comparer loop time s))).
Proof.
  intros Hloop. unfold advanceTo_with.
  destruct (comparer time (clock s) <? 0); [apply not_earlier_refl |].
  destruct (comparer time (clock s) =? 0); [apply not_earlier_refl |].
  now apply start_with_mono.
Qed.

(** The loop of [start], the body of an action and every call an action
    makes leave the clock where it was or later. *)
Lemma run_mono : forall fuel,
  loop_mono (start_loop fuel) /\
  (forall a (s : sched), not_earlier (clock s) (clock (fst (exec fuel a s)))) /\
  (forall c (s : sched), not_earlier (clock s) (clock (fst (perform fuel c s)))).
Proof.
  induction fuel as [| n (IHloop & IHexec & IHperform)].
  - split; [| split]; intros x s; simpl; apply not_earlier_refl.
  - split; [| split].
    + intros u s. simpl.
      destruct (isEnabled s); [| apply not_earlier_refl].
      destruct (getNext s) as [s1 r] eqn:Hnext.
      pose proof (getNext_clock s) as Hclk. rewrite Hnext in Hclk. simpl in Hclk.
      destruct r as [next | e |]; simpl; try (rewrite Hclk; apply not_earlier_refl).
      destruct (nextIsTooLate comparer u next) as [late | e |];
        simpl; try (rewrite Hclk; apply not_earlier_refl).
      destruct next as [si |].
      * destruct late.
        -- rewrite <- Hclk. apply (IHloop u (set_isEnabled false s1)).
        -- unfold invoke_with.
           pose proof (IHexec (item_action si)
                         (log_invocation si (advance_clock comparer si s1))) as Hex.
           pose proof (advance_clock_mono si s1) as Hadv.
           rewrite Hclk in Hadv. simpl in Hex.
           destruct (exec n _ _) as [s2 [v | e |]]; simpl in *;
             eapply comparer_trans; eassumption.
      * rewrite <- Hclk. apply (IHloop u (set_isEnabled false s1)).
    + intros a s. simpl. destruct a as [| e | c k | body k].
      * apply not_earlier_refl.
      * apply not_earlier_refl.
      * pose proof (IHperform c s) as Hc.
        destruct (perform n c s) as [s1 [v | e |]]; simpl in *; try assumption.
        eapply comparer_trans; [eassumption | apply IHexec].
      * pose proof (IHexec body s) as Hb.
        destruct (exec n body s) as [s1 [v | e |]]; simpl in *; try assumption.
        -- eapply comparer_trans; [eassumption | apply IHexec].
        -- destruct (is_Exception e); simpl; [| assumption].
           eapply comparer_trans; [eassumption | apply IHexec].
    + intros c s. simpl. destruct c.
      * unfold not_earlier. rewrite scheduleAbsoluteWithState_clock, comparer_refl. lia.
      * unfold not_earlier. rewrite scheduleRelativeWithState_clock, comparer_refl. lia.
      * unfold not_earlier. rewrite _scheduleNow_clock, comparer_refl. lia.
      * unfold not_earlier. rewrite _scheduleRelative_clock, comparer_refl. lia.
      * unfold not_earlier. rewrite _scheduleAbsolute_clock, comparer_refl. lia.
      * apply not_earlier_refl.
      * apply not_earlier_refl.
      * now apply start_with_mono.
      * apply not_earlier_refl.
      * now apply advanceTo_with_mono.
      * now apply advanceTo_with_mono.
      * apply sleep_mono.
Qed.
End Monotone.
End VirtualTimeFacts.

Section HistoricalExamples.
Import VirtualTimeScheduler.
Local Abbreviation cmp := HistoricalScheduler.defaultSubComparer.

Lemma defaultSubComparer_refl a : cmp a a = 0.
Proof. unfold HistoricalScheduler.defaultSubComparer. lia. Qed.

Lemma defaultSubComparer_trans a b c : 0 <= cmp b a -> 0 <= cmp c b -> 0 <= cmp c a.
Proof. unfold HistoricalScheduler.defaultSubComparer. lia. Qed.

Lemma defaultSubComparer_antisym a b : cmp a b < 0 -> 0 < cmp b a.
Proof. unfold HistoricalScheduler.defaultSubComparer. lia. Qed.

(** With the queue filled by hand [start(None)] invokes the item that is
    due first, at clock 5, and ends there: [invoke] raises [TypeError]
    once the action has returned.  The item due at 10 stays in the queue
    and [isEnabled] stays set. *)
Lemma start_two_items fuel :
  HistoricalScheduler.start cmp (2 + fuel) None two_items
  = (mk 5 true [mkScheduledItem 1%nat aReturn 10 false] [(2%nat, 5)],
     Raised (TypeError "self.disposable.disposable is not callable")).
Proof. reflexivity. Qed.

Lemma start_due_now fuel :
  HistoricalScheduler.start cmp (2 + fuel) (Some 0) due_now
  = (mk 0 true [] [(7%nat, 0)],
     Raised (TypeError "self.disposable.disposable is not callable")).
Proof. reflexivity. Qed.
End HistoricalExamples.

(** C1, the code at the input of the claim: on a fresh
    [HistoricalScheduler] both scheduling calls raise [NameError] and
    enqueue nothing; [start()] without argument raises [TypeError];
    [start(None)] then finds the queue empty, invokes nothing, leaves the
    clock at 0 and ends in [queue.Empty]. *)
Theorem C1_scheduling_raises_and_nothing_runs :
  HistoricalScheduler.scheduleRelativeWithState HistoricalScheduler.defaultSubComparer
    1%nat 10 VirtualTimeScheduler.aReturn fresh_historical
  = (fresh_historical, Raised (NameError "run")) /\
  HistoricalScheduler.scheduleRelativeWithState HistoricalScheduler.defaultSubComparer
    2%nat 5 VirtualTimeScheduler.aReturn fresh_historical
  = (fresh_historical, Raised (NameError "run")) /\
  (forall fuel,
     HistoricalScheduler.start_call HistoricalScheduler.defaultSubComparer fuel []
       fresh_historical
     = (fresh_historical,
        Raised (TypeError "start() takes exactly one argument besides self"))) /\
  (forall fuel,
     HistoricalScheduler.start HistoricalScheduler.defaultSubComparer (S fuel) None
       fresh_historical
     = (VirtualTimeScheduler.mk 0 true [] [], Raised QueueEmpty)).
Proof. repeat split. Qed.

(** C2 as stated fails: at clock 0 with an item due at 0 pending,
    [advanceTo(0)] returns at once and invokes nothing, while [start(0)]
    invokes the item. *)
Lemma C2_advanceTo_same_time_counterexample :
  ~ (forall (fuel : nat) (time : Z) (s : @HistoricalScheduler.t nat),
       (HistoricalScheduler.defaultSubComparer time (VirtualTimeScheduler.clock s) < 0 ->
        HistoricalScheduler.advanceTo HistoricalScheduler.defaultSubComparer fuel time s
        = (s, Raised (PyException "Argument out of range"))) /\
       (~ HistoricalScheduler.defaultSubComparer time (VirtualTimeScheduler.clock s) < 0 ->
        HistoricalScheduler.advanceTo HistoricalScheduler.defaultSubComparer fuel time s
        = HistoricalScheduler.start HistoricalScheduler.defaultSubComparer fuel
            (Some time) s)).
Proof.
  intros claim.
  destruct (claim 3%nat 0 due_now) as [_ Hrun].
  assert (Hnot : ~ HistoricalScheduler.defaultSubComparer 0
                     (VirtualTimeScheduler.clock due_now) < 0)
    by (unfold HistoricalScheduler.defaultSubComparer; simpl; lia).
  specialize (Hrun Hnot). discriminate Hrun.
Qed.

(** On a fresh scheduler too: [advanceTo(0)] returns, [start(0)] sets
    [isEnabled] and ends in [queue.Empty]. *)
Lemma advanceTo_fresh_is_not_start fuel :
  HistoricalScheduler.advanceTo HistoricalScheduler.defaultSubComparer (S fuel) 0
    fresh_historical
  = (fresh_historical, Normal tt) /\
  HistoricalScheduler.start HistoricalScheduler.defaultSubComparer (S fuel) (Some 0)
    fresh_historical
  = (VirtualTimeScheduler.set_isEnabled true fresh_historical, Raised QueueEmpty).
Proof. split; reflexivity. Qed.

(** C2, amended: [advanceTo(t)] raises and changes nothing when [t]
    precedes the clock, returns at once and changes nothing when [t]
    compares equal to the clock, and is [start(t)] when [t] is later. *)
Theorem C2_advanceTo_three_cases :
  forall (Abs Rel St : Type) (comparer : Abs -> Abs -> Z) (add : Abs -> Rel -> Abs)
         (toRelative : Rel -> Rel) (toDateTimeOffset : Abs -> outcome Abs)
         (sub : Abs -> Abs -> Rel)
         (fuel : nat) (time : Abs) (s : @VirtualTimeScheduler.t Abs Rel St),
    (comparer time (VirtualTimeScheduler.clock s) < 0 ->
     VirtualTimeScheduler.advanceTo comparer add toRelative toDateTimeOffset sub fuel time s
     = (s, Raised (PyException "Argument out of range"))) /\
    (comparer time (VirtualTimeScheduler.clock s) = 0 ->
     VirtualTimeScheduler.advanceTo comparer add toRelative toDateTimeOffset sub fuel time s
     = (s, Normal tt)) /\
    (0 < comparer time (VirtualTimeScheduler.clock s) ->
     VirtualTimeScheduler.advanceTo comparer add toRelative toDateTimeOffset sub fuel time s
     = VirtualTimeScheduler.start comparer add toRelative toDateTimeOffset sub fuel
         (Some time) s).
Proof.
  intros. split; [| split].
  - apply advanceTo_earlier.
  - apply advanceTo_same.
  - apply advanceTo_later.
Qed.

Lemma C2_advanceTo_three_cases_witness :
  HistoricalScheduler.advanceTo HistoricalScheduler.defaultSubComparer 9 (-1) two_items
  = (two_items, Raised (PyException "Argument out of range")) /\
  HistoricalScheduler.advanceTo HistoricalScheduler.defaultSubComparer 9 0 two_items
  = (two_items, Normal tt) /\
  HistoricalScheduler.advanceTo HistoricalScheduler.defaultSubComparer 9 5 two_items
  = HistoricalScheduler.start HistoricalScheduler.defaultSubComparer 9 (Some 5) two_items.
Proof.
  split; [| split].
  - apply (C2_advanceTo_three_cases Z Z nat HistoricalScheduler.defaultSubComparer
             HistoricalScheduler.add HistoricalScheduler.toRelative
             HistoricalScheduler.toDateTimeOffset Z.sub 9 (-1) two_items).
    vm_compute. reflexivity.
  - apply (C2_advanceTo_three_cases Z Z nat HistoricalScheduler.defaultSubComparer
             HistoricalScheduler.add HistoricalScheduler.toRelative
             HistoricalScheduler.toDateTimeOffset Z.sub 9 0 two_items).
    vm_compute. reflexivity.
  - apply (C2_advanceTo_three_cases Z Z nat HistoricalScheduler.defaultSubComparer
             HistoricalScheduler.add HistoricalScheduler.toRelative
             HistoricalScheduler.toDateTimeOffset Z.sub 9 5 two_items).
    vm_compute. reflexivity.
Defined.

(** C10: a call of [start] made while [isEnabled] is set, directly or by
    an action that a running [start] has invoked, returns at once and
    leaves the whole scheduler as it was: clock, queue, flag and the log
    of invocations. *)
Theorem C10_nested_start_is_a_noop :
  forall (Abs Rel St : Type) (comparer : Abs -> Abs -> Z) (add : Abs -> Rel -> Abs)
         (toRelative : Rel -> Rel) (toDateTimeOffset : Abs -> outcome Abs)
         (sub : Abs -> Abs -> Rel)
         (fuel : nat) (until : option Abs) (s : @VirtualTimeScheduler.t Abs Rel St),
    VirtualTimeScheduler.isEnabled s = true ->
    VirtualTimeScheduler.start comparer add toRelative toDateTimeOffset sub fuel until s
    = (s, Normal tt) /\
    VirtualTimeScheduler.perform comparer add toRelative toDateTimeOffset sub (S fuel)
      (VirtualTimeScheduler.cStart until) s
    = (s, Normal tt).
Proof.
  intros. split.
  - now apply start_enabled.
  - now apply perform_start_enabled.
Qed.

Lemma C10_nested_start_is_a_noop_witness :
  HistoricalScheduler.start HistoricalScheduler.defaultSubComparer 9 None
    (VirtualTimeScheduler.set_isEnabled true two_items)
  = (VirtualTimeScheduler.set_isEnabled true two_items, Normal tt).
Proof.
  apply (C10_nested_start_is_a_noop Z Z nat HistoricalScheduler.defaultSubComparer
           HistoricalScheduler.add HistoricalScheduler.toRelative
           HistoricalScheduler.toDateTimeOffset Z.sub 9 None
           (VirtualTimeScheduler.set_isEnabled true two_items)).
  reflexivity.
Defined.

(** C3: the clock never moves backwards.  In a turn of the loop of
    [start] that invokes an item, the clock becomes the due time of the
    item when that is later than the clock and stays where it is
    otherwise, and the item is invoked at that clock ([invoke] then
    raises [TypeError] when the action returns); [start],
    [advanceTo], [advanceBy], [sleep], [stop], every scheduling call and
    every other call an action makes on the scheduler, and every action
    run, end with a clock that is not earlier than the one they began
    with. *)
Theorem C3_clock_never_decreases :
  forall (Abs Rel St : Type) (comparer : Abs -> Abs -> Z) (add : Abs -> Rel -> Abs)
         (toRelative : Rel -> Rel) (toDateTimeOffset : Abs -> outcome Abs)
         (sub : Abs -> Abs -> Rel),
    (forall a, comparer a a = 0) ->
    (forall a b c, 0 <= comparer b a -> 0 <= comparer c b -> 0 <= comparer c a) ->
    (forall a b, comparer a b < 0 -> 0 < comparer b a) ->
    forall (fuel : nat) (s : @VirtualTimeScheduler.t Abs Rel St),
      (forall until s1 si,
         VirtualTimeScheduler.isEnabled s = true ->
         VirtualTimeScheduler.getNext s = (s1, Normal (Some si)) ->
         VirtualTimeScheduler.nextIsTooLate comparer until (Some si) = Normal false ->
         VirtualTimeScheduler.start_loop comparer add toRelative toDateTimeOffset sub
           (S fuel) until s
         = match VirtualTimeScheduler.exec comparer add toRelative toDateTimeOffset sub fuel
                   (VirtualTimeScheduler.item_action si)
                   (VirtualTimeScheduler.log_invocation si
                      (VirtualTimeScheduler.advance_clock comparer si s1)) with
           | (s2, Normal _) =>
               (s2, Raised (TypeError "self.disposable.disposable is not callable"))
           | (s2, Raised e) => (s2, Raised e)
           | (s2, Diverged) => (s2, Diverged)
           end) /\
      (forall si,
         (0 < comparer (VirtualTimeScheduler.dueTime si) (VirtualTimeScheduler.clock s) ->
          VirtualTimeScheduler.clock (VirtualTimeScheduler.advance_clock comparer si s)
          = VirtualTimeScheduler.dueTime si) /\
         (comparer (VirtualTimeScheduler.dueTime si) (VirtualTimeScheduler.clock s) <= 0 ->
          VirtualTimeScheduler.advance_clock comparer si s = s)) /\
      (forall until,
         VirtualTimeScheduler.not_earlier comparer (VirtualTimeScheduler.clock s)
           (VirtualTimeScheduler.clock (fst
              (VirtualTimeScheduler.start comparer add toRelative toDateTimeOffset sub
                 fuel until s)))) /\
      (forall time,
         VirtualTimeScheduler.not_earlier comparer (VirtualTimeScheduler.clock s)
           (VirtualTimeScheduler.clock (fst
              (VirtualTimeScheduler.advanceTo comparer add toRelative toDateTimeOffset sub
                 fuel time s)))) /\
      (forall time,
         VirtualTimeScheduler.not_earlier comparer (VirtualTimeScheduler.clock s)
           (VirtualTimeScheduler.clock (fst
              (VirtualTimeScheduler.advanceBy comparer add toRelative toDateTimeOffset sub
                 fuel time s)))) /\
      (forall time,
         VirtualTimeScheduler.not_earlier comparer (VirtualTimeScheduler.clock s)
           (VirtualTimeScheduler.clock (fst (VirtualTimeScheduler.sleep comparer add time s)))) /\
      VirtualTimeScheduler.not_earlier comparer (VirtualTimeScheduler.clock s)
        (VirtualTimeScheduler.clock (fst (VirtualTimeScheduler.stop s))) /\
      (forall c,
         VirtualTimeScheduler.not_earlier comparer (VirtualTimeScheduler.clock s)
           (VirtualTimeScheduler.clock (fst
              (VirtualTimeScheduler.perform comparer add toRelative toDateTimeOffset sub
                 fuel c s)))) /\
      (forall a,
         VirtualTimeScheduler.not_earlier comparer (VirtualTimeScheduler.clock s)
           (VirtualTimeScheduler.clock (fst
              (VirtualTimeScheduler.exec comparer add toRelative toDateTimeOffset sub
                 fuel a s)))).
Proof.
  intros Abs Rel St comparer add toRelative toDateTimeOffset sub Hrefl Htrans Hanti fuel s.
  destruct (@run_mono Abs Rel St comparer add toRelative toDateTimeOffset sub Hrefl Htrans Hanti
              fuel) as (Hloop & Hexec & Hperform).
  repeat apply conj.
  - intros u s1 si. apply start_loop_turn.
  - intros si. split.
    + apply advance_clock_later.
    + apply advance_clock_not_later.
  - intros u. apply start_with_mono; assumption.
  - intros time. apply advanceTo_with_mono; assumption.
  - intros time. apply advanceTo_with_mono; assumption.
  - intros time. apply sleep_mono; assumption.
  - apply not_earlier_refl; assumption.
  - intros c. apply Hperform.
  - intros a. apply Hexec.
Qed.

Lemma C3_clock_never_decreases_witness :
  VirtualTimeScheduler.not_earlier HistoricalScheduler.defaultSubComparer
    (VirtualTimeScheduler.clock two_items)
    (VirtualTimeScheduler.clock (fst
       (HistoricalScheduler.start HistoricalScheduler.defaultSubComparer 9 None two_items))).
Proof.
  apply (C3_clock_never_decreases Z Z nat HistoricalScheduler.defaultSubComparer
           HistoricalScheduler.add HistoricalScheduler.toRelative
           HistoricalScheduler.toDateTimeOffset Z.sub
           defaultSubComparer_refl defaultSubComparer_trans defaultSubComparer_antisym
           9%nat two_items).
Defined.

(** ** CatchWrapper and CatchScheduler *)

Section CatchFacts.
Import CatchScheduler.

Lemma update_lookup_eq (r : ref) f (h : heap) c :
  h !! r = Some (Catch c) -> update r f h !! r = Some (Catch (f c)).
Proof.
  intros Hr. unfold update. rewrite Hr. apply lookup_insert_eq.
Qed.

Lemma update_lookup_ne (r r' : ref) f (h : heap) :
  r ≠ r' -> update r f h !! r' = h !! r'.
Proof.
  intros Hne. unfold update.
  destruct (h !! r) as [[| c] |]; try reflexivity.
  now apply lookup_insert_ne.
Qed.

(** What a lookup does when the scheduler is not the one seen last: a
    new object, unknown before, becomes the wrapper, and the decorator
    remembers the pair. *)
Lemma _getRecursiveWrapper_miss (self scheduler : ref) (h : heap) c :
  h !! self = Some (Catch c) ->
  _recursiveOriginal c ≠ Some scheduler ->
  exists h1 wrapper,
    _getRecursiveWrapper self scheduler h = (h1, Normal (Some wrapper)) /\
    h !! wrapper = None /\
    h1 !! self = Some (Catch (mkInstance (_scheduler c) (_handler c)
                                (Some scheduler) (Some wrapper))).
Proof.
  intros Hself Hmiss. unfold _getRecursiveWrapper. rewrite Hself.
  destruct (decide (_recursiveOriginal c = Some scheduler)) as [Heq | _];
    [contradiction |].
  unfold _clone, new.
  set (h1 := update self (set_recursiveOriginal (Some scheduler)) h).
  set (wrapper := fresh (dom h1)).
  assert (Hself1 : h1 !! self = Some (Catch (set_recursiveOriginal (Some scheduler) c)))
    by now apply update_lookup_eq.
  assert (Hfresh : h1 !! wrapper = None)
    by (apply not_elem_of_dom; apply is_fresh).
  assert (Hne : wrapper ≠ self) by (intros ->; rewrite Hself1 in Hfresh; discriminate).
  eexists _, wrapper. split; [reflexivity | split].
  - destruct (decide (self = wrapper)) as [E | E]; [exfalso; apply Hne; now symmetry |].
    rewrite <- Hfresh. symmetry. now apply update_lookup_ne.
  - rewrite (update_lookup_eq self _ _ (set_recursiveOriginal (Some scheduler) c));
      [reflexivity |].
    rewrite !update_lookup_ne by assumption.
    rewrite lookup_insert_ne by assumption.
    exact Hself1.
Qed.

Lemma _getRecursiveWrapper_hit (self scheduler : ref) (h : heap) c :
  h !! self = Some (Catch c) ->
  _recursiveOriginal c = Some scheduler ->
  _getRecursiveWrapper self scheduler h = (h, Normal (_recursiveWrapper c)).
Proof.
  intros Hself Hhit. unfold _getRecursiveWrapper. rewrite Hself.
  destruct (decide (_recursiveOriginal c = Some scheduler)); [reflexivity | contradiction].
Qed.

(** After a lookup the decorator remembers the scheduler it was asked
    about, together with the wrapper it answered. *)
Lemma _getRecursiveWrapper_remembers (self scheduler : ref) (h : heap) c :
  h !! self = Some (Catch c) ->
  exists h1 w c1,
    _getRecursiveWrapper self scheduler h = (h1, Normal w) /\
    h1 !! self = Some (Catch c1) /\
    _recursiveOriginal c1 = Some scheduler /\
    _recursiveWrapper c1 = w.
Proof.
  intros Hself.
  destruct (decide (_recursiveOriginal c = Some scheduler)) as [Hhit | Hmiss].
  - exists h, (_recursiveWrapper c), c.
    split; [now apply _getRecursiveWrapper_hit | auto].
  - destruct (_getRecursiveWrapper_miss self scheduler h c Hself Hmiss)
      as (h1 & wrapper & Hcall & _ & Hself1).
    exists h1, (Some wrapper), (mkInstance (_scheduler c) (_handler c)
                                  (Some scheduler) (Some wrapper)).
    auto.
Qed.

Lemma lookups_same_scheduler (self scheduler : ref) : forall (n : nat) (h : heap) c,
  h !! self = Some (Catch c) ->
  _recursiveOriginal c = Some scheduler ->
  lookups self (repeat scheduler n) h = (h, repeat (Normal (_recursiveWrapper c)) n).
Proof.
  induction n as [| n IH]; intros h c Hself Hhit; simpl.
  - reflexivity.
  - rewrite (_getRecursiveWrapper_hit self scheduler h c Hself Hhit).
    rewrite (IH h c Hself Hhit). reflexivity.
Qed.

Lemma CatchWrapper_call_fault {St World : Type} (parent : ref) (a : @action St World)
    (_self : ref) (_state : St) (s s2 : heap * World) h1 w e :
  _getRecursiveWrapper parent _self (fst s) = (h1, Normal w) ->
  a w _state (h1, snd s) = (s2, Raised e) ->
  CatchWrapper_call parent a _self _state s = on_fault parent e s2.
Proof.
  intros Hw Ha. unfold CatchWrapper_call. rewrite Hw, Ha. reflexivity.
Qed.

End CatchFacts.

(** C4 as stated fails: an action that calls [sys.exit()] raises
    [SystemExit], which [except Exception] does not catch; the fault
    leaves the wrapped action although the handler accepts every fault. *)
Lemma C4_SystemExit_counterexample :
  ~ (forall (parent : positive) (a : @CatchScheduler.action unit unit)
            (_self : positive) (_state : unit)
            (s s2 : gmap positive CatchScheduler.object * unit)
            (h1 : gmap positive CatchScheduler.object) (w : option positive) (e : exn),
       CatchScheduler._getRecursiveWrapper parent _self (fst s) = (h1, Normal w) ->
       a w _state (h1, snd s) = (s2, Raised e) ->
       (CatchScheduler.parent_handler parent (fst s2) e = Normal true ->
        CatchScheduler.CatchWrapper_call parent a _self _state s
        = (s2, Normal Disposable_empty)) /\
       (CatchScheduler.parent_handler parent (fst s2) e = Normal false ->
        CatchScheduler.CatchWrapper_call parent a _self _state s = (s2, Raised e))).
Proof.
  intros claim.
  set (r := CatchScheduler._getRecursiveWrapper 1%positive 10%positive one_decorator).
  assert (Hcall : r = (fst r, Normal (Some 12%positive))) by (vm_compute; reflexivity).
  destruct (claim 1%positive exits 10%positive tt (one_decorator, tt) (fst r, tt) (fst r)
              (Some 12%positive) SystemExit Hcall eq_refl) as [Hswallow _].
  rewrite (CatchWrapper_call_fault 1%positive exits 10%positive tt
             (one_decorator, tt) (fst r, tt) (fst r) (Some 12%positive) SystemExit
             Hcall eq_refl) in Hswallow.
  assert (Hacc : CatchScheduler.parent_handler 1%positive (fst r) SystemExit = Normal true)
    by (vm_compute; reflexivity).
  specialize (Hswallow Hacc). discriminate Hswallow.
Qed.

(** C4, amended: when the action raises a fault [e] that is an instance
    of [Exception], the wrapped action returns the empty token if the
    handler answers true and raises the same [e] if it answers false; a
    fault that is no instance of [Exception] is raised on without the
    handler being asked. *)
Theorem C4_Exception_handled_or_reraised :
  forall (St World : Type) (parent : positive) (a : @CatchScheduler.action St World)
         (_self : positive) (_state : St)
         (s s2 : gmap positive CatchScheduler.object * World)
         (h1 : gmap positive CatchScheduler.object) (w : option positive) (e : exn),
    CatchScheduler._getRecursiveWrapper parent _self (fst s) = (h1, Normal w) ->
    a w _state (h1, snd s) = (s2, Raised e) ->
    (is_Exception e = true ->
     CatchScheduler.parent_handler parent (fst s2) e = Normal true ->
     CatchScheduler.CatchWrapper_call parent a _self _state s
     = (s2, Normal Disposable_empty)) /\
    (is_Exception e = true ->
     CatchScheduler.parent_handler parent (fst s2) e = Normal false ->
     CatchScheduler.CatchWrapper_call parent a _self _state s = (s2, Raised e)) /\
    (is_Exception e = false ->
     CatchScheduler.CatchWrapper_call parent a _self _state s = (s2, Raised e)).
Proof.
  intros St World parent a _self _state s s2 h1 w e Hw Ha.
  rewrite (CatchWrapper_call_fault parent a _self _state s s2 h1 w e Hw Ha).
  unfold CatchScheduler.on_fault.
  split; [| split].
  - intros -> ->. reflexivity.
  - intros -> ->. reflexivity.
  - intros ->. reflexivity.
Qed.

Lemma C4_Exception_handled_or_reraised_witness :
  CatchScheduler.CatchWrapper_call 1%positive faults 10%positive tt (one_decorator, tt)
  = ((fst (CatchScheduler._getRecursiveWrapper 1%positive 10%positive one_decorator), tt),
     Normal Disposable_empty).
Proof.
  refine (proj1 (C4_Exception_handled_or_reraised unit unit 1%positive faults 10%positive tt
                   (one_decorator, tt)
                   (fst (CatchScheduler._getRecursiveWrapper 1%positive 10%positive
                           one_decorator), tt)
                   (fst (CatchScheduler._getRecursiveWrapper 1%positive 10%positive
                           one_decorator))
                   (Some 12%positive) (Fault 0) _ _) _ _).
  - vm_compute. reflexivity.
  - reflexivity.
  - reflexivity.
  - vm_compute. reflexivity.
Defined.

(** C5 as stated fails: asked about the schedulers 10, 11 and 10 again,
    the decorator answers with three different wrappers; the second
    lookup has overwritten the one pair it remembers. *)
Lemma C5_interleaved_lookups_counterexample :
  ~ (forall (h : gmap positive CatchScheduler.object) (self : positive)
            (c : CatchScheduler.instance) (schedulers : list positive)
            (i j : nat) (scheduler : positive) (ri rj : outcome (option positive)),
       h !! self = Some (CatchScheduler.Catch c) ->
       schedulers !! i = Some scheduler ->
       schedulers !! j = Some scheduler ->
       snd (CatchScheduler.lookups self schedulers h) !! i = Some ri ->
       snd (CatchScheduler.lookups self schedulers h) !! j = Some rj ->
       ri = rj).
Proof.
  intros claim.
  assert (Hdiff : Normal (Some 12%positive) = Normal (Some 14%positive)).
  { apply (claim one_decorator 1%positive
             (CatchScheduler.mkInstance 10%positive accept_all None None)
             [10; 11; 10]%positive 0%nat 2%nat 10%positive).
    - reflexivity.
    - reflexivity.
    - reflexivity.
    - vm_compute. reflexivity.
    - vm_compute. reflexivity. }
  discriminate Hdiff.
Qed.

(** C5, amended: the decorator remembers one pair, the inner scheduler
    of the latest lookup and its wrapper.  Lookups for the same inner
    scheduler that follow one another return the same wrapper and, after
    the first, change nothing; a lookup for a scheduler other than the
    remembered one returns a new object that did not exist before. *)
Theorem C5_wrapper_kept_for_latest_scheduler :
  forall (h : gmap positive CatchScheduler.object) (self : positive)
         (c : CatchScheduler.instance) (scheduler : positive) (n : nat),
    h !! self = Some (CatchScheduler.Catch c) ->
    exists (h1 : gmap positive CatchScheduler.object) (w : option positive),
      CatchScheduler._getRecursiveWrapper self scheduler h = (h1, Normal w) /\
      CatchScheduler.lookups self (repeat scheduler (S n)) h
      = (h1, repeat (Normal w) (S n)) /\
      (CatchScheduler._recursiveOriginal c = Some scheduler ->
       h1 = h /\ w = CatchScheduler._recursiveWrapper c) /\
      (CatchScheduler._recursiveOriginal c <> Some scheduler ->
       exists wrapper, w = Some wrapper /\ h !! wrapper = None).
Proof.
  intros h self c scheduler n Hself.
  destruct (_getRecursiveWrapper_remembers self scheduler h c Hself)
    as (h1 & w & c1 & Hcall & Hself1 & Horig1 & Hwrap1).
  exists h1, w. split; [exact Hcall | split; [| split]].
  - simpl. rewrite Hcall.
    rewrite (lookups_same_scheduler self scheduler n h1 c1 Hself1 Horig1).
    rewrite Hwrap1. reflexivity.
  - intros Hhit.
    rewrite (_getRecursiveWrapper_hit self scheduler h c Hself Hhit) in Hcall.
    inversion Hcall. auto.
  - intros Hmiss.
    destruct (_getRecursiveWrapper_miss self scheduler h c Hself Hmiss)
      as (h1' & wrapper & Hcall' & Hnew & _).
    rewrite Hcall in Hcall'. inversion Hcall'; subst.
    exists wrapper. auto.
Qed.

Lemma C5_wrapper_kept_for_latest_scheduler_witness :
  exists (h1 : gmap positive CatchScheduler.object) (w : option positive),
    CatchScheduler._getRecursiveWrapper 1%positive 10%positive one_decorator
    = (h1, Normal w) /\
    CatchScheduler.lookups 1%positive (repeat 10%positive 3) one_decorator
    = (h1, repeat (Normal w) 3) /\
    (CatchScheduler._recursiveOriginal
       (CatchScheduler.mkInstance 10%positive accept_all None None) = Some 10%positive ->
     h1 = one_decorator /\
     w = CatchScheduler._recursiveWrapper
           (CatchScheduler.mkInstance 10%positive accept_all None None)) /\
    (CatchScheduler._recursiveOriginal
       (CatchScheduler.mkInstance 10%positive accept_all None None) <> Some 10%positive ->
     exists wrapper, w = Some wrapper /\ one_decorator !! wrapper = None).
Proof.
  apply (C5_wrapper_kept_for_latest_scheduler one_decorator 1%positive
           (CatchScheduler.mkInstance 10%positive accept_all None None) 10%positive 2).
  reflexivity.
Defined.

(** C6, the code at any input: every tick of the periodic schedule
    raises [TypeError] at [with failureLock], because [failureLock] is
    the function [RLock] and not a lock.  The user action is never
    invoked, [failed] is never set and [d] is never disposed. *)
Theorem C6_periodic_tick_raises_before_the_action :
  forall (St : Type) (action : nat -> St -> outcome St)
         (self : CatchScheduler.instance) (state : St) (n : nat),
    CatchScheduler.ticks action n self state CatchScheduler.new_closure
    = (CatchScheduler.new_closure,
       repeat (Raised (TypeError "object does not support the context manager protocol")) n).
Proof.
  intros St action self state n.
  generalize CatchScheduler.new_closure as k.
  induction n as [| n IH]; intros k; simpl.
  - reflexivity.
  - rewrite IH. reflexivity.
Qed.

(** Were [failureLock] a lock, the first fault of the action would set
    [failed] and then raise [AttributeError]: the handler is stored as
    [_handler] and looked up as [handler].  It is not asked, and [d] is
    not disposed. *)
Lemma scheduled_under_a_lock_misses_the_handler {St : Type}
    (action : nat -> St -> outcome St) (self : CatchScheduler.instance) (state : St)
    (k : CatchScheduler.closure) (e : exn) :
  CatchScheduler.failed k = false ->
  action (CatchScheduler.calls k) state = Raised e ->
  is_Exception e = true ->
  CatchScheduler.scheduled_with action CatchScheduler.RLock_instance self state k
  = (CatchScheduler.mkClosure true (CatchScheduler.d_isDisposed k)
       (S (CatchScheduler.calls k)),
     Raised (AttributeError "handler")).
Proof.
  intros Hfailed Haction Hexc. unfold CatchScheduler.scheduled_with. simpl.
  rewrite Hfailed, Haction, Hexc. reflexivity.
Qed.

(** ** CurrentThreadScheduler *)

(** C7, the code at the input of the claim: scheduling [A], which would
    schedule [B], raises [TypeError], for [_scheduleRelative] is declared
    with [dueTime] and [action] only and is called with state, due time
    and action.  Nothing is enqueued and neither [A] nor [B] is invoked. *)
Theorem C7_scheduling_raises_TypeError :
  forall (St : Type) (stateA stateB : St) (s : @CurrentThreadScheduler.t St),
    let B := CurrentThreadScheduler.aReturn in
    let A := CurrentThreadScheduler.aScheduleWithRelativeAndState stateB 0 B
               CurrentThreadScheduler.aReturn in
    CurrentThreadScheduler.scheduleWithRelativeAndState stateA 0 A s
    = (s, Raised (TypeError "_scheduleRelative() takes 3 positional arguments")) /\
    CurrentThreadScheduler._scheduleNow stateA A s
    = (s, Raised (TypeError "_scheduleRelative() takes 3 positional arguments")).
Proof. intros. split; reflexivity. Qed.

(** Called with a due time and an action only, [_scheduleRelative] gets
    as far as the free name [state]. *)
Lemma _scheduleRelative_two_arguments {St : Type}
    (a : @CurrentThreadScheduler.action St) (s : @CurrentThreadScheduler.t St) :
  CurrentThreadScheduler._scheduleRelative
    [CurrentThreadScheduler.VNum 0; CurrentThreadScheduler.VAction a] s
  = (s, Raised (NameError "state")).
Proof. reflexivity. Qed.

(** ** RecursiveScheduledFunction *)

Section RecursiveFacts.
Import RecursiveScheduledFunction.

Local Abbreviation machine := RecursiveScheduledFunction.t.

Lemma mem_app x l1 l2 : mem x (l1 ++ l2) = mem x l1 || mem x l2.
Proof. unfold mem. apply existsb_app. Qed.

Lemma mem_cons x y l : mem x (y :: l) = Nat.eqb x y || mem x l.
Proof. reflexivity. Qed.

Lemma mem_cons_same x l : mem x (x :: l) = true.
Proof. rewrite mem_cons, Nat.eqb_refl. reflexivity. Qed.

Lemma mem_snoc x y l : mem x (l ++ [y]) = true -> mem x l = true \/ x = y.
Proof.
  rewrite mem_app, mem_cons. simpl. rewrite orb_false_r.
  intros H. apply orb_true_iff in H. destruct H as [H | H]; [now left |].
  right. now apply Nat.eqb_eq.
Qed.

Lemma mem_removed x tok l :
  mem x (List.filter (fun y => negb (Nat.eqb tok y)) l) = true ->
  mem x l = true /\ x <> tok.
Proof.
  unfold mem. rewrite !existsb_exists. intros (y & Hin & Hxy).
  apply List.filter_In in Hin. destruct Hin as (Hin & Hne).
  apply Nat.eqb_eq in Hxy. subst y. split.
  - exists x. split; [exact Hin | apply Nat.eqb_refl].
  - intros ->. rewrite Nat.eqb_refl in Hne. discriminate Hne.
Qed.

(** Writing call [k] leaves the other calls alone. *)
Lemma lookup_set_call k c (s : machine) k0 c0 :
  calls (set_call k c s) !! k0 = Some c0 ->
  (k0 = k /\ c0 = c) \/ (k0 <> k /\ calls s !! k0 = Some c0).
Proof.
  unfold set_call. simpl. intros H.
  destruct (decide (k0 = k)) as [-> | Hne].
  - left. split; [reflexivity |].
    assert (Hlt : (k < length (calls s))%nat).
    { apply lookup_lt_Some in H. now rewrite length_insert in H. }
    rewrite list_lookup_insert_eq in H by exact Hlt. now inversion H.
  - right. split; [exact Hne |].
    rewrite list_lookup_insert_ne in H by congruence. exact H.
Qed.

Lemma lookup_set_call_eq k c c' (s : machine) :
  calls s !! k = Some c -> calls (set_call k c' s) !! k = Some c'.
Proof.
  intros H. unfold set_call. simpl. apply list_lookup_insert_eq.
  now apply lookup_lt_Some in H.
Qed.

Lemma lookup_set_call_ne k k0 c' (s : machine) :
  k0 <> k -> calls (set_call k c' s) !! k0 = calls s !! k0.
Proof.
  intros H. unfold set_call. simpl. apply list_lookup_insert_ne. congruence.
Qed.

Lemma length_set_call k c (s : machine) :
  length (calls (set_call k c s)) = length (calls s).
Proof. unfold set_call. simpl. apply length_insert. Qed.

(** The state after one event, by cases on the event. *)
Lemma step_inv e (s s' : machine) :
  step e s = Some s' ->
  match e with
  | Call p =>
      was_invoked p s = true /\
      s' = set_calls (calls s ++ [mkCall p AtEntry NotScheduled]) s
  | ClearDone k =>
      exists p b, calls s !! k = Some (mkCall p AtEntry b) /\
        s' = set_call k (mkCall p DoneCleared b) (set_isDone false s)
  | ClearAdded k =>
      exists p b, calls s !! k = Some (mkCall p DoneCleared b) /\
        s' = set_call k (mkCall p FlagsReset b) (set_isAdded false s)
  | Schedule k =>
      exists p, calls s !! k = Some (mkCall p FlagsReset NotScheduled) /\
        s' = set_call k (mkCall p Scheduled Armed) s
  | Assign k =>
      exists p b, calls s !! k = Some (mkCall p Scheduled b) /\
        s' = set_call k (mkCall p CancelAssigned b) (set_cancel (Some k) s)
  | Register k =>
      exists p b, calls s !! k = Some (mkCall p CancelAssigned b) /\
        s' = set_call k (mkCall p Returned b)
               (if isDone s then s else set_isAdded true (group_add (cancel s) s))
  | CbStart k =>
      exists p a, calls s !! k = Some (mkCall p a Armed) /\
        scheduler_may_start k s = true /\
        s' = set_call k (mkCall p a Started) s
  | CbLock k =>
      exists p a, calls s !! k = Some (mkCall p a Started) /\
        s' = set_call k (mkCall p a Locked)
               (if isAdded s then group_remove (cancel s) s else set_isDone true s)
  | CbRun k =>
      exists p a, calls s !! k = Some (mkCall p a Locked) /\
        s' = set_call k (mkCall p a Running) (run_action k s)
  | CbReturn k =>
      exists p a, calls s !! k = Some (mkCall p a Running) /\
        s' = set_call k (mkCall p a Ended) s
  | DisposeGroup => s' = group_dispose s
  end.
Proof.
  unfold step. destruct e as [p | k | k | k | k | k | k | k | k | k |].
  - destruct (was_invoked p s); intros H; inversion H; auto.
  - destruct (calls s !! k) as [[p [] b] |]; intros H; inversion H; eauto.
  - destruct (calls s !! k) as [[p [] b] |]; intros H; inversion H; eauto.
  - destruct (calls s !! k) as [[p [] []] |]; intros H; inversion H; eauto.
  - destruct (calls s !! k) as [[p [] b] |]; intros H; inversion H; eauto.
  - destruct (calls s !! k) as [[p [] b] |]; intros H; inversion H; eauto.
  - destruct (calls s !! k) as [[p a []] |]; intros H; try discriminate H.
    destruct (scheduler_may_start k s); inversion H; eauto.
  - destruct (calls s !! k) as [[p a []] |]; intros H; inversion H; eauto.
  - destruct (calls s !! k) as [[p a []] |]; intros H; inversion H; eauto.
  - destruct (calls s !! k) as [[p a []] |]; intros H; inversion H; eauto.
  - intros H. now inversion H.
Qed.

Lemma init_chain_inv : chain_inv init.
Proof.
  split; simpl; intros; try discriminate.
Qed.

(** In an orderly run only the last call can be in flight, and only its
    callback can be waiting or at its beginning. *)
Lemma last_call (s : machine) k c :
  chain_inv s -> calls s !! k = Some c ->
  pc c <> Returned \/ (cb c <> Running /\ cb c <> Ended) ->
  S k = length (calls s).
Proof.
  intros Hinv Hk Hactive.
  pose proof (lookup_lt_Some _ _ _ Hk) as Hlt.
  destruct (decide (S k < length (calls s))%nat) as [Holder | Hlast]; [| lia].
  exfalso. destruct (ci_older s Hinv k c Hk Holder) as (Hpc & Hcb).
  destruct Hactive as [Hne | (Hr & He)]; [now apply Hne |].
  destruct Hcb as [Hcb | Hcb]; [now apply Hr | now apply He].
Qed.

Lemma started_call_returned (s : machine) k c :
  chain_inv s -> calls s !! k = Some c ->
  cb c <> NotScheduled -> cb c <> Armed -> pc c = Returned.
Proof.
  intros Hinv Hk Hn Ha.
  destruct (pc c) eqn:Hpc; try reflexivity;
    (destruct (ci_deferred s Hinv k c Hk) as [H | H];
     [rewrite Hpc; discriminate | now apply Hn in H | now apply Ha in H]).
Qed.

Lemma linear_no_call (s : machine) p k c :
  linear (Call p) s = true -> calls s !! k = Some c ->
  same_caller (made_by c) p = false.
Proof.
  simpl. intros Hlin Hk.
  rewrite forallb_forall in Hlin.
  apply negb_true_iff. apply Hlin.
  apply list_elem_of_In. eapply list_elem_of_lookup_2. exact Hk.
Qed.

(** The call an orderly run makes next continues the chain. *)
Lemma next_call_made_by (s : machine) p :
  chain_inv s -> was_invoked p s = true -> linear (Call p) s = true ->
  p = match length (calls s) with O => None | S j => Some j end /\
  (forall k c, calls s !! k = Some c -> S k = length (calls s) ->
     pc c = Returned /\ (cb c = Running \/ cb c = Ended)).
Proof.
  intros Hinv Hruns Hlin. destruct p as [j |]; simpl in Hruns.
  - destruct (calls s !! j) as [[q a b] |] eqn:Hj; [| discriminate Hruns].
    assert (Hb : b = Running \/ b = Ended)
      by (destruct b; try discriminate Hruns; auto).
    pose proof (lookup_lt_Some _ _ _ Hj) as Hlt.
    assert (Hlen : S j = length (calls s)).
    { destruct (decide (S j < length (calls s))%nat) as [Hmore | Hlast]; [| lia].
      exfalso. destruct (lookup_lt_is_Some_2 (calls s) (S j) Hmore) as [c Hc].
      pose proof (linear_no_call s (Some j) (S j) c Hlin Hc) as Hno.
      rewrite (ci_chain s Hinv (S j) c Hc) in Hno. simpl in Hno.
      rewrite Nat.eqb_refl in Hno. discriminate Hno. }
    split; [now rewrite <- Hlen |].
    intros k c Hk Hklen. assert (k = j) by lia. subst k.
    rewrite Hj in Hk. inversion Hk; subst c. simpl. split; [| exact Hb].
    apply (started_call_returned s j _ Hinv Hj); simpl;
      destruct Hb as [-> | ->]; discriminate.
  - destruct (calls s) as [| c0 l] eqn:Hcalls.
    + split; [reflexivity |]. intros k c Hk. discriminate Hk.
    + exfalso. assert (H0 : calls s !! 0%nat = Some c0) by now rewrite Hcalls.
      pose proof (linear_no_call s None 0%nat c0 Hlin H0) as Hno.
      rewrite (ci_chain s Hinv 0%nat c0 H0) in Hno. discriminate Hno.
Qed.

Lemma lookup_insert_call (l : list call) k c k0 c0 :
  <[k := c]> l !! k0 = Some c0 ->
  (k0 = k /\ c0 = c) \/ (k0 <> k /\ l !! k0 = Some c0).
Proof.
  intros H. destruct (decide (k0 = k)) as [-> | Hne].
  - left. split; [reflexivity |].
    assert (Hlt : (k < length l)%nat).
    { apply lookup_lt_Some in H. now rewrite length_insert in H. }
    rewrite list_lookup_insert_eq in H by exact Hlt. now inversion H.
  - right. split; [exact Hne |].
    rewrite list_lookup_insert_ne in H by congruence. exact H.
Qed.

Lemma lookup_insert_call_exists (l : list call) k c c' k0 c0 (P : call -> Prop) :
  l !! k = Some c -> l !! k0 = Some c0 ->
  (k0 = k -> P c') -> (k0 <> k -> P c0) ->
  exists c1, <[k := c']> l !! k0 = Some c1 /\ P c1.
Proof.
  intros Hk Hk0 Hsame Hother. destruct (decide (k0 = k)) as [-> | Hne].
  - exists c'. split; [| now apply Hsame].
    apply list_lookup_insert_eq. now apply lookup_lt_Some in Hk.
  - exists c0. split; [| now apply Hother].
    rewrite list_lookup_insert_ne by congruence. exact Hk0.
Qed.

(** In an orderly run one call at most is unfinished: the last one. *)
Lemma unfinished_is_last (s : machine) k c :
  chain_inv s -> calls s !! k = Some c -> unfinished c = true ->
  S k = length (calls s).
Proof.
  intros Hinv Hk Hun. apply (last_call s k c Hinv Hk).
  unfold unfinished in Hun.
  destruct (pc c); try (left; discriminate).
  right. destruct (cb c); try discriminate Hun; split; discriminate.
Qed.

Lemma one_unfinished (s : machine) k c k0 c0 :
  chain_inv s -> calls s !! k = Some c -> calls s !! k0 = Some c0 ->
  unfinished c = true -> unfinished c0 = true -> k0 = k.
Proof.
  intros Hinv Hk Hk0 Hc Hc0.
  pose proof (unfinished_is_last s k c Hinv Hk Hc).
  pose proof (unfinished_is_last s k0 c0 Hinv Hk0 Hc0).
  lia.
Qed.

Lemma group_add_frame x (s : machine) :
  isDone (group_add x s) = isDone s /\ isAdded (group_add x s) = isAdded s /\
  cancel (group_add x s) = cancel s /\ calls (group_add x s) = calls s /\
  invoked (group_add x s) = invoked s.
Proof.
  unfold group_add. destruct x; [destruct (group_isDisposed s) |]; simpl; auto.
Qed.

Lemma group_add_holds k (s : machine) :
  mem k (group (group_add (Some k) s)) = true \/
  mem k (disposed (group_add (Some k) s)) = true.
Proof.
  unfold group_add.
  destruct (group_isDisposed s); cbn [group disposed]; [right | left];
    apply mem_cons_same.
Qed.

Lemma group_add_group x y (s : machine) :
  mem y (group s) = true -> mem y (group (group_add x s)) = true.
Proof.
  intros H. unfold group_add.
  destruct x; [destruct (group_isDisposed s) |]; cbn [group]; auto.
  rewrite mem_cons, H. apply orb_true_r.
Qed.

Lemma group_add_disposed x y (s : machine) :
  mem y (disposed s) = true -> mem y (disposed (group_add x s)) = true.
Proof.
  intros H. unfold group_add.
  destruct x; [destruct (group_isDisposed s) |]; cbn [disposed]; auto.
  rewrite mem_cons, H. apply orb_true_r.
Qed.

Lemma group_add_in y k (s : machine) :
  mem y (group (group_add (Some k) s)) = true -> y = k \/ mem y (group s) = true.
Proof.
  unfold group_add. destruct (group_isDisposed s); cbn [group]; [now right |].
  rewrite mem_cons. intros H. apply orb_true_iff in H.
  destruct H as [H | H]; [left; now apply Nat.eqb_eq | now right].
Qed.

Ltac norm :=
  cbn [calls set_call set_calls set_isDone set_isAdded set_cancel
       run_action group_dispose isDone isAdded cancel group disposed invoked
       group_isDisposed made_by pc cb length] in *.

Ltac at_call H :=
  apply lookup_insert_call in H as [(-> & ->) | (? & H)]; norm.

Ltac unfinished_now :=
  unfold unfinished; norm;
  repeat match goal with
         | H : pc _ = _ |- _ => rewrite H
         | H : cb _ = _ |- _ => rewrite H
         end;
  first [ reflexivity
        | match goal with |- context [pc ?c] => destruct (pc c); reflexivity end ].

(** Two distinct calls cannot both be unfinished. *)
Ltac two_unfinished Hinv Hk H0 :=
  exfalso;
  match goal with Hne : _ <> _ |- _ => apply Hne end;
  apply (one_unfinished _ _ _ _ _ Hinv Hk H0); unfinished_now.

(** An orderly step keeps the chain. *)
Lemma step_chain_inv e (s s' : machine) :
  chain_inv s -> deferred e s = true -> linear e s = true ->
  step e s = Some s' -> chain_inv s'.
Proof.
  intros Hinv Hdef Hlin Hstep. apply step_inv in Hstep.
  pose proof Hinv as [F1 F2 F3 F4 F5 F6 F7 F8 F9 F10].
  destruct e as [p | k | k | k | k | k | k | k | k | k |].
  - (* Call *)
    destruct Hstep as (Hruns & ->).
    destruct (next_call_made_by s p Hinv Hruns Hlin) as (Hp & Hprev).
    assert (Hlook : forall k0 c0,
              (calls s ++ [mkCall p AtEntry NotScheduled]) !! k0 = Some c0 ->
              calls s !! k0 = Some c0 \/
              (k0 = length (calls s) /\ c0 = mkCall p AtEntry NotScheduled)).
    { intros k0 c0 H0. apply lookup_app_Some in H0 as [H0 | (Hge & H0)]; [now left |].
      right. destruct (k0 - length (calls s))%nat as [| m] eqn:Hm; [| now destruct m].
      inversion H0; subst c0. split; [lia | reflexivity]. }
    split; norm.
    + intros k0 c0 H0. apply Hlook in H0 as [H0 | (-> & ->)]; [eauto |]. exact Hp.
    + intros k0 c0 H0 Hlt. rewrite length_app in Hlt. simpl in Hlt.
      apply Hlook in H0 as [H0 | (-> & ->)]; [| lia].
      destruct (decide (S k0 < length (calls s))%nat) as [Holder | Hlast]; [eauto |].
      apply (Hprev k0 c0 H0). lia.
    + intros k0 c0 H0 Hpc. apply Hlook in H0 as [H0 | (-> & ->)]; [eauto | now left].
    + intros k0 c0 H0 Hcb. apply Hlook in H0 as [H0 | (-> & ->)]; [eauto | now left].
    + intros k0 c0 H0 Hpc. apply Hlook in H0 as [H0 | (-> & ->)]; [eauto |].
      destruct Hpc as [Hpc | [Hpc | [Hpc | Hpc]]]; discriminate Hpc.
    + intros k0 c0 H0 Hpc. apply Hlook in H0 as [H0 | (-> & ->)]; [eauto | discriminate].
    + intros k0 c0 H0 Hpc Hcb.
      apply Hlook in H0 as [H0 | (-> & ->)]; [eauto | discriminate].
    + intros k0 c0 H0 Hpc Hcb.
      apply Hlook in H0 as [H0 | (-> & ->)]; [eauto | discriminate].
    + intros k0 Hmem. destruct (F9 k0 Hmem) as (c & Hc & Hrest).
      exists c. split; [| exact Hrest].
      rewrite lookup_app_l; [exact Hc | now apply lookup_lt_Some in Hc].
    + intros k0 Hmem. destruct (F10 k0 Hmem) as (c & Hc & Hrest).
      exists c. split; [| exact Hrest].
      rewrite lookup_app_l; [exact Hc | now apply lookup_lt_Some in Hc].
  - (* ClearDone *)
    destruct Hstep as (p & b & Hk & ->). split; norm.
    + intros k0 c0 H0. at_call H0; eauto;
        try solve [ apply (F1 _ _ Hk) ].
    + intros k0 c0 H0 Hlt. rewrite length_insert in Hlt. at_call H0; eauto;
        try solve [  destruct (F2 _ _ Hk Hlt) as (Hpc & _) ; discriminate Hpc ].
    + intros k0 c0 H0 Hpc. at_call H0; eauto;
        try solve [ apply (F3 _ _ Hk) ; discriminate ].
    + intros k0 c0 H0 Hcb. at_call H0; eauto.
    + reflexivity.
    + intros k0 c0 H0 Hpc. at_call H0; eauto;
        try solve [ discriminate Hpc ].
    + intros k0 c0 H0 Hpc Hcb. at_call H0; eauto;
        try solve [ discriminate Hpc ].
    + intros k0 c0 H0 Hpc Hcb. at_call H0; eauto;
        try solve [ discriminate Hpc ].
    + intros k0 Hmem. destruct (F9 k0 Hmem) as (c & Hc & Hpc & Hcb).
      apply (lookup_insert_call_exists _ _ _ _ _ _ _ Hk Hc); [| auto].
      intros ->. rewrite Hk in Hc. inversion Hc; subst c. discriminate Hpc.
    + intros k0 Hmem. destruct (F10 k0 Hmem) as (c & Hc & Hcb).
      apply (lookup_insert_call_exists _ _ _ _ _ _ _ Hk Hc); [| auto].
      intros ->. rewrite Hk in Hc. inversion Hc; subst c. exact Hcb.
  - (* ClearAdded *)
    destruct Hstep as (p & b & Hk & ->). split; norm.
    + intros k0 c0 H0. at_call H0; eauto;
        try solve [ apply (F1 _ _ Hk) ].
    + intros k0 c0 H0 Hlt. rewrite length_insert in Hlt. at_call H0; eauto;
        try solve [  destruct (F2 _ _ Hk Hlt) as (Hpc & _) ; discriminate Hpc ].
    + intros k0 c0 H0 Hpc. at_call H0; eauto;
        try solve [ apply (F3 _ _ Hk) ; discriminate ].
    + intros k0 c0 H0 Hcb. at_call H0; eauto.
    + intros k0 c0 H0 Hpc. at_call H0; eauto;
        try solve [ apply (F5 _ _ Hk) ; now left ].
    + intros k0 c0 H0 Hpc. at_call H0; eauto;
        try solve [ discriminate Hpc ].
    + intros k0 c0 H0 Hpc Hcb. at_call H0; [discriminate Hpc |].
      destruct Hcb as [Hcb | Hcb]; two_unfinished Hinv Hk H0.
    + intros k0 c0 H0 Hpc Hcb. at_call H0; eauto;
        try solve [ discriminate Hpc ].
    + intros k0 Hmem. destruct (F9 k0 Hmem) as (c & Hc & Hpc & Hcb).
      apply (lookup_insert_call_exists _ _ _ _ _ _ _ Hk Hc); [| auto].
      intros ->. rewrite Hk in Hc. inversion Hc; subst c. discriminate Hpc.
    + intros k0 Hmem. destruct (F10 k0 Hmem) as (c & Hc & Hcb).
      apply (lookup_insert_call_exists _ _ _ _ _ _ _ Hk Hc); [| auto].
      intros ->. rewrite Hk in Hc. inversion Hc; subst c. exact Hcb.
  - (* Schedule *)
    destruct Hstep as (p & Hk & ->). split; norm.
    + intros k0 c0 H0. at_call H0; eauto;
        try solve [ apply (F1 _ _ Hk) ].
    + intros k0 c0 H0 Hlt. rewrite length_insert in Hlt. at_call H0; eauto;
        try solve [  destruct (F2 _ _ Hk Hlt) as (Hpc & _) ; discriminate Hpc ].
    + intros k0 c0 H0 Hpc. at_call H0; eauto.
    + intros k0 c0 H0 Hcb. at_call H0; eauto;
        try solve [ discriminate Hcb ].
    + intros k0 c0 H0 Hpc. at_call H0; eauto;
        try solve [ apply (F5 _ _ Hk) ; right ; now left ].
    + intros k0 c0 H0 Hpc. at_call H0; eauto;
        try solve [ discriminate Hpc ].
    + intros k0 c0 H0 Hpc Hcb. at_call H0; eauto;
        try solve [ discriminate Hpc ].
    + intros k0 c0 H0 Hpc Hcb. at_call H0; eauto;
        try solve [ discriminate Hpc ].
    + intros k0 Hmem. destruct (F9 k0 Hmem) as (c & Hc & Hpc & Hcb).
      apply (lookup_insert_call_exists _ _ _ _ _ _ _ Hk Hc); [| auto].
      intros ->. rewrite Hk in Hc. inversion Hc; subst c. discriminate Hpc.
    + intros k0 Hmem. destruct (F10 k0 Hmem) as (c & Hc & Hcb).
      apply (lookup_insert_call_exists _ _ _ _ _ _ _ Hk Hc); [| auto].
      intros ->. rewrite Hk in Hc. inversion Hc; subst c.
      destruct Hcb as [Hcb | Hcb]; discriminate Hcb.
  - (* Assign *)
    destruct Hstep as (p & b & Hk & ->). split; norm.
    + intros k0 c0 H0. at_call H0; eauto;
        try solve [ apply (F1 _ _ Hk) ].
    + intros k0 c0 H0 Hlt. rewrite length_insert in Hlt. at_call H0; eauto;
        try solve [  destruct (F2 _ _ Hk Hlt) as (Hpc & _) ; discriminate Hpc ].
    + intros k0 c0 H0 Hpc. at_call H0; eauto;
        try solve [ apply (F3 _ _ Hk) ; discriminate ].
    + intros k0 c0 H0 Hcb. at_call H0; eauto;
        try solve [  destruct (F4 _ _ Hk Hcb) as [H | [H | H]]; discriminate H ].
    + intros k0 c0 H0 Hpc. at_call H0; eauto;
        try solve [ apply (F5 _ _ Hk) ; right ; right ; now left ].
    + intros k0 c0 H0 Hpc. at_call H0; [reflexivity |]. two_unfinished Hinv Hk H0.
    + intros k0 c0 H0 Hpc Hcb. at_call H0; [discriminate Hpc |].
      destruct Hcb as [Hcb | Hcb]; two_unfinished Hinv Hk H0.
    + intros k0 c0 H0 Hpc Hcb. at_call H0; eauto;
        try solve [ discriminate Hpc ].
    + intros k0 Hmem. destruct (F9 k0 Hmem) as (c & Hc & Hpc & Hcb).
      apply (lookup_insert_call_exists _ _ _ _ _ _ _ Hk Hc); [| auto].
      intros ->. rewrite Hk in Hc. inversion Hc; subst c. discriminate Hpc.
    + intros k0 Hmem. destruct (F10 k0 Hmem) as (c & Hc & Hcb).
      apply (lookup_insert_call_exists _ _ _ _ _ _ _ Hk Hc); [| auto].
      intros ->. rewrite Hk in Hc. inversion Hc; subst c. exact Hcb.

  - (* Register *)
    destruct Hstep as (p & b & Hk & ->).
    assert (Hnot : isDone s = false) by (apply (F5 _ _ Hk); auto).
    assert (Hcan : cancel s = Some k) by (apply (F6 _ _ Hk); reflexivity).
    assert (Hb : b = Armed).
    { destruct (F3 _ _ Hk) as [Hb | Hb]; [discriminate | | exact Hb].
      simpl in Hb. destruct (F4 _ _ Hk Hb) as [H | [H | H]]; discriminate H. }
    rewrite Hnot, Hcan. subst b.
    destruct (group_add_frame (Some k) s) as (Gd & Ga & Gc & Gl & Gi).
    split; norm; rewrite ?Gd, ?Ga, ?Gc, ?Gl, ?Gi.
    + intros k0 c0 H0. at_call H0; eauto;
        try solve [ apply (F1 _ _ Hk) ].
    + intros k0 c0 H0 Hlt. rewrite length_insert in Hlt. at_call H0; eauto;
        try solve [ destruct (F2 _ _ Hk Hlt) as (Hpc & _); discriminate Hpc ].
    + intros k0 c0 H0 Hpc. at_call H0; eauto;
        try solve [ now contradiction Hpc ].
    + intros k0 c0 H0 Hcb. at_call H0; eauto;
        try solve [ discriminate Hcb ].
    + intros k0 c0 H0 Hpc. at_call H0; eauto;
        try solve [ destruct Hpc as [Hpc | [Hpc | [Hpc | Hpc]]]; discriminate Hpc ].
    + intros k0 c0 H0 Hpc. at_call H0; eauto;
        try solve [ discriminate Hpc ].
    + intros k0 c0 H0 Hpc Hcb. at_call H0; [auto |].
      destruct Hcb as [Hcb | Hcb]; two_unfinished Hinv Hk H0.
    + intros k0 c0 H0 Hpc Hcb. at_call H0; [apply group_add_holds |].
      two_unfinished Hinv Hk H0.
    + intros k0 Hmem. apply group_add_in in Hmem as [-> | Hmem].
      * exists (mkCall p Returned Armed). split; [| auto].
        apply list_lookup_insert_eq. now apply lookup_lt_Some in Hk.
      * destruct (F9 k0 Hmem) as (c & Hc & Hpc & Hcb).
        apply (lookup_insert_call_exists _ _ _ _ _ _ _ Hk Hc); [| auto].
        intros ->. rewrite Hk in Hc. inversion Hc; subst c. discriminate Hpc.
    + intros k0 Hmem. destruct (F10 k0 Hmem) as (c & Hc & Hcb).
      apply (lookup_insert_call_exists _ _ _ _ _ _ _ Hk Hc); [| auto].
      intros ->. rewrite Hk in Hc. inversion Hc; subst c. exact Hcb.
  - (* CbStart *)
    destruct Hstep as (p & a & Hk & _ & ->).
    assert (Ha : a = Returned).
    { simpl in Hdef. rewrite Hk in Hdef. now destruct a. }
    subst a. split; norm.
    + intros k0 c0 H0. at_call H0; eauto;
        try solve [ apply (F1 _ _ Hk) ].
    + intros k0 c0 H0 Hlt. rewrite length_insert in Hlt. at_call H0; eauto;
        try solve [ destruct (F2 _ _ Hk Hlt) as (_ & [Hcb | Hcb]); discriminate Hcb ].
    + intros k0 c0 H0 Hpc. at_call H0; eauto;
        try solve [ now contradiction Hpc ].
    + intros k0 c0 H0 Hcb. at_call H0; eauto;
        try solve [ discriminate Hcb ].
    + intros k0 c0 H0 Hpc. at_call H0; eauto;
        try solve [ destruct Hpc as [Hpc | [Hpc | [Hpc | Hpc]]]; discriminate Hpc ].
    + intros k0 c0 H0 Hpc. at_call H0; eauto;
        try solve [ discriminate Hpc ].
    + intros k0 c0 H0 Hpc Hcb. at_call H0; eauto;
        try solve [ apply (F7 _ _ Hk); auto ].
    + intros k0 c0 H0 Hpc Hcb. at_call H0; eauto;
        try solve [ discriminate Hcb ].
    + intros k0 Hmem. destruct (F9 k0 Hmem) as (c & Hc & Hpc & Hcb).
      apply (lookup_insert_call_exists _ _ _ _ _ _ _ Hk Hc); auto.
    + intros k0 Hmem. destruct (F10 k0 Hmem) as (c & Hc & Hcb).
      apply (lookup_insert_call_exists _ _ _ _ _ _ _ Hk Hc); [| auto].
      intros ->. rewrite Hk in Hc. inversion Hc; subst c.
      destruct Hcb as [Hcb | Hcb]; discriminate Hcb.

  - (* CbLock *)
    destruct Hstep as (p & a & Hk & ->).
    assert (Ha : a = Returned).
    { apply (started_call_returned s k _ Hinv Hk); discriminate. }
    subst a.
    destruct (F7 _ _ Hk eq_refl (or_intror eq_refl)) as (Hadded & Hcan).
    rewrite Hadded, Hcan. unfold group_remove. split; norm.
    + intros k0 c0 H0. at_call H0; eauto;
        try solve [ apply (F1 _ _ Hk) ].
    + intros k0 c0 H0 Hlt. rewrite length_insert in Hlt. at_call H0; eauto;
        try solve [ destruct (F2 _ _ Hk Hlt) as (_ & [Hcb | Hcb]); discriminate Hcb ].
    + intros k0 c0 H0 Hpc. at_call H0; eauto;
        try solve [ now contradiction Hpc ].
    + intros k0 c0 H0 Hcb. at_call H0; eauto;
        try solve [ discriminate Hcb ].
    + intros k0 c0 H0 Hpc. at_call H0; eauto;
        try solve [ destruct Hpc as [Hpc | [Hpc | [Hpc | Hpc]]]; discriminate Hpc ].
    + intros k0 c0 H0 Hpc. at_call H0; eauto;
        try solve [ discriminate Hpc ].
    + intros k0 c0 H0 Hpc Hcb. at_call H0; eauto;
        try solve [ destruct Hcb as [Hcb | Hcb]; discriminate Hcb ].
    + intros k0 c0 H0 Hpc Hcb. at_call H0; [discriminate Hcb |].
      two_unfinished Hinv Hk H0.
    + intros k0 Hmem. apply mem_removed in Hmem as (Hmem & Hne).
      destruct (F9 k0 Hmem) as (c & Hc & Hpc & Hcb).
      destruct Hcb as [Hcb | Hcb]; two_unfinished Hinv Hk Hc.
    + intros k0 Hmem. destruct (F10 k0 Hmem) as (c & Hc & Hcb).
      apply (lookup_insert_call_exists _ _ _ _ _ _ _ Hk Hc); [| auto].
      intros ->. rewrite Hk in Hc. inversion Hc; subst c.
      destruct Hcb as [Hcb | Hcb]; discriminate Hcb.
  - (* CbRun *)
    destruct Hstep as (p & a & Hk & ->).
    assert (Ha : a = Returned).
    { apply (started_call_returned s k _ Hinv Hk); discriminate. }
    subst a. split; norm.
    + intros k0 c0 H0. at_call H0; eauto;
        try solve [ apply (F1 _ _ Hk) ].
    + intros k0 c0 H0 Hlt. rewrite length_insert in Hlt. at_call H0; eauto.
    + intros k0 c0 H0 Hpc. at_call H0; eauto;
        try solve [ now contradiction Hpc ].
    + intros k0 c0 H0 Hcb. at_call H0; eauto;
        try solve [ discriminate Hcb ].
    + intros k0 c0 H0 Hpc. at_call H0; eauto;
        try solve [ destruct Hpc as [Hpc | [Hpc | [Hpc | Hpc]]]; discriminate Hpc ].
    + intros k0 c0 H0 Hpc. at_call H0; eauto;
        try solve [ discriminate Hpc ].
    + intros k0 c0 H0 Hpc Hcb. at_call H0; eauto;
        try solve [ destruct Hcb as [Hcb | Hcb]; discriminate Hcb ].
    + intros k0 c0 H0 Hpc Hcb. at_call H0; eauto;
        try solve [ discriminate Hcb ].
    + intros k0 Hmem. destruct (F9 k0 Hmem) as (c & Hc & Hpc & Hcb).
      apply (lookup_insert_call_exists _ _ _ _ _ _ _ Hk Hc); [| auto].
      intros ->. rewrite Hk in Hc. inversion Hc; subst c.
      destruct Hcb as [Hcb | Hcb]; discriminate Hcb.
    + intros k0 Hmem. apply mem_snoc in Hmem as [Hmem | ->].
      * destruct (F10 k0 Hmem) as (c & Hc & Hcb).
        apply (lookup_insert_call_exists _ _ _ _ _ _ _ Hk Hc); auto.
      * exists (mkCall p Returned Running). split; [| auto].
        apply list_lookup_insert_eq. now apply lookup_lt_Some in Hk.
  - (* CbReturn *)
    destruct Hstep as (p & a & Hk & ->).
    assert (Ha : a = Returned).
    { apply (started_call_returned s k _ Hinv Hk); discriminate. }
    subst a. split; norm.
    + intros k0 c0 H0. at_call H0; eauto;
        try solve [ apply (F1 _ _ Hk) ].
    + intros k0 c0 H0 Hlt. rewrite length_insert in Hlt. at_call H0; eauto.
    + intros k0 c0 H0 Hpc. at_call H0; eauto;
        try solve [ now contradiction Hpc ].
    + intros k0 c0 H0 Hcb. at_call H0; eauto;
        try solve [ discriminate Hcb ].
    + intros k0 c0 H0 Hpc. at_call H0; eauto;
        try solve [ destruct Hpc as [Hpc | [Hpc | [Hpc | Hpc]]]; discriminate Hpc ].
    + intros k0 c0 H0 Hpc. at_call H0; eauto;
        try solve [ discriminate Hpc ].
    + intros k0 c0 H0 Hpc Hcb. at_call H0; eauto;
        try solve [ destruct Hcb as [Hcb | Hcb]; discriminate Hcb ].
    + intros k0 c0 H0 Hpc Hcb. at_call H0; eauto;
        try solve [ discriminate Hcb ].
    + intros k0 Hmem. destruct (F9 k0 Hmem) as (c & Hc & Hpc & Hcb).
      apply (lookup_insert_call_exists _ _ _ _ _ _ _ Hk Hc); [| auto].
      intros ->. rewrite Hk in Hc. inversion Hc; subst c.
      destruct Hcb as [Hcb | Hcb]; discriminate Hcb.
    + intros k0 Hmem. destruct (F10 k0 Hmem) as (c & Hc & Hcb).
      apply (lookup_insert_call_exists _ _ _ _ _ _ _ Hk Hc); auto.
  - (* DisposeGroup *)
    subst s'. split; norm; try assumption.
    + intros k0 c0 H0 Hpc Hcb. right. rewrite mem_app.
      destruct (F8 _ _ H0 Hpc Hcb) as [-> | ->]; auto using orb_true_r.
    + intros k0 Hmem. discriminate Hmem.
Qed.

Lemma orderly_chain_inv es : forall (s s' : machine),
  chain_inv s -> orderly es s = true -> run es s = Some s' -> chain_inv s'.
Proof.
  induction es as [| e es IH]; intros s s' Hinv Hord Hrun; simpl in *.
  - now inversion Hrun; subst.
  - destruct (step e s) as [s1 |] eqn:Hstep; [| discriminate Hrun].
    apply andb_true_iff in Hord as (Hguard & Hord).
    apply andb_true_iff in Hguard as (Hdef & Hlin).
    eapply IH; [eapply step_chain_inv; eassumption | exact Hord | exact Hrun].
Qed.

(** Once the token of a waiting callback is disposed, no event starts
    the callback, whatever the run. *)
Lemma step_cancelled k e (s s' : machine) :
  cancelled k s -> step e s = Some s' -> cancelled k s'.
Proof.
  intros (Hmem & (c & Hc & Hcb) & Hlog) Hstep. apply step_inv in Hstep.
  unfold cancelled.
  assert (Hkeep : forall k1 c1 c1' (l := calls s),
            l !! k1 = Some c1 -> cb c1' = cb c1 ->
            exists c2, <[k1 := c1']> l !! k = Some c2 /\ cb c2 = Armed).
  { intros k1 c1 c1' l H1 Hsame.
    apply (lookup_insert_call_exists l k1 c1 c1' k c (fun x => cb x = Armed) H1 Hc);
      [| auto].
    intros ->. unfold l in H1. rewrite Hc in H1. inversion H1; subst c1. congruence. }
  assert (Hother : forall k1 c1 c1' (l := calls s),
            l !! k1 = Some c1 -> cb c1 <> Armed ->
            exists c2, <[k1 := c1']> l !! k = Some c2 /\ cb c2 = Armed).
  { intros k1 c1 c1' l H1 Hdiff.
    apply (lookup_insert_call_exists l k1 c1 c1' k c (fun x => cb x = Armed) H1 Hc);
      [| auto].
    intros ->. unfold l in H1. rewrite Hc in H1. inversion H1; subst c1.
    now contradiction Hdiff. }
  destruct e as [p | k1 | k1 | k1 | k1 | k1 | k1 | k1 | k1 | k1 |].
  - destruct Hstep as (_ & ->). norm. repeat split; try assumption.
    exists c. split; [| exact Hcb].
    rewrite lookup_app_l; [exact Hc | now apply lookup_lt_Some in Hc].
  - destruct Hstep as (p & b & H1 & ->). norm. repeat split; try assumption.
    now apply (Hkeep k1 _ _ H1).
  - destruct Hstep as (p & b & H1 & ->). norm. repeat split; try assumption.
    now apply (Hkeep k1 _ _ H1).
  - destruct Hstep as (p & H1 & ->). norm. repeat split; try assumption.
    apply (Hother k1 _ _ H1). discriminate.
  - destruct Hstep as (p & b & H1 & ->). norm. repeat split; try assumption.
    now apply (Hkeep k1 _ _ H1).
  - destruct Hstep as (p & b & H1 & ->).
    destruct (group_add_frame (cancel s) s) as (Gd & Ga & Gc & Gl & Gi).
    destruct (isDone s); norm; rewrite ?Gl, ?Gi; repeat split; try assumption;
      try (now apply (Hkeep k1 _ _ H1)).
    now apply group_add_disposed.
  - destruct Hstep as (p & a & H1 & Hmay & ->).
    destruct (decide (k1 = k)) as [-> | Hne].
    + unfold scheduler_may_start in Hmay. rewrite Hmem in Hmay. discriminate Hmay.
    + norm. repeat split; try assumption.
      exists c. split; [| exact Hcb].
      rewrite list_lookup_insert_ne by exact Hne. exact Hc.
  - destruct Hstep as (p & a & H1 & ->).
    assert (Hcalls : exists c2, <[k1 := mkCall p a Locked]> (calls s) !! k = Some c2 /\
                                cb c2 = Armed)
      by (apply (Hother k1 _ _ H1); discriminate).
    unfold group_remove. destruct (isAdded s), (cancel s); norm;
      repeat split; assumption.
  - destruct Hstep as (p & a & H1 & ->). norm. repeat split; try assumption.
    + apply (Hother k1 _ _ H1). discriminate.
    + rewrite mem_app, Hlog. simpl. rewrite orb_false_r.
      apply Nat.eqb_neq. intros ->. rewrite Hc in H1. inversion H1; subst c.
      discriminate Hcb.
  - destruct Hstep as (p & a & H1 & ->). norm. repeat split; try assumption.
    apply (Hother k1 _ _ H1). discriminate.
  - subst s'. norm. repeat split; try assumption.
    + rewrite mem_app, Hmem. apply orb_true_r.
    + exists c. auto.
Qed.

Lemma run_cancelled k es : forall (s s' : machine),
  cancelled k s -> run es s = Some s' -> cancelled k s'.
Proof.
  induction es as [| e es IH]; intros s s' Hc Hrun; simpl in Hrun.
  - now inversion Hrun; subst.
  - destruct (step e s) as [s1 |] eqn:Hstep; [| discriminate].
    eapply IH; [eapply step_cancelled; eassumption | exact Hrun].
Qed.

(** In an orderly run the token of a call that has returned and whose
    callback is waiting is in the group, so that disposing the group
    disposes it. *)
Lemma dispose_while_armed k c (s : machine) :
  chain_inv s -> calls s !! k = Some c -> pc c = Returned -> cb c = Armed ->
  cancelled k (group_dispose s).
Proof.
  intros Hinv Hk Hpc Hcb. unfold cancelled. norm. repeat split.
  - rewrite mem_app. destruct (ci_pending s Hinv k c Hk Hpc Hcb) as [-> | ->];
      auto using orb_true_r.
  - exists c. auto.
  - destruct (mem k (invoked s)) eqn:Hlog; [| reflexivity].
    destruct (ci_log s Hinv k Hlog) as (c1 & Hc1 & Hcb1).
    rewrite Hk in Hc1. inversion Hc1; subst c1.
    destruct Hcb1 as [H | H]; rewrite Hcb in H; discriminate H.
Qed.

(** The two flags exclude each other after every event of every run. *)
Lemma step_flags e (s s' : machine) :
  isDone s && isAdded s = false -> step e s = Some s' ->
  isDone s' && isAdded s' = false.
Proof.
  intros Hflags Hstep. apply step_inv in Hstep.
  destruct e as [p | k | k | k | k | k | k | k | k | k |].
  - destruct Hstep as (_ & ->). exact Hflags.
  - destruct Hstep as (p & b & _ & ->). reflexivity.
  - destruct Hstep as (p & b & _ & ->). norm. apply andb_false_r.
  - destruct Hstep as (p & _ & ->). exact Hflags.
  - destruct Hstep as (p & b & _ & ->). exact Hflags.
  - destruct Hstep as (p & b & _ & ->).
    destruct (group_add_frame (cancel s) s) as (Gd & Ga & Gc & Gl & Gi).
    case_eq (isDone s); intros Hd; norm; [exact Hflags |].
    rewrite Gd, Hd. reflexivity.
  - destruct Hstep as (p & a & _ & _ & ->). exact Hflags.
  - destruct Hstep as (p & a & _ & ->).
    unfold group_remove. case_eq (isAdded s); intros Ha.
    + destruct (cancel s); norm;
        first [exact Hflags | rewrite Ha in Hflags; exact Hflags].
    + norm. rewrite Ha. reflexivity.
  - destruct Hstep as (p & a & _ & ->). exact Hflags.
  - destruct Hstep as (p & a & _ & ->). exact Hflags.
  - subst s'. exact Hflags.
Qed.

Lemma run_flags es : forall (s s' : machine),
  isDone s && isAdded s = false -> run es s = Some s' ->
  isDone s' && isAdded s' = false.
Proof.
  induction es as [| e es IH]; intros s s' Hflags Hrun; simpl in Hrun.
  - now inversion Hrun; subst.
  - destruct (step e s) as [s1 |] eqn:Hstep; [| discriminate].
    eapply IH; [eapply step_flags; eassumption | exact Hrun].
Qed.
End RecursiveFacts.

(** C8 as stated fails.  The callback of step 0 begins before its token
    is registered: its block under the lock sets [isDone], so
    [actionCallback] registers nothing and returns; the group is disposed
    before the action of the step has been invoked; then the callback
    goes on to [self.run(state)] and the step invokes its action. *)
Lemma C8_dispose_after_callback_began_counterexample :
  ~ (forall (pre post : list RecursiveScheduledFunction.event)
            (s1 s2 : RecursiveScheduledFunction.t) (k : nat)
            (c : RecursiveScheduledFunction.call),
       RecursiveScheduledFunction.run pre RecursiveScheduledFunction.init = Some s1 ->
       RecursiveScheduledFunction.calls s1 !! k = Some c ->
       RecursiveScheduledFunction.pc c = RecursiveScheduledFunction.Returned ->
       RecursiveScheduledFunction.mem k (RecursiveScheduledFunction.invoked s1) = false ->
       RecursiveScheduledFunction.run
         (RecursiveScheduledFunction.DisposeGroup :: post) s1 = Some s2 ->
       RecursiveScheduledFunction.mem k (RecursiveScheduledFunction.invoked s2) = false).
Proof.
  intros claim.
  assert (H : RecursiveScheduledFunction.mem 0
                (RecursiveScheduledFunction.invoked
                   (RecursiveScheduledFunction.mk true false (Some 0%nat) [] true []
                      [RecursiveScheduledFunction.mkCall None
                         RecursiveScheduledFunction.Returned
                         RecursiveScheduledFunction.Running]
                      [0%nat]))
              = false).
  { apply (claim callback_first [RecursiveScheduledFunction.CbRun 0%nat]
             (RecursiveScheduledFunction.mk true false (Some 0%nat) [] false []
                [RecursiveScheduledFunction.mkCall None
                   RecursiveScheduledFunction.Returned
                   RecursiveScheduledFunction.Locked]
                [])
             _ 0%nat
             (RecursiveScheduledFunction.mkCall None RecursiveScheduledFunction.Returned
                RecursiveScheduledFunction.Locked));
      reflexivity. }
  discriminate H.
Qed.

(** The same happens when the token was registered first, once the
    callback has passed its block under the lock. *)
Lemma dispose_after_registered_callback_began :
  option_map RecursiveScheduledFunction.invoked
    (RecursiveScheduledFunction.run
       (RecursiveScheduledFunction.Call None :: one_call 0 ++
        [RecursiveScheduledFunction.CbStart 0; RecursiveScheduledFunction.CbLock 0;
         RecursiveScheduledFunction.DisposeGroup; RecursiveScheduledFunction.CbRun 0])
       RecursiveScheduledFunction.init)
  = Some [0%nat].
Proof. reflexivity. Qed.

(** Outside orderly runs the attributes of the coordinator, which all
    calls share, can be overwritten.  In [late_assignment] call 1 has
    returned and its callback is waiting, but the token in the group is
    that of step 0; disposing the group then leaves token 1 alone, and
    step 1 invokes its action. *)
Lemma late_assignment_registers_the_wrong_token :
  option_map (fun s => (RecursiveScheduledFunction.group s,
                        RecursiveScheduledFunction.calls s !! 1%nat))
    (RecursiveScheduledFunction.run late_assignment RecursiveScheduledFunction.init)
  = Some ([0%nat],
          Some (RecursiveScheduledFunction.mkCall (Some 0%nat)
                  RecursiveScheduledFunction.Returned RecursiveScheduledFunction.Armed)) /\
  option_map RecursiveScheduledFunction.invoked
    (RecursiveScheduledFunction.run
       (late_assignment ++
        [RecursiveScheduledFunction.DisposeGroup;
         RecursiveScheduledFunction.CbStart 1; RecursiveScheduledFunction.CbLock 1;
         RecursiveScheduledFunction.CbRun 1])
       RecursiveScheduledFunction.init)
  = Some [0%nat; 1%nat].
Proof. split; reflexivity. Qed.

(** C8, amended.  In a chain in which every action calls the continuation
    once at most and the scheduler starts a callback only after the call
    that scheduled it has returned: if the group is disposed after a call
    of [actionCallback] has returned and before the scheduler starts the
    callback of the step it asked for, then, whatever happens afterwards,
    the callback is never started and the step never invokes its action;
    its token had been registered and is disposed. *)
Theorem C8_dispose_before_callback_starts :
  forall (pre post : list RecursiveScheduledFunction.event)
         (s1 s2 : RecursiveScheduledFunction.t) (k : nat)
         (c : RecursiveScheduledFunction.call),
    RecursiveScheduledFunction.run pre RecursiveScheduledFunction.init = Some s1 ->
    RecursiveScheduledFunction.orderly pre RecursiveScheduledFunction.init = true ->
    RecursiveScheduledFunction.calls s1 !! k = Some c ->
    RecursiveScheduledFunction.pc c = RecursiveScheduledFunction.Returned ->
    RecursiveScheduledFunction.cb c = RecursiveScheduledFunction.Armed ->
    RecursiveScheduledFunction.run
      (RecursiveScheduledFunction.DisposeGroup :: post) s1 = Some s2 ->
    RecursiveScheduledFunction.mem k (RecursiveScheduledFunction.invoked s2) = false /\
    (exists c2, RecursiveScheduledFunction.calls s2 !! k = Some c2 /\
                RecursiveScheduledFunction.cb c2 = RecursiveScheduledFunction.Armed) /\
    RecursiveScheduledFunction.mem k (RecursiveScheduledFunction.disposed s2) = true.
Proof.
  intros pre post s1 s2 k c Hpre Hord Hk Hpc Hcb Hpost.
  assert (Hinv : RecursiveScheduledFunction.chain_inv s1)
    by (eapply orderly_chain_inv; [apply init_chain_inv | exact Hord | exact Hpre]).
  simpl in Hpost.
  destruct (run_cancelled k post (RecursiveScheduledFunction.group_dispose s1) s2
              (dispose_while_armed k c s1 Hinv Hk Hpc Hcb) Hpost)
    as (Hmem & Hwait & Hlog).
  auto.
Qed.

Lemma C8_dispose_before_callback_starts_witness :
  RecursiveScheduledFunction.mem 1
    (RecursiveScheduledFunction.invoked
       (RecursiveScheduledFunction.mk false true (Some 1%nat) [] true [1%nat]
          [RecursiveScheduledFunction.mkCall None RecursiveScheduledFunction.Returned
             RecursiveScheduledFunction.Ended;
           RecursiveScheduledFunction.mkCall (Some 0%nat)
             RecursiveScheduledFunction.Returned RecursiveScheduledFunction.Armed]
          [0%nat]))
  = false /\
  (exists c2,
     RecursiveScheduledFunction.calls
       (RecursiveScheduledFunction.mk false true (Some 1%nat) [] true [1%nat]
          [RecursiveScheduledFunction.mkCall None RecursiveScheduledFunction.Returned
             RecursiveScheduledFunction.Ended;
           RecursiveScheduledFunction.mkCall (Some 0%nat)
             RecursiveScheduledFunction.Returned RecursiveScheduledFunction.Armed]
          [0%nat]) !! 1%nat = Some c2 /\
     RecursiveScheduledFunction.cb c2 = RecursiveScheduledFunction.Armed) /\
  RecursiveScheduledFunction.mem 1
    (RecursiveScheduledFunction.disposed
       (RecursiveScheduledFunction.mk false true (Some 1%nat) [] true [1%nat]
          [RecursiveScheduledFunction.mkCall None RecursiveScheduledFunction.Returned
             RecursiveScheduledFunction.Ended;
           RecursiveScheduledFunction.mkCall (Some 0%nat)
             RecursiveScheduledFunction.Returned RecursiveScheduledFunction.Armed]
          [0%nat]))
  = true.
Proof.
  apply (C8_dispose_before_callback_starts two_steps
           [RecursiveScheduledFunction.CbReturn 0%nat]
           (RecursiveScheduledFunction.mk false true (Some 1%nat) [1%nat] false []
              [RecursiveScheduledFunction.mkCall None RecursiveScheduledFunction.Returned
                 RecursiveScheduledFunction.Running;
               RecursiveScheduledFunction.mkCall (Some 0%nat)
                 RecursiveScheduledFunction.Returned RecursiveScheduledFunction.Armed]
              [0%nat])
           _ 1%nat
           (RecursiveScheduledFunction.mkCall (Some 0%nat)
              RecursiveScheduledFunction.Returned RecursiveScheduledFunction.Armed)).
  - reflexivity.
  - reflexivity.
  - reflexivity.
  - reflexivity.
  - reflexivity.
  - reflexivity.
Defined.

(** * Further properties *)

(** ** VirtualTimeScheduler: getNext, start, stop *)

Section VirtualTimeMore.
Import VirtualTimeScheduler.
Context {Abs Rel St : Type}.
Variable comparer : Abs -> Abs -> Z.
Variable add : Abs -> Rel -> Abs.
Variable toRelative : Rel -> Rel.
Variable toDateTimeOffset : Abs -> outcome Abs.
Variable sub : Abs -> Abs -> Rel.

Local Abbreviation sched := (@VirtualTimeScheduler.t Abs Rel St).
Local Abbreviation item := (@VirtualTimeScheduler.ScheduledItem Abs Rel St).
Local Abbreviation start := (start comparer add toRelative toDateTimeOffset sub).
Local Abbreviation start_loop := (start_loop comparer add toRelative toDateTimeOffset sub).
Local Abbreviation exec := (exec comparer add toRelative toDateTimeOffset sub).
Local Abbreviation perform := (perform comparer add toRelative toDateTimeOffset sub).
Local Abbreviation advanceTo := (advanceTo comparer add toRelative toDateTimeOffset sub).
Local Abbreviation not_earlier := (not_earlier comparer).
Local Abbreviation cancelled_item := (@VirtualTimeItems.cancelled_item Abs Rel St).

Lemma getNext_loop_skips (pre : list item) : forall n si rest,
  Forall cancelled_item pre -> isCancelled si = false ->
  (length pre < n)%nat ->
  getNext_loop n (pre ++ si :: rest) = (rest, Normal (Some si)).
Proof.
  induction pre as [| x pre IH]; intros n si rest Hpre Hsi Hn.
  - destruct n as [| n]; [inversion Hn |]. simpl. now rewrite Hsi.
  - destruct n as [| n]; [inversion Hn |]. simpl in *.
    inversion Hpre as [| ? ? Hx Hpre']; subst. rewrite Hx.
    apply IH; [assumption | assumption | lia].
Qed.

Lemma getNext_loop_all_cancelled (q : list item) : forall n,
  Forall cancelled_item q -> (length q < n)%nat ->
  getNext_loop n q = ([], Raised QueueEmpty).
Proof.
  induction q as [| x q IH]; intros n Hq Hn.
  - destruct n as [| n]; [inversion Hn |]. reflexivity.
  - destruct n as [| n]; [inversion Hn |]. simpl in *.
    inversion Hq as [| ? ? Hx Hq']; subst. rewrite Hx.
    apply IH; [assumption | lia].
Qed.

Lemma getNext_first_live (s : sched) pre si rest :
  queue s = pre ++ si :: rest ->
  Forall cancelled_item pre -> isCancelled si = false ->
  getNext s = (set_queue rest s, Normal (Some si)).
Proof.
  intros Hq Hpre Hsi. unfold getNext. rewrite Hq.
  rewrite (getNext_loop_skips pre (S (length (pre ++ si :: rest))) si rest Hpre Hsi).
  - reflexivity.
  - rewrite length_app. simpl. lia.
Qed.

Lemma getNext_none_live (s : sched) :
  Forall cancelled_item (queue s) ->
  getNext s = (set_queue [] s, Raised QueueEmpty).
Proof.
  intros Hq. unfold getNext.
  rewrite (getNext_loop_all_cancelled (queue s) (S (length (queue s))) Hq); [reflexivity | lia].
Qed.

(** X1: [getNext] hands out the first item of the queue that is not
    cancelled and removes it together with the cancelled items before it;
    when every queued item is cancelled (or there is none) it empties the
    queue and ends in [queue.Empty]. *)
Theorem X1_getNext_skips_cancelled_items :
  forall (s : sched),
    (forall pre si rest,
       queue s = pre ++ si :: rest ->
       Forall (fun x => isCancelled x = true) pre ->
       isCancelled si = false ->
       getNext s = (set_queue rest s, Normal (Some si))) /\
    (Forall (fun x => isCancelled x = true) (queue s) ->
     getNext s = (set_queue [] s, Raised QueueEmpty)).
Proof.
  intros s. split.
  - intros pre si rest. apply getNext_first_live.
  - apply getNext_none_live.
Qed.

(** The queue holds a first live item, or cancelled items only. *)
Lemma queue_first_live (q : list item) :
  (exists pre si rest,
     q = pre ++ si :: rest /\ Forall cancelled_item pre /\ isCancelled si = false) \/
  Forall cancelled_item q.
Proof.
  induction q as [| x q IH].
  - right. constructor.
  - destruct (isCancelled x) eqn:Hx.
    + destruct IH as [(pre & si & rest & Hq & Hpre & Hsi) | Hall].
      * left. exists (x :: pre), si, rest. subst q.
        split; [reflexivity | split; [constructor; assumption | assumption]].
      * right. constructor; assumption.
    + left. exists [], x, q. split; [reflexivity | split; [constructor | assumption]].
Qed.

(** The scheduler as the action of an item finds it: the item taken from
    the queue together with the cancelled items before it, the clock
    advanced, the invocation logged, [isEnabled] set. *)
Lemma invoked_state (s : sched) si rest :
  log_invocation si
    (advance_clock comparer si (set_queue rest (set_isEnabled true s)))
  = mk (clock (advance_clock comparer si s)) true rest
       (invoked s ++ [(state si, clock (advance_clock comparer si s))]).
Proof.
  destruct s as [c e q log]. unfold advance_clock. simpl.
  destruct (0 <? comparer (dueTime si) c); reflexivity.
Qed.

(** [start] on a queue of cancelled items. *)
Lemma start_none_live fuel until (s : sched) :
  isEnabled s = false ->
  Forall cancelled_item (queue s) ->
  start (S fuel) until s = (mk (clock s) true [] (invoked s), Raised QueueEmpty).
Proof.
  intros Hen Hq. unfold VirtualTimeScheduler.start, start_with. rewrite Hen.
  simpl. rewrite (getNext_none_live (set_isEnabled true s)) by exact Hq.
  reflexivity.
Qed.

(** [start] when the first live item is in time. *)
Lemma start_first_live fuel until (s : sched) pre si rest :
  isEnabled s = false ->
  queue s = pre ++ si :: rest ->
  Forall cancelled_item pre ->
  isCancelled si = false ->
  nextIsTooLate comparer until (Some si) = Normal false ->
  start (S fuel) until s =
    match exec fuel (item_action si)
            (mk (clock (advance_clock comparer si s)) true rest
               (invoked s ++ [(state si, clock (advance_clock comparer si s))])) with
    | (s2, Normal _) =>
        (s2, Raised (TypeError "self.disposable.disposable is not callable"))
    | (s2, Raised e) => (s2, Raised e)
    | (s2, Diverged) => (s2, Diverged)
    end.
Proof.
  intros Hen Hq Hpre Hsi Hlate.
  unfold VirtualTimeScheduler.start, start_with. rewrite Hen.
  rewrite (start_loop_turn comparer add toRelative toDateTimeOffset sub fuel until
             (set_isEnabled true s) (set_queue rest (set_isEnabled true s)) si
             eq_refl (getNext_first_live (set_isEnabled true s) pre si rest Hq Hpre Hsi)
             Hlate).
  rewrite invoked_state. reflexivity.
Qed.

(** [start(until)] when the first live item is due after [until]. *)
Lemma start_first_live_too_late fuel until (s : sched) pre si rest :
  isEnabled s = false ->
  queue s = pre ++ si :: rest ->
  Forall cancelled_item pre ->
  isCancelled si = false ->
  0 < comparer (dueTime si) until ->
  start (2 + fuel) (Some until) s = (mk (clock s) false rest (invoked s), Normal tt).
Proof.
  intros Hen Hq Hpre Hsi Hlate.
  unfold VirtualTimeScheduler.start, start_with. rewrite Hen.
  change (2 + fuel)%nat with (S (S fuel)).
  cbn [VirtualTimeScheduler.start_loop]. cbn [isEnabled set_isEnabled].
  rewrite (getNext_first_live (set_isEnabled true s) pre si rest Hq Hpre Hsi).
  cbn [nextIsTooLate]. apply Z.ltb_lt in Hlate. rewrite Hlate.
  destruct s as [c e q log]. reflexivity.
Qed.


(** A [start(None)] over items that only return leaves [isEnabled] set,
    however it ends. *)
Lemma start_returning_stays_enabled fuel (s : sched) :
  isEnabled s = false ->
  Forall (fun si => item_action si = aReturn) (queue s) ->
  isEnabled (fst (start fuel None s)) = true.
Proof.
  intros Hen Hact. destruct fuel as [| n].
  - unfold VirtualTimeScheduler.start, start_with. rewrite Hen. reflexivity.
  - destruct (queue_first_live (queue s)) as [(pre & si & rest & Hq & Hpre & Hsi) | Hall].
    + rewrite (start_first_live n None s pre si rest Hen Hq Hpre Hsi eq_refl).
      assert (Hret : item_action si = aReturn).
      { rewrite List.Forall_forall in Hact. apply Hact. rewrite Hq.
        apply List.in_or_app. right. left. reflexivity. }
      rewrite Hret. destruct n as [| n]; reflexivity.
    + rewrite (start_none_live n None s Hen Hall). reflexivity.
Qed.

(** X3: after a [start(None)] over items that only return, which ends in
    an exception, the scheduler stays enabled, so every later [start],
    and every [advanceTo] to a later time, returns at once and invokes
    nothing, whatever has been put into the queue since. *)
Theorem X3_no_second_start_after_a_drain :
  forall (fuel : nat) (s : sched),
    isEnabled s = false ->
    Forall (fun si => item_action si = aReturn) (queue s) ->
    (length (queue s) < fuel)%nat ->
    forall (q' : list item) (fuel' : nat),
      (forall until,
         start fuel' until (set_queue q' (fst (start fuel None s)))
         = (set_queue q' (fst (start fuel None s)), Normal tt)) /\
      (forall time,
         0 < comparer time (clock (fst (start fuel None s))) ->
         advanceTo fuel' time (set_queue q' (fst (start fuel None s)))
         = (set_queue q' (fst (start fuel None s)), Normal tt)).
Proof.
  intros fuel s Hen Hact _ q' fuel'.
  pose proof (start_returning_stays_enabled fuel s Hen Hact) as Hstill.
  destruct (fst (start fuel None s)) as [c' e' q1 log']. simpl in Hstill. subst e'.
  split.
  - intros u. reflexivity.
  - intros time Hlater. unfold VirtualTimeScheduler.advanceTo, advanceTo_with. simpl in *.
    destruct (comparer time c' <? 0) eqn:E1; [apply Z.ltb_lt in E1; lia |].
    destruct (comparer time c' =? 0) eqn:E2; [apply Z.eqb_eq in E2; lia |].
    reflexivity.
Qed.

(** X4: [start(until)] takes an item out of the queue before it looks at
    its due time.  On a scheduler that is not enabled it returns normally
    exactly when the first live item is due later than [until]: that item
    is neither invoked nor put back, the items behind it stay queued, the
    clock and the log are as before and [isEnabled] is cleared. *)
Theorem X4_start_with_a_limit_drops_the_first_item_that_is_too_late :
  forall (fuel : nat) (until : Abs) (s : sched),
    isEnabled s = false ->
    (forall pre si rest,
       queue s = pre ++ si :: rest ->
       Forall (fun x => isCancelled x = true) pre ->
       isCancelled si = false ->
       0 < comparer (dueTime si) until ->
       start (2 + fuel) (Some until) s
       = (mk (clock s) false rest (invoked s), Normal tt)) /\
    (snd (start (2 + fuel) (Some until) s) = Normal tt ->
     exists pre si rest,
       queue s = pre ++ si :: rest /\
       Forall (fun x => isCancelled x = true) pre /\
       isCancelled si = false /\
       0 < comparer (dueTime si) until).
Proof.
  intros fuel u s Hen. split.
  - intros pre si rest. now apply start_first_live_too_late.
  - intros Hret.
    destruct (queue_first_live (queue s)) as [(pre & si & rest & Hq & Hpre & Hsi) | Hall].
    + exists pre, si, rest. repeat (split; [assumption |]).
      destruct (0 <? comparer (dueTime si) u) eqn:E; [now apply Z.ltb_lt in E |].
      exfalso. change (2 + fuel)%nat with (S (S fuel)) in Hret.
      rewrite (start_first_live (S fuel) (Some u) s pre si rest Hen Hq Hpre Hsi) in Hret
        by (simpl; now rewrite E).
      destruct (exec (S fuel) (item_action si) _) as [s2 [v | e |]];
        discriminate Hret.
    + exfalso. change (2 + fuel)%nat with (S (S fuel)) in Hret.
      rewrite (start_none_live (S fuel) (Some u) s Hen Hall) in Hret.
      discriminate Hret.
Qed.


(** No scheduling call reaches the queue, so an empty queue stays empty
    and nothing is invoked, whatever the calls. *)
Lemma empty_queue_kept : forall fuel,
  (forall until (s : sched), queue s = [] ->
     queue (fst (start_loop fuel until s)) = [] /\
     invoked (fst (start_loop fuel until s)) = invoked s) /\
  (forall a (s : sched), queue s = [] ->
     queue (fst (exec fuel a s)) = [] /\ invoked (fst (exec fuel a s)) = invoked s) /\
  (forall c (s : sched), queue s = [] ->
     queue (fst (perform fuel c s)) = [] /\ invoked (fst (perform fuel c s)) = invoked s).
Proof.
  induction fuel as [| n (IHloop & IHexec & IHperform)].
  - repeat split; assumption.
  - split; [| split].
    + intros u s Hq. simpl. destruct (isEnabled s); [| auto].
      rewrite (getNext_none_live s) by (rewrite Hq; constructor).
      simpl. auto.
    + intros a s Hq. simpl. destruct a as [| e | c k | body k]; auto.
      * destruct (IHperform c s Hq) as (Hq1 & Hi1).
        destruct (perform n c s) as [s1 [v | e |]]; simpl in *; auto.
        destruct (IHexec k s1 Hq1) as (Hq2 & Hi2). split; congruence.
      * destruct (IHexec body s Hq) as (Hq1 & Hi1).
        destruct (exec n body s) as [s1 [v | e |]]; simpl in *; auto.
        -- destruct (IHexec k s1 Hq1) as (Hq2 & Hi2). split; congruence.
        -- destruct (is_Exception e); simpl; auto.
           destruct (IHexec k s1 Hq1) as (Hq2 & Hi2). split; congruence.
    + assert (Hstart : forall until (s : sched), queue s = [] ->
                queue (fst (start_with (start_loop n) until s)) = [] /\
                invoked (fst (start_with (start_loop n) until s)) = invoked s).
      { intros u s Hq. unfold start_with. destruct (isEnabled s); [auto |].
        apply (IHloop u (set_isEnabled true s)). exact Hq. }
      assert (Hadv : forall time (s : sched), queue s = [] ->
                queue (fst (advanceTo_with comparer (start_loop n) time s)) = [] /\
                invoked (fst (advanceTo_with comparer (start_loop n) time s)) = invoked s).
      { intros time s Hq. unfold advanceTo_with.
        destruct (comparer time (clock s) <? 0); [auto |].
        destruct (comparer time (clock s) =? 0); [auto |].
        now apply Hstart. }
      intros c s Hq. simpl. destruct c.
      * auto.
      * auto.
      * auto.
      * auto.
      * unfold _scheduleAbsolute. destruct (_localNow _ _); simpl; auto.
      * auto.
      * auto.
      * now apply Hstart.
      * auto.
      * now apply Hadv.
      * unfold advanceBy_with. now apply Hadv.
      * unfold sleep.
        destruct (0 <=? comparer (clock s) (add (clock s) time)); simpl; auto.
Qed.

(** X6: on a scheduler whose queue is empty no action, whatever calls it
    makes on the scheduler, ever gets an item queued or invoked: every
    scheduling call ends in [NameError] before it reaches the queue. *)
Theorem X6_nothing_is_ever_queued_or_invoked :
  forall (fuel : nat) (a : action) (s : sched),
    queue s = [] ->
    queue (fst (exec fuel a s)) = [] /\ invoked (fst (exec fuel a s)) = invoked s.
Proof.
  intros fuel a s Hq. destruct (empty_queue_kept fuel) as (_ & Hexec & _).
  now apply Hexec.
Qed.
End VirtualTimeMore.

Lemma X1_getNext_skips_cancelled_items_witness :
  VirtualTimeScheduler.getNext cancelled_first
  = (VirtualTimeScheduler.set_queue
       [VirtualTimeScheduler.mkScheduledItem 1%nat VirtualTimeScheduler.aReturn 10 false]
       cancelled_first,
     Normal (Some (VirtualTimeScheduler.mkScheduledItem 2%nat
                     VirtualTimeScheduler.aReturn 5 false))).
Proof.
  apply (proj1 (X1_getNext_skips_cancelled_items cancelled_first)
           [VirtualTimeScheduler.mkScheduledItem 9%nat VirtualTimeScheduler.aReturn 3 true]).
  - reflexivity.
  - repeat constructor.
  - reflexivity.
Defined.


Lemma X3_no_second_start_after_a_drain_witness :
  HistoricalScheduler.start HistoricalScheduler.defaultSubComparer 7 (Some 100)
    (VirtualTimeScheduler.set_queue (VirtualTimeScheduler.queue due_now)
       (fst (HistoricalScheduler.start HistoricalScheduler.defaultSubComparer 9 None
               two_items)))
  = (VirtualTimeScheduler.set_queue (VirtualTimeScheduler.queue due_now)
       (fst (HistoricalScheduler.start HistoricalScheduler.defaultSubComparer 9 None
               two_items)),
     Normal tt).
Proof.
  apply (X3_no_second_start_after_a_drain
           HistoricalScheduler.defaultSubComparer HistoricalScheduler.add
           HistoricalScheduler.toRelative HistoricalScheduler.toDateTimeOffset Z.sub
           9 two_items).
  - reflexivity.
  - repeat constructor.
  - simpl. lia.
Defined.

Lemma X4_start_with_a_limit_drops_the_first_item_that_is_too_late_witness :
  HistoricalScheduler.start HistoricalScheduler.defaultSubComparer 2 (Some 4)
    cancelled_first
  = (VirtualTimeScheduler.mk 0 false
       [VirtualTimeScheduler.mkScheduledItem 1%nat VirtualTimeScheduler.aReturn 10 false]
       [],
     Normal tt).
Proof.
  apply (proj1 (X4_start_with_a_limit_drops_the_first_item_that_is_too_late
                  HistoricalScheduler.defaultSubComparer HistoricalScheduler.add
                  HistoricalScheduler.toRelative HistoricalScheduler.toDateTimeOffset
                  Z.sub 0 4 cancelled_first eq_refl)
           [VirtualTimeScheduler.mkScheduledItem 9%nat VirtualTimeScheduler.aReturn 3 true]
           (VirtualTimeScheduler.mkScheduledItem 2%nat VirtualTimeScheduler.aReturn 5 false)
           [VirtualTimeScheduler.mkScheduledItem 1%nat VirtualTimeScheduler.aReturn 10
              false]).
  - reflexivity.
  - repeat constructor.
  - reflexivity.
  - reflexivity.
Defined.


Lemma X6_nothing_is_ever_queued_or_invoked_witness :
  VirtualTimeScheduler.queue
    (fst (VirtualTimeScheduler.exec HistoricalScheduler.defaultSubComparer
            HistoricalScheduler.add HistoricalScheduler.toRelative
            HistoricalScheduler.toDateTimeOffset Z.sub 9
            (VirtualTimeScheduler.aTry
               (VirtualTimeScheduler.aCall
                  (VirtualTimeScheduler.cScheduleRelativeWithState 1%nat 10
                     VirtualTimeScheduler.aReturn)
                  VirtualTimeScheduler.aReturn)
               (VirtualTimeScheduler.aCall (VirtualTimeScheduler.cStart None)
                  VirtualTimeScheduler.aReturn))
            fresh_historical))
  = [] /\
  VirtualTimeScheduler.invoked
    (fst (VirtualTimeScheduler.exec HistoricalScheduler.defaultSubComparer
            HistoricalScheduler.add HistoricalScheduler.toRelative
            HistoricalScheduler.toDateTimeOffset Z.sub 9
            (VirtualTimeScheduler.aTry
               (VirtualTimeScheduler.aCall
                  (VirtualTimeScheduler.cScheduleRelativeWithState 1%nat 10
                     VirtualTimeScheduler.aReturn)
                  VirtualTimeScheduler.aReturn)
               (VirtualTimeScheduler.aCall (VirtualTimeScheduler.cStart None)
                  VirtualTimeScheduler.aReturn))
            fresh_historical))
  = VirtualTimeScheduler.invoked fresh_historical.
Proof.
  apply (X6_nothing_is_ever_queued_or_invoked
           HistoricalScheduler.defaultSubComparer HistoricalScheduler.add
           HistoricalScheduler.toRelative HistoricalScheduler.toDateTimeOffset Z.sub
           9 _ fresh_historical).
  reflexivity.
Defined.

(** ** HistoricalScheduler.sleep *)

(** X7: on a [HistoricalScheduler] with the default comparer whose clock
    and times are integers (Python [int], as the default
    [initialClock = 0] is), [sleep(time)] raises and changes nothing when
    [time] is not positive; otherwise it moves the clock forward by
    exactly [time] and touches neither the queue nor [isEnabled] nor the
    log, and two sleeps in a row are one sleep of the sum.  Float times,
    whose sums round, are not covered. *)
Theorem X7_sleep_on_integer_times_moves_the_clock_by_the_time_slept :
  forall (St : Type) (time a b : Z) (s : @HistoricalScheduler.t St),
    (time <= 0 ->
     HistoricalScheduler.sleep HistoricalScheduler.defaultSubComparer time s
     = (s, Raised (PyException "Argument out of range"))) /\
    (0 < time ->
     HistoricalScheduler.sleep HistoricalScheduler.defaultSubComparer time s
     = (VirtualTimeScheduler.mk (VirtualTimeScheduler.clock s + time)
          (VirtualTimeScheduler.isEnabled s) (VirtualTimeScheduler.queue s)
          (VirtualTimeScheduler.invoked s),
        Normal tt)) /\
    (0 < a -> 0 < b ->
     HistoricalScheduler.sleep HistoricalScheduler.defaultSubComparer b
       (fst (HistoricalScheduler.sleep HistoricalScheduler.defaultSubComparer a s))
     = HistoricalScheduler.sleep HistoricalScheduler.defaultSubComparer (a + b) s).
Proof.
  intros St time a b s.
  assert (Hsleep : forall t (x : @HistoricalScheduler.t St),
            HistoricalScheduler.sleep HistoricalScheduler.defaultSubComparer t x
            = if t <=? 0
              then (x, Raised (PyException "Argument out of range"))
              else (VirtualTimeScheduler.set_clock (VirtualTimeScheduler.clock x + t) x,
                    Normal tt)).
  { intros t x. unfold HistoricalScheduler.sleep, VirtualTimeScheduler.sleep,
      HistoricalScheduler.defaultSubComparer, HistoricalScheduler.add.
    destruct (0 <=? VirtualTimeScheduler.clock x - (VirtualTimeScheduler.clock x + t)) eqn:E1;
      destruct (t <=? 0) eqn:E2; try reflexivity.
    - apply Z.leb_le in E1. apply Z.leb_gt in E2. lia.
    - apply Z.leb_gt in E1. apply Z.leb_le in E2. lia. }
  split; [| split].
  - intros Hle. rewrite Hsleep. apply Z.leb_le in Hle. now rewrite Hle.
  - intros Hgt. rewrite Hsleep.
    destruct (time <=? 0) eqn:E; [apply Z.leb_le in E; lia | reflexivity].
  - intros Ha Hb. rewrite !Hsleep.
    destruct (a <=? 0) eqn:Ea; [apply Z.leb_le in Ea; lia |].
    destruct (b <=? 0) eqn:Eb; [apply Z.leb_le in Eb; lia |].
    destruct (a + b <=? 0) eqn:Eab; [apply Z.leb_le in Eab; lia |].
    simpl. unfold VirtualTimeScheduler.set_clock. simpl.
    now rewrite Z.add_assoc.
Qed.

Lemma X7_sleep_on_integer_times_moves_the_clock_by_the_time_slept_witness :
  HistoricalScheduler.sleep HistoricalScheduler.defaultSubComparer 0 two_items
  = (two_items, Raised (PyException "Argument out of range")) /\
  HistoricalScheduler.sleep HistoricalScheduler.defaultSubComparer 4
    (fst (HistoricalScheduler.sleep HistoricalScheduler.defaultSubComparer 3 two_items))
  = HistoricalScheduler.sleep HistoricalScheduler.defaultSubComparer (3 + 4) two_items.
Proof.
  split.
  - apply (proj1 (X7_sleep_on_integer_times_moves_the_clock_by_the_time_slept
                    nat 0 3 4 two_items)).
    lia.
  - apply (proj2 (proj2 (X7_sleep_on_integer_times_moves_the_clock_by_the_time_slept
                           nat 0 3 4 two_items)));
      lia.
Defined.

(** ** Scheduler.normalize, again *)

(** X8: [normalize] never returns a negative number, returns the larger
    of its argument and 0, changes nothing when applied twice, and keeps
    the order of its arguments. *)
Theorem X8_normalize_is_max_with_zero :
  forall t u : R,
    (0 <= Scheduler.normalize t)%R /\
    Scheduler.normalize t = Rmax 0 t /\
    Scheduler.normalize (Scheduler.normalize t) = Scheduler.normalize t /\
    ((t <= u)%R -> (Scheduler.normalize t <= Scheduler.normalize u)%R).
Proof.
  intros t u.
  assert (Hmax : forall x : R, Scheduler.normalize x = Rmax 0 x).
  { intros x. destruct (Rlt_dec x 0) as [Hneg | Hpos].
    - rewrite normalize_R_neg by assumption. rewrite Rmax_left by lra. reflexivity.
    - rewrite normalize_R_nonneg by lra. rewrite Rmax_right by lra. reflexivity. }
  repeat split.
  - rewrite Hmax. apply Rmax_l.
  - apply Hmax.
  - rewrite !Hmax. rewrite Rmax_right; [reflexivity | apply Rmax_l].
  - intros Hle. rewrite !Hmax. apply Rle_max_compat_l. exact Hle.
Qed.

Lemma X8_normalize_is_max_with_zero_witness :
  (Scheduler.normalize (-5) <= Scheduler.normalize 7)%R.
Proof.
  apply (proj2 (proj2 (proj2 (X8_normalize_is_max_with_zero (-5) 7)))). lra.
Defined.

(** ** CatchScheduler: the wrapper, the other objects, the handler *)

Section CatchMore.
Import CatchScheduler.

(** The heap after a lookup that misses. *)
Lemma _getRecursiveWrapper_miss_heap (self scheduler : positive)
    (h : gmap positive object) c :
  h !! self = Some (Catch c) ->
  _recursiveOriginal c <> Some scheduler ->
  exists (h1 : gmap positive object) (wrapper : positive),
    _getRecursiveWrapper self scheduler h = (h1, Normal (Some wrapper)) /\
    h !! wrapper = None /\
    wrapper <> self /\
    h1 !! wrapper = Some (Catch (mkInstance scheduler (_handler c)
                                   (Some scheduler) (Some wrapper))) /\
    h1 !! self = Some (Catch (mkInstance (_scheduler c) (_handler c)
                                (Some scheduler) (Some wrapper))) /\
    (forall other, other <> self -> other <> wrapper -> h1 !! other = h !! other).
Proof.
  intros Hself Hmiss. unfold _getRecursiveWrapper. rewrite Hself.
  destruct (decide (_recursiveOriginal c = Some scheduler)) as [Heq | _];
    [contradiction |].
  unfold _clone, new.
  set (h1 := update self (set_recursiveOriginal (Some scheduler)) h).
  set (wrapper := fresh (dom h1)).
  set (w0 := mkInstance scheduler (_handler c) None None).
  assert (Hself1 : h1 !! self = Some (Catch (set_recursiveOriginal (Some scheduler) c)))
    by now apply update_lookup_eq.
  assert (Hfresh : h1 !! wrapper = None)
    by (apply not_elem_of_dom; apply is_fresh).
  assert (Hne : wrapper <> self) by (intros E; rewrite E, Hself1 in Hfresh; discriminate).
  assert (Hne' : self <> wrapper) by (intros E; now apply Hne).
  assert (Hw2 : <[wrapper := Catch w0]> h1 !! wrapper = Some (Catch w0))
    by apply lookup_insert_eq.
  eexists _, wrapper. split; [reflexivity |]. repeat apply conj.
  - rewrite <- Hfresh. symmetry. now apply update_lookup_ne.
  - exact Hne.
  - rewrite update_lookup_ne by exact Hne'.
    rewrite (update_lookup_eq wrapper _ _ (set_recursiveOriginal (Some scheduler) w0));
      [reflexivity |].
    now apply update_lookup_eq.
  - rewrite (update_lookup_eq self _ _ (set_recursiveOriginal (Some scheduler) c));
      [reflexivity |].
    rewrite !update_lookup_ne by exact Hne.
    rewrite lookup_insert_ne by exact Hne.
    exact Hself1.
  - intros other Hos How.
    rewrite update_lookup_ne by (intros E; now apply Hos).
    rewrite !update_lookup_ne by (intros E; now apply How).
    rewrite lookup_insert_ne by (intros E; now apply How).
    apply update_lookup_ne. intros E. now apply Hos.
Qed.

(** X9: the wrapper that a lookup creates is a new [CatchScheduler]
    around the scheduler asked about, with the handler of the decorator,
    and it remembers itself as the wrapper of that scheduler: asked in
    turn, it answers with itself and changes nothing. *)
Theorem X9_wrapper_wraps_the_scheduler_and_answers_itself :
  forall (h : gmap positive object) (self scheduler : positive) (c : instance),
    h !! self = Some (Catch c) ->
    _recursiveOriginal c <> Some scheduler ->
    exists (h1 : gmap positive object) (wrapper : positive),
      _getRecursiveWrapper self scheduler h = (h1, Normal (Some wrapper)) /\
      h !! wrapper = None /\
      h1 !! wrapper = Some (Catch (mkInstance scheduler (_handler c)
                                     (Some scheduler) (Some wrapper))) /\
      _getRecursiveWrapper wrapper scheduler h1 = (h1, Normal (Some wrapper)).
Proof.
  intros h self scheduler c Hself Hmiss.
  destruct (_getRecursiveWrapper_miss_heap self scheduler h c Hself Hmiss)
    as (h1 & wrapper & Hcall & Hnew & _ & Hw & _ & _).
  exists h1, wrapper. repeat apply conj; try assumption.
  now apply (_getRecursiveWrapper_hit wrapper scheduler h1 _ Hw).
Qed.

(** X10: a lookup keeps every object that existed before as it was, apart
    from the decorator itself, of which it changes the remembered pair
    only: the inner scheduler and the handler stay. *)
Theorem X10_lookup_leaves_the_other_objects_alone :
  forall (h h1 : gmap positive object) (self scheduler : positive)
         (r : outcome (option positive)),
    _getRecursiveWrapper self scheduler h = (h1, r) ->
    (forall other o, other <> self -> h !! other = Some o -> h1 !! other = Some o) /\
    (forall c, h !! self = Some (Catch c) ->
       exists c1, h1 !! self = Some (Catch c1) /\
                  _scheduler c1 = _scheduler c /\ _handler c1 = _handler c).
Proof.
  intros h h1 self scheduler r Hcall.
  destruct (h !! self) as [[| c] |] eqn:Hself.
  - unfold _getRecursiveWrapper in Hcall. rewrite Hself in Hcall.
    inversion Hcall; subst. split; [auto | intros c Hc; discriminate Hc].
  - destruct (decide (_recursiveOriginal c = Some scheduler)) as [Hhit | Hmiss].
    + rewrite (_getRecursiveWrapper_hit self scheduler h c Hself Hhit) in Hcall.
      inversion Hcall; subst. split; [auto |].
      intros c' Hc'. inversion Hc'; subst. exists c'. auto.
    + destruct (_getRecursiveWrapper_miss_heap self scheduler h c Hself Hmiss)
        as (h1' & wrapper & Hcall' & Hnew & Hne & _ & Hself1 & Hframe).
      rewrite Hcall in Hcall'. inversion Hcall'; subst. split.
      * intros other o Hos Ho. rewrite Hframe; [exact Ho | exact Hos |].
        intros E. subst other. rewrite Hnew in Ho. discriminate Ho.
      * intros c' Hc'. inversion Hc'; subst. eexists. split; [exact Hself1 | auto].
  - unfold _getRecursiveWrapper in Hcall. rewrite Hself in Hcall.
    inversion Hcall; subst. split; [auto | intros c Hc; discriminate Hc].
Qed.
End CatchMore.

Section CatchCalls.
Import CatchScheduler.
Context {St World : Type}.

Local Abbreviation state := (gmap positive object * World)%type.

(** The wrapped action, once the wrapper is known. *)
Lemma CatchWrapper_call_unfold (parent : positive) (a : @action St World)
    (_self : positive) (_state : St) (s : state) h1 w :
  _getRecursiveWrapper parent _self (fst s) = (h1, Normal w) ->
  CatchWrapper_call parent a _self _state s =
    match a w _state (h1, snd s) with
    | (s2, Normal d) => (s2, Normal d)
    | (s2, Raised e) => on_fault parent e s2
    | (s2, Diverged) => (s2, Diverged)
    end.
Proof. intros Hw. unfold CatchWrapper_call. rewrite Hw. reflexivity. Qed.

(** A lookup does not change what the handler of the decorator answers. *)
Lemma lookup_keeps_handler (parent scheduler : positive) (h h1 : gmap positive object)
    (r : outcome (option positive)) (e : exn) :
  _getRecursiveWrapper parent scheduler h = (h1, r) ->
  @parent_handler parent h1 e = @parent_handler parent h e.
Proof.
  intros Hcall. unfold parent_handler.
  destruct (h !! parent) as [[| c] |] eqn:Hp.
  - unfold _getRecursiveWrapper in Hcall. rewrite Hp in Hcall.
    inversion Hcall; subst. now rewrite Hp.
  - destruct (decide (_recursiveOriginal c = Some scheduler)) as [Hhit | Hmiss].
    + rewrite (_getRecursiveWrapper_hit parent scheduler h c Hp Hhit) in Hcall.
      inversion Hcall; subst. now rewrite Hp.
    + destruct (_getRecursiveWrapper_miss_heap parent scheduler h c Hp Hmiss)
        as (h1' & wrapper & Hcall' & _ & _ & _ & Hself1 & _).
      rewrite Hcall in Hcall'. inversion Hcall'; subst. now rewrite Hself1.
  - unfold _getRecursiveWrapper in Hcall. rewrite Hp in Hcall.
    inversion Hcall; subst. now rewrite Hp.
Qed.

(** A decorator whose handler answers is a [CatchScheduler] of the heap. *)
Lemma answering_handler_is_Catch (parent : positive) (h : gmap positive object)
    (e : exn) (b : bool) :
  @parent_handler parent h e = Normal b -> exists c, h !! parent = Some (Catch c).
Proof.
  unfold parent_handler. destruct (h !! parent) as [[| c] |]; try discriminate.
  intros _. now exists c.
Qed.

(** X11: under a handler that accepts every fault, and an action that
    leaves such a handler in place, no fault that is an instance of
    [Exception] leaves the wrapped action. *)
Theorem X11_accepting_handler_lets_no_Exception_out :
  forall (parent : positive) (a : @action St World) (_self : positive) (_state : St)
         (s s' : state) (e : exn),
    (forall e0, parent_handler parent (fst s) e0 = Normal true) ->
    (forall w st x,
       (forall e0, parent_handler parent (fst x) e0 = Normal true) ->
       forall e0, parent_handler parent (fst (fst (a w st x))) e0 = Normal true) ->
    CatchWrapper_call parent a _self _state s = (s', Raised e) ->
    is_Exception e = false.
Proof.
  intros parent a _self _state s s' e Haccept Hkeeps Hcall.
  destruct (answering_handler_is_Catch parent (fst s) e true (Haccept e)) as [c Hparent].
  destruct (_getRecursiveWrapper_remembers parent _self (fst s) c Hparent)
    as (h1 & w & c1 & Hw & _).
  rewrite (CatchWrapper_call_unfold parent a _self _state s h1 w Hw) in Hcall.
  assert (Hh : forall e0,
             parent_handler parent (fst (fst (a w _state (h1, snd s)))) e0 = Normal true).
  { apply Hkeeps. intros e0. simpl.
    rewrite (lookup_keeps_handler parent _self (fst s) h1 (Normal w) e0 Hw).
    apply Haccept. }
  destruct (a w _state (h1, snd s)) as [s2 [d | e0 |]]; simpl in Hh.
  - discriminate Hcall.
  - unfold on_fault in Hcall. destruct (is_Exception e0) eqn:He0.
    + rewrite Hh in Hcall. discriminate Hcall.
    + inversion Hcall; subst. exact He0.
  - discriminate Hcall.
Qed.

(** X12: under a handler that accepts no fault, and an action that
    leaves such a handler in place, the decorator is transparent: the
    wrapped action returns or raises exactly what the action does when it
    is handed the wrapper. *)
Theorem X12_rejecting_handler_changes_nothing :
  forall (parent : positive) (a : @action St World) (_self : positive) (_state : St)
         (s : state),
    (forall e0, parent_handler parent (fst s) e0 = Normal false) ->
    (forall w st x,
       (forall e0, parent_handler parent (fst x) e0 = Normal false) ->
       forall e0, parent_handler parent (fst (fst (a w st x))) e0 = Normal false) ->
    exists h1 w,
      _getRecursiveWrapper parent _self (fst s) = (h1, Normal w) /\
      CatchWrapper_call parent a _self _state s = a w _state (h1, snd s).
Proof.
  intros parent a _self _state s Hreject Hkeeps.
  destruct (answering_handler_is_Catch parent (fst s) QueueEmpty false
              (Hreject QueueEmpty)) as [c Hparent].
  destruct (_getRecursiveWrapper_remembers parent _self (fst s) c Hparent)
    as (h1 & w & c1 & Hw & _).
  exists h1, w. split; [exact Hw |].
  rewrite (CatchWrapper_call_unfold parent a _self _state s h1 w Hw).
  assert (Hh : forall e0,
             parent_handler parent (fst (fst (a w _state (h1, snd s)))) e0 = Normal false).
  { apply Hkeeps. intros e0. simpl.
    rewrite (lookup_keeps_handler parent _self (fst s) h1 (Normal w) e0 Hw).
    apply Hreject. }
  destruct (a w _state (h1, snd s)) as [s2 [d | e0 |]]; simpl in Hh; try reflexivity.
  unfold on_fault. destruct (is_Exception e0); [| reflexivity].
  rewrite Hh. reflexivity.
Qed.

(** The immediate scheduler calls the wrapped action with a new nested
    scheduler, so the lookup inside misses. *)
Lemma scheduleWithState_on_immediate_unfold (self : positive) (st : St)
    (a : @action St World) (s : state) (c : instance) :
  fst s !! self = Some (Catch c) ->
  (forall r, _recursiveOriginal c = Some r -> is_Some (fst s !! r)) ->
  exists (h1 : gmap positive object) (nested wrapper : positive),
    fst s !! nested = None /\ fst s !! wrapper = None /\ nested <> wrapper /\
    h1 !! nested = Some OtherScheduler /\
    h1 !! wrapper = Some (Catch (mkInstance nested (_handler c)
                                   (Some nested) (Some wrapper))) /\
    h1 !! self = Some (Catch (mkInstance (_scheduler c) (_handler c)
                                (Some nested) (Some wrapper))) /\
    (forall other o, fst s !! other = Some o -> other <> self -> h1 !! other = Some o) /\
    CatchSchedulerCalls.scheduleWithState_on_immediate self st a s =
      match a (Some wrapper) st (h1, snd s) with
      | (s2, Normal d) => (s2, Normal d)
      | (s2, Raised e) => on_fault self e s2
      | (s2, Diverged) => (s2, Diverged)
      end.
Proof.
  intros Hself Hwf.
  unfold CatchSchedulerCalls.scheduleWithState_on_immediate,
    CatchSchedulerCalls._scheduleNow, ImmediateScheduler._scheduleNow,
    ImmediateScheduler.new_AsyncLockScheduler, CatchSchedulerCalls._wrap.
  set (nested := fresh (dom (fst s))).
  set (h0 := <[nested := OtherScheduler]> (fst s)).
  assert (Hnested : fst s !! nested = None) by (apply not_elem_of_dom; apply is_fresh).
  assert (Hns : nested <> self) by (intros E; rewrite E, Hself in Hnested; discriminate).
  assert (Hself0 : h0 !! self = Some (Catch c))
    by (unfold h0; rewrite lookup_insert_ne by exact Hns; exact Hself).
  assert (Hmiss : _recursiveOriginal c <> Some nested).
  { intros E. destruct (Hwf nested E) as [o Ho]. rewrite Hnested in Ho. discriminate Ho. }
  destruct (_getRecursiveWrapper_miss_heap self nested h0 c Hself0 Hmiss)
    as (h1 & wrapper & Hcall & Hnew & Hws & Hw & Hself1 & Hframe).
  assert (Hnw : nested <> wrapper).
  { intros E. rewrite <- E in Hnew. unfold h0 in Hnew.
    rewrite lookup_insert_eq in Hnew. discriminate Hnew. }
  exists h1, nested, wrapper. repeat apply conj; try assumption.
  - unfold h0 in Hnew. rewrite lookup_insert_ne in Hnew by exact Hnw. exact Hnew.
  - rewrite Hframe by assumption. apply lookup_insert_eq.
  - intros other o Ho Hos. rewrite Hframe; [| exact Hos |].
    + unfold h0. rewrite lookup_insert_ne; [exact Ho |].
      intros E. rewrite <- E, Hnested in Ho. discriminate Ho.
    + intros E. subst other. unfold h0 in Hnew.
      rewrite lookup_insert_ne in Hnew by exact Hnw. rewrite Hnew in Ho. discriminate Ho.
  - apply (CatchWrapper_call_unfold self a nested st (h0, snd s) h1 (Some wrapper)).
    exact Hcall.
Qed.

(** X13: [scheduleWithState] on a [CatchScheduler] around the immediate
    scheduler runs the action at once.  When the action raises a fault
    that is an instance of [Exception] and leaves the decorator alone, the
    call returns the empty token if the handler accepts that fault and
    raises that fault if the handler rejects it. *)
Theorem X13_scheduling_on_immediate_swallows_or_raises :
  forall (self : positive) (st : St) (a : @action St World) (s : state)
         (c : instance) (e : exn) (accepts : bool),
    fst s !! self = Some (Catch c) ->
    (forall r, _recursiveOriginal c = Some r -> is_Some (fst s !! r)) ->
    _handler c e = Normal accepts ->
    is_Exception e = true ->
    (forall w x y, snd (a w x y) = Raised e) ->
    (forall w x y, fst (fst (a w x y)) !! self = fst y !! self) ->
    snd (CatchSchedulerCalls.scheduleWithState_on_immediate self st a s)
    = if accepts then Normal Disposable_empty else Raised e.
Proof.
  intros self st a s c e accepts Hself Hwf Hhandler Hexc Hraises Hkeeps.
  destruct (scheduleWithState_on_immediate_unfold self st a s c Hself Hwf)
    as (h1 & nested & wrapper & _ & _ & _ & _ & _ & Hself1 & _ & Hrun).
  rewrite Hrun.
  pose proof (Hraises (Some wrapper) st (h1, snd s)) as Hr.
  pose proof (Hkeeps (Some wrapper) st (h1, snd s)) as Hk.
  destruct (a (Some wrapper) st (h1, snd s)) as [s2 r]. simpl in Hr, Hk. subst r.
  unfold on_fault, parent_handler. rewrite Hexc, Hk, Hself1. simpl.
  rewrite Hhandler. destruct accepts; reflexivity.
Qed.

(** X14: every such call builds two objects that did not exist before, a
    nested scheduler and a wrapper around it, whatever the decorator
    remembered: the nested scheduler is new each time, so the remembered
    wrapper is never used again.  The objects that existed stay as they
    were, apart from the pair the decorator remembers. *)
Theorem X14_scheduling_on_immediate_builds_a_new_wrapper :
  forall (self : positive) (st : St) (a : @action St World) (s : state) (c : instance),
    fst s !! self = Some (Catch c) ->
    (forall r, _recursiveOriginal c = Some r -> is_Some (fst s !! r)) ->
    (forall w x y, fst (fst (a w x y)) = fst y) ->
    exists (nested wrapper : positive),
      nested <> wrapper /\
      fst s !! nested = None /\ fst s !! wrapper = None /\
      fst (fst (CatchSchedulerCalls.scheduleWithState_on_immediate self st a s)) !! nested
      = Some OtherScheduler /\
      fst (fst (CatchSchedulerCalls.scheduleWithState_on_immediate self st a s)) !! wrapper
      = Some (Catch (mkInstance nested (_handler c) (Some nested) (Some wrapper))) /\
      fst (fst (CatchSchedulerCalls.scheduleWithState_on_immediate self st a s)) !! self
      = Some (Catch (mkInstance (_scheduler c) (_handler c)
                       (Some nested) (Some wrapper))) /\
      (forall other o,
         fst s !! other = Some o -> other <> self ->
         fst (fst (CatchSchedulerCalls.scheduleWithState_on_immediate self st a s))
           !! other = Some o).
Proof.
  intros self st a s c Hself Hwf Hheap.
  destruct (scheduleWithState_on_immediate_unfold self st a s c Hself Hwf)
    as (h1 & nested & wrapper & Hn & Hw & Hnw & Hn1 & Hw1 & Hs1 & Hframe & Hrun).
  assert (Hafter : fst (fst (CatchSchedulerCalls.scheduleWithState_on_immediate
                               self st a s)) = h1).
  { rewrite Hrun. pose proof (Hheap (Some wrapper) st (h1, snd s)) as Hh.
    destruct (a (Some wrapper) st (h1, snd s)) as [s2 [d | e |]]; simpl in *;
      try exact Hh.
    unfold on_fault. destruct (is_Exception e); [| exact Hh].
    destruct (parent_handler self (fst s2) e) as [[|] | e' |]; exact Hh. }
  rewrite Hafter. exists nested, wrapper. repeat apply conj; assumption.
Qed.
End CatchCalls.

Lemma X9_wrapper_wraps_the_scheduler_and_answers_itself_witness :
  exists (h1 : gmap positive CatchScheduler.object) (wrapper : positive),
    CatchScheduler._getRecursiveWrapper 1%positive 10%positive one_decorator
    = (h1, Normal (Some wrapper)) /\
    one_decorator !! wrapper = None /\
    h1 !! wrapper
    = Some (CatchScheduler.Catch
              (CatchScheduler.mkInstance 10%positive
                 (CatchScheduler._handler
                    (CatchScheduler.mkInstance 10%positive accept_all None None))
                 (Some 10%positive) (Some wrapper))) /\
    CatchScheduler._getRecursiveWrapper wrapper 10%positive h1
    = (h1, Normal (Some wrapper)).
Proof.
  apply (X9_wrapper_wraps_the_scheduler_and_answers_itself one_decorator 1%positive
           10%positive (CatchScheduler.mkInstance 10%positive accept_all None None)).
  - reflexivity.
  - discriminate.
Defined.

Lemma X10_lookup_leaves_the_other_objects_alone_witness :
  (forall other o,
     other <> 1%positive ->
     one_decorator !! other = Some o ->
     fst (CatchScheduler._getRecursiveWrapper 1%positive 10%positive one_decorator)
       !! other = Some o) /\
  (forall c,
     one_decorator !! 1%positive = Some (CatchScheduler.Catch c) ->
     exists c1,
       fst (CatchScheduler._getRecursiveWrapper 1%positive 10%positive one_decorator)
         !! 1%positive = Some (CatchScheduler.Catch c1) /\
       CatchScheduler._scheduler c1 = CatchScheduler._scheduler c /\
       CatchScheduler._handler c1 = CatchScheduler._handler c).
Proof.
  apply (X10_lookup_leaves_the_other_objects_alone one_decorator
           (fst (CatchScheduler._getRecursiveWrapper 1%positive 10%positive one_decorator))
           1%positive 10%positive (Normal (Some 12%positive))).
  vm_compute. reflexivity.
Defined.

Lemma X11_accepting_handler_lets_no_Exception_out_witness :
  is_Exception SystemExit = false.
Proof.
  apply (X11_accepting_handler_lets_no_Exception_out (St := unit) (World := unit)
           1%positive exits 10%positive tt (one_decorator, tt)
           (fst (CatchScheduler._getRecursiveWrapper 1%positive 10%positive one_decorator),
            tt)
           SystemExit).
  - intros e0. reflexivity.
  - intros w st x Hx e0. exact (Hx e0).
  - vm_compute. reflexivity.
Defined.

Lemma X12_rejecting_handler_changes_nothing_witness :
  exists h1 w,
    CatchScheduler._getRecursiveWrapper 1%positive 10%positive rejecting_decorator
    = (h1, Normal w) /\
    CatchScheduler.CatchWrapper_call 1%positive faults 10%positive tt
      (rejecting_decorator, tt)
    = faults w tt (h1, tt).
Proof.
  apply (X12_rejecting_handler_changes_nothing (St := unit) (World := unit)
           1%positive faults 10%positive tt (rejecting_decorator, tt)).
  - intros e0. reflexivity.
  - intros w st x Hx e0. exact (Hx e0).
Defined.

Lemma X13_scheduling_on_immediate_swallows_or_raises_witness :
  snd (CatchSchedulerCalls.scheduleWithState_on_immediate 1%positive tt faults
         (one_decorator, tt))
  = Normal Disposable_empty.
Proof.
  apply (X13_scheduling_on_immediate_swallows_or_raises (St := unit) (World := unit)
           1%positive tt faults (one_decorator, tt)
           (CatchScheduler.mkInstance 10%positive accept_all None None) (Fault 0) true).
  - reflexivity.
  - intros r Hr. discriminate Hr.
  - reflexivity.
  - reflexivity.
  - intros w x y. reflexivity.
  - intros w x y. reflexivity.
Defined.

Lemma X14_scheduling_on_immediate_builds_a_new_wrapper_witness :
  exists (nested wrapper : positive),
    nested <> wrapper /\
    one_decorator !! nested = None /\ one_decorator !! wrapper = None /\
    fst (fst (CatchSchedulerCalls.scheduleWithState_on_immediate 1%positive tt faults
                (one_decorator, tt))) !! nested
    = Some CatchScheduler.OtherScheduler /\
    fst (fst (CatchSchedulerCalls.scheduleWithState_on_immediate 1%positive tt faults
                (one_decorator, tt))) !! wrapper
    = Some (CatchScheduler.Catch
              (CatchScheduler.mkInstance nested accept_all (Some nested) (Some wrapper))) /\
    fst (fst (CatchSchedulerCalls.scheduleWithState_on_immediate 1%positive tt faults
                (one_decorator, tt))) !! 1%positive
    = Some (CatchScheduler.Catch
              (CatchScheduler.mkInstance 10%positive accept_all
                 (Some nested) (Some wrapper))) /\
    (forall other o,
       one_decorator !! other = Some o -> other <> 1%positive ->
       fst (fst (CatchSchedulerCalls.scheduleWithState_on_immediate 1%positive tt faults
                   (one_decorator, tt))) !! other = Some o).
Proof.
  apply (X14_scheduling_on_immediate_builds_a_new_wrapper (St := unit) (World := unit)
           1%positive tt faults (one_decorator, tt)
           (CatchScheduler.mkInstance 10%positive accept_all None None)).
  - reflexivity.
  - intros r Hr. discriminate Hr.
  - intros w x y. reflexivity.
Defined.

(** ** RecursiveScheduledFunction: the flags and the group *)

Section RecursiveMore.
Import RecursiveScheduledFunction.

(** X15: however the calls of [actionCallback], the callbacks and the
    disposal of the group interleave, and however many steps the chain
    has, [isDone] and [isAdded] are never both set: each is set under the
    lock only when the other is not, and outside the lock they are only
    cleared. *)
Theorem X15_isDone_and_isAdded_are_never_both_set :
  forall (es : list event) (s : RecursiveScheduledFunction.t),
    run es init = Some s ->
    isDone s && isAdded s = false.
Proof.
  intros es s Hrun. exact (run_flags es init s eq_refl Hrun).
Qed.

(** X16: in a chain in which every action calls the continuation once at
    most and every callback starts after the call that scheduled it has
    returned, the group never keeps the token of a step that has begun:
    a token in the group is the token of the last call, which has
    returned and whose callback has not yet passed its block under the
    lock, and the action of that step has not been invoked. *)
Theorem X16_group_holds_only_the_token_of_the_pending_step :
  forall (es : list event) (s : RecursiveScheduledFunction.t) (k : nat),
    run es init = Some s ->
    orderly es init = true ->
    mem k (group s) = true ->
    S k = length (calls s) /\
    (exists c, calls s !! k = Some c /\ pc c = Returned /\
               (cb c = Armed \/ cb c = Started)) /\
    mem k (invoked s) = false.
Proof.
  intros es s k Hrun Hord Hmem.
  assert (Hinv : chain_inv s)
    by (eapply orderly_chain_inv; [apply init_chain_inv | exact Hord | exact Hrun]).
  destruct (ci_group s Hinv k Hmem) as (c & Hc & Hpc & Hcb).
  split; [| split].
  - apply (unfinished_is_last s k c Hinv Hc).
    unfold unfinished. rewrite Hpc. destruct Hcb as [-> | ->]; reflexivity.
  - exists c. auto.
  - destruct (mem k (invoked s)) eqn:Hlog; [| reflexivity].
    destruct (ci_log s Hinv k Hlog) as (c1 & Hc1 & Hcb1).
    rewrite Hc in Hc1. inversion Hc1; subst c1.
    destruct Hcb as [H | H]; rewrite H in Hcb1;
      destruct Hcb1 as [H1 | H1]; discriminate H1.
Qed.
End RecursiveMore.

Lemma X15_isDone_and_isAdded_are_never_both_set_witness :
  RecursiveScheduledFunction.isDone
    (RecursiveScheduledFunction.mk true false (Some 0%nat) [] false []
       [RecursiveScheduledFunction.mkCall None RecursiveScheduledFunction.Returned
          RecursiveScheduledFunction.Locked]
       [])
  && RecursiveScheduledFunction.isAdded
       (RecursiveScheduledFunction.mk true false (Some 0%nat) [] false []
          [RecursiveScheduledFunction.mkCall None RecursiveScheduledFunction.Returned
             RecursiveScheduledFunction.Locked]
          [])
  = false.
Proof.
  apply (X15_isDone_and_isAdded_are_never_both_set callback_first).
  reflexivity.
Defined.

Lemma X16_group_holds_only_the_token_of_the_pending_step_witness :
  S 1 = length
          (RecursiveScheduledFunction.calls
             (RecursiveScheduledFunction.mk false true (Some 1%nat) [1%nat] false []
                [RecursiveScheduledFunction.mkCall None
                   RecursiveScheduledFunction.Returned
                   RecursiveScheduledFunction.Running;
                 RecursiveScheduledFunction.mkCall (Some 0%nat)
                   RecursiveScheduledFunction.Returned
                   RecursiveScheduledFunction.Armed]
                [0%nat])) /\
  (exists c,
     RecursiveScheduledFunction.calls
       (RecursiveScheduledFunction.mk false true (Some 1%nat) [1%nat] false []
          [RecursiveScheduledFunction.mkCall None RecursiveScheduledFunction.Returned
             RecursiveScheduledFunction.Running;
           RecursiveScheduledFunction.mkCall (Some 0%nat)
             RecursiveScheduledFunction.Returned RecursiveScheduledFunction.Armed]
          [0%nat]) !! 1%nat = Some c /\
     RecursiveScheduledFunction.pc c = RecursiveScheduledFunction.Returned /\
     (RecursiveScheduledFunction.cb c = RecursiveScheduledFunction.Armed \/
      RecursiveScheduledFunction.cb c = RecursiveScheduledFunction.Started)) /\
  RecursiveScheduledFunction.mem 1
    (RecursiveScheduledFunction.invoked
       (RecursiveScheduledFunction.mk false true (Some 1%nat) [1%nat] false []
          [RecursiveScheduledFunction.mkCall None RecursiveScheduledFunction.Returned
             RecursiveScheduledFunction.Running;
           RecursiveScheduledFunction.mkCall (Some 0%nat)
             RecursiveScheduledFunction.Returned RecursiveScheduledFunction.Armed]
          [0%nat]))
  = false.
Proof.
  apply (X16_group_holds_only_the_token_of_the_pending_step two_steps).
  - reflexivity.
  - reflexivity.
  - reflexivity.
Defined.

(** ** VirtualTimeScheduler: start without a limit *)

Section VirtualTimeStop.
Import VirtualTimeScheduler.
Context {Abs Rel St : Type}.
Variable comparer : Abs -> Abs -> Z.
Variable add : Abs -> Rel -> Abs.
Variable toRelative : Rel -> Rel.
Variable toDateTimeOffset : Abs -> outcome Abs.
Variable sub : Abs -> Abs -> Rel.

Local Abbreviation sched := (@VirtualTimeScheduler.t Abs Rel St).
Local Abbreviation item := (@VirtualTimeScheduler.ScheduledItem Abs Rel St).
Local Abbreviation start := (start comparer add toRelative toDateTimeOffset sub).
Local Abbreviation start_loop := (start_loop comparer add toRelative toDateTimeOffset sub).
Local Abbreviation exec := (exec comparer add toRelative toDateTimeOffset sub).

(** [getNext] never hands out [None]. *)
Lemma getNext_loop_not_None : forall n (q q' : list item) r,
  getNext_loop n q = (q', r) -> r <> Normal None.
Proof.
  induction n as [| n IH]; intros q q' r Hloop; simpl in Hloop.
  - inversion Hloop; subst. discriminate.
  - destruct q as [| x q]; simpl in Hloop.
    + inversion Hloop; subst. discriminate.
    + destruct (isCancelled x).
      * now apply (IH q q' r).
      * inversion Hloop; subst. discriminate.
Qed.

Lemma getNext_not_None (s s1 : sched) r : getNext s = (s1, r) -> r <> Normal None.
Proof.
  intros Hnext. unfold getNext in Hnext.
  destruct (getNext_loop (S (length (queue s))) (queue s)) as [q' r'] eqn:Hloop.
  inversion Hnext; subst. exact (getNext_loop_not_None _ _ _ _ Hloop).
Qed.

(** [invoke] never returns. *)
Lemma invoke_never_returns fuel si (s : sched) v :
  snd (invoke_with (exec fuel) si s) <> Normal v.
Proof.
  unfold invoke_with.
  destruct (exec fuel (item_action si) (log_invocation si s)) as [s1 [u | e |]];
    discriminate.
Qed.

(** Without a limit, a turn of the loop made with [isEnabled] set does
    not come to its end. *)
Lemma start_loop_never_returns fuel (s : sched) v :
  isEnabled s = true -> snd (start_loop fuel None s) <> Normal v.
Proof.
  intros Hen. destruct fuel as [| n]; [discriminate |].
  simpl. rewrite Hen.
  destruct (getNext s) as [s1 r] eqn:Hnext.
  pose proof (getNext_not_None s s1 r Hnext) as Hnone.
  destruct r as [[si |] | e |]; simpl; try discriminate.
  - pose proof (invoke_never_returns n si (advance_clock comparer si s1)) as Hinv.
    destruct (invoke_with (exec n) si (advance_clock comparer si s1))
      as [s2 [u | e |]]; simpl in *; try discriminate.
    exfalso. exact (Hinv u eq_refl).
  - now contradiction Hnone.
Qed.

(** X17: [start(None)] on a scheduler that is not enabled never returns,
    whatever the queue holds and whatever the actions do, [stop()]
    included: [getNext] hands out an item or raises [queue.Empty], and
    [invoke] raises once the action has returned.  The call ends in an
    exception or not at all. *)
Theorem X17_start_without_limit_never_returns :
  forall (fuel : nat) (s : sched),
    isEnabled s = false ->
    snd (start fuel None s) <> Normal tt.
Proof.
  intros fuel s Hen. unfold VirtualTimeScheduler.start, start_with. rewrite Hen.
  apply start_loop_never_returns. reflexivity.
Qed.
End VirtualTimeStop.

Lemma X17_start_without_limit_never_returns_witness :
  snd (HistoricalScheduler.start HistoricalScheduler.defaultSubComparer 9 None
         stops_first)
  <> Normal tt.
Proof.
  apply (X17_start_without_limit_never_returns
           HistoricalScheduler.defaultSubComparer HistoricalScheduler.add
           HistoricalScheduler.toRelative HistoricalScheduler.toDateTimeOffset Z.sub
           9 stops_first).
  reflexivity.
Defined.

(** ** VirtualTimeScheduler: where the clock can get to *)

Section VirtualTimeClock.
Import VirtualTimeScheduler.
Context {Abs Rel St : Type}.
Variable comparer : Abs -> Abs -> Z.
Variable add : Abs -> Rel -> Abs.
Variable toRelative : Rel -> Rel.
Variable toDateTimeOffset : Abs -> outcome Abs.
Variable sub : Abs -> Abs -> Rel.

Local Abbreviation sched := (@VirtualTimeScheduler.t Abs Rel St).
Local Abbreviation item := (@VirtualTimeScheduler.ScheduledItem Abs Rel St).
Local Abbreviation start := (start comparer add toRelative toDateTimeOffset sub).
Local Abbreviation advanceTo := (advanceTo comparer add toRelative toDateTimeOffset sub).
Local Abbreviation advanceBy := (advanceBy comparer add toRelative toDateTimeOffset sub).
Local Abbreviation start_loop := (start_loop comparer add toRelative toDateTimeOffset sub).
Local Abbreviation exec := (exec comparer add toRelative toDateTimeOffset sub).
Local Abbreviation perform := (perform comparer add toRelative toDateTimeOffset sub).
Local Abbreviation sleep_free := (@VirtualTimeItems.sleep_free Abs Rel St).
Local Abbreviation calls_no_sleep := (@VirtualTimeItems.calls_no_sleep Abs Rel St).
Local Abbreviation items_sleep_free := (@VirtualTimeItems.items_sleep_free Abs Rel St).
Local Abbreviation clock_from := (@VirtualTimeItems.clock_from Abs Rel St).

Lemma clock_from_refl (s : sched) : clock_from s s.
Proof. split; [intros x Hx; exact Hx | left; reflexivity]. Qed.

Lemma clock_from_same (s s' : sched) :
  queue s' = queue s -> clock s' = clock s -> clock_from s s'.
Proof.
  intros Hq Hc. split; [rewrite Hq; intros x Hx; exact Hx | left; exact Hc].
Qed.

Lemma clock_from_trans (s1 s2 s3 : sched) :
  clock_from s1 s2 -> clock_from s2 s3 -> clock_from s1 s3.
Proof.
  intros (Hq12 & Hc12) (Hq23 & Hc23). split.
  - intros x Hx. apply Hq12, Hq23, Hx.
  - destruct Hc23 as [Heq | Hin].
    + rewrite Heq. exact Hc12.
    + right. apply List.in_map_iff in Hin. destruct Hin as (x & Hdue & Hx).
      apply List.in_map_iff. exists x. split; [exact Hdue | apply Hq12, Hx].
Qed.

Lemma clock_from_sleep_free (s s' : sched) :
  clock_from s s' -> items_sleep_free (queue s) -> items_sleep_free (queue s').
Proof.
  intros (Hq & _) Hs. unfold VirtualTimeItems.items_sleep_free in *.
  rewrite List.Forall_forall in *. intros x Hx. apply Hs, Hq, Hx.
Qed.

Lemma getNext_loop_from : forall n (q q' : list item) r,
  getNext_loop n q = (q', r) ->
  (forall x, List.In x q' -> List.In x q) /\
  (forall si, r = Normal (Some si) -> List.In si q).
Proof.
  induction n as [| n IH]; intros q q' r Hloop; simpl in Hloop.
  - inversion Hloop; subst. split; [intros x Hx; exact Hx | discriminate].
  - destruct q as [| y q]; simpl in Hloop.
    + inversion Hloop; subst. split; [intros x Hx; exact Hx | discriminate].
    + destruct (isCancelled y).
      * destruct (IH q q' r Hloop) as (Hq & Hsi).
        split; [intros x Hx; right; apply Hq, Hx | intros si Hr; right; apply Hsi, Hr].
      * inversion Hloop; subst.
        split; [intros x Hx; right; exact Hx |].
        intros si Hr. inversion Hr; subst. left. reflexivity.
Qed.

Lemma getNext_from (s s1 : sched) r :
  getNext s = (s1, r) ->
  clock_from s s1 /\ (forall si, r = Normal (Some si) -> List.In si (queue s)).
Proof.
  intros Hnext. unfold getNext in Hnext.
  destruct (getNext_loop (S (length (queue s))) (queue s)) as [q' r'] eqn:Hloop.
  inversion Hnext; subst.
  destruct (getNext_loop_from _ _ _ _ Hloop) as (Hq & Hsi).
  split; [split; [exact Hq | left; reflexivity] | exact Hsi].
Qed.

(** The loop of [start], and an action or a call that does not sleep,
    take items from the queue and move the clock to due times of queued
    items only. *)
Lemma sleep_free_clock_from : forall fuel,
  (forall until (s : sched), items_sleep_free (queue s) ->
     clock_from s (fst (start_loop fuel until s))) /\
  (forall a (s : sched), sleep_free a = true -> items_sleep_free (queue s) ->
     clock_from s (fst (exec fuel a s))) /\
  (forall c (s : sched), calls_no_sleep c = true -> items_sleep_free (queue s) ->
     clock_from s (fst (perform fuel c s))).
Proof.
  induction fuel as [| n (IHloop & IHexec & IHperform)].
  - repeat split; intros; simpl; try (left; reflexivity); auto.
  - assert (Hstart : forall until (s : sched), items_sleep_free (queue s) ->
              clock_from s (fst (start_with (start_loop n) until s))).
    { intros u s Hs. unfold start_with. destruct (isEnabled s); [apply clock_from_refl |].
      apply (clock_from_trans s (set_isEnabled true s)).
      - now apply clock_from_same.
      - apply IHloop. exact Hs. }
    assert (Hadv : forall time (s : sched), items_sleep_free (queue s) ->
              clock_from s (fst (advanceTo_with comparer (start_loop n) time s))).
    { intros time s Hs. unfold advanceTo_with.
      destruct (comparer time (clock s) <? 0); [apply clock_from_refl |].
      destruct (comparer time (clock s) =? 0); [apply clock_from_refl |].
      now apply Hstart. }
    split; [| split].
    + intros u s Hs. simpl.
      destruct (isEnabled s); [| apply clock_from_refl].
      destruct (getNext s) as [s1 r] eqn:Hnext.
      destruct (getNext_from s s1 r Hnext) as (H1 & Hin).
      pose proof (clock_from_sleep_free s s1 H1 Hs) as Hs1.
      assert (Hoff : clock_from s (fst (start_loop n u (set_isEnabled false s1)))).
      { apply (clock_from_trans s s1); [exact H1 |].
        apply (clock_from_trans s1 (set_isEnabled false s1)).
        - now apply clock_from_same.
        - apply IHloop. exact Hs1. }
      destruct r as [next | e |]; simpl; try exact H1.
      destruct (nextIsTooLate comparer u next) as [late | e |]; simpl; try exact H1.
      destruct next as [si |]; [| exact Hoff].
      destruct late; [exact Hoff |].
      unfold invoke_with.
      pose proof (Hin si eq_refl) as Hsi.
      assert (Hx : clock_from s (log_invocation si (advance_clock comparer si s1))).
      { destruct H1 as (Hq1 & Hc1). unfold advance_clock.
        destruct (0 <? comparer (dueTime si) (clock s1)); split; simpl; try exact Hq1;
          try exact Hc1.
        right. apply List.in_map. exact Hsi. }
      pose proof (clock_from_sleep_free _ _ Hx Hs) as Hsx.
      assert (Hfree : sleep_free (item_action si) = true).
      { unfold VirtualTimeItems.items_sleep_free in Hs.
        rewrite List.Forall_forall in Hs. apply (Hs si Hsi). }
      pose proof (IHexec (item_action si) _ Hfree Hsx) as H2.
      pose proof (clock_from_trans _ _ _ Hx H2) as H02.
      destruct (exec n (item_action si) _) as [s2 [v | e |]]; simpl in *;
        exact H02.
    + intros a s Ha Hs. simpl.
      destruct a as [| e | c k | body k]; simpl in Ha; try apply clock_from_refl.
      * apply andb_true_iff in Ha. destruct Ha as (Hc & Hk).
        pose proof (IHperform c s Hc Hs) as H1.
        destruct (perform n c s) as [s1 [v | e |]]; simpl in *; try exact H1.
        apply (clock_from_trans s s1); [exact H1 |].
        apply IHexec; [exact Hk | exact (clock_from_sleep_free _ _ H1 Hs)].
      * apply andb_true_iff in Ha. destruct Ha as (Hb & Hk).
        pose proof (IHexec body s Hb Hs) as H1.
        assert (Hthen : clock_from s (fst (exec n k (fst (exec n body s))))).
        { apply (clock_from_trans s (fst (exec n body s))); [exact H1 |].
          apply IHexec; [exact Hk | exact (clock_from_sleep_free _ _ H1 Hs)]. }
        destruct (exec n body s) as [s1 [v | e |]]; simpl in *; try exact H1.
        -- exact Hthen.
        -- destruct (is_Exception e); simpl; [exact Hthen | exact H1].
    + intros c s Hc Hs. simpl. destruct c; simpl in Hc.
      * apply clock_from_refl.
      * apply clock_from_refl.
      * apply clock_from_refl.
      * apply clock_from_refl.
      * unfold _scheduleAbsolute. destruct (_localNow _ _); apply clock_from_refl.
      * apply clock_from_refl.
      * apply clock_from_refl.
      * now apply Hstart.
      * now apply clock_from_same.
      * now apply Hadv.
      * unfold advanceBy_with. now apply Hadv.
      * discriminate Hc.
Qed.

(** X18: while no queued action calls [sleep], [start], [advanceTo] and
    [advanceBy] leave the clock where it was or at the due time of an item
    that was queued, and put nothing into the queue.  So [advanceTo(time)]
    does not bring the clock to [time] unless an item is due exactly
    then. *)
Theorem X18_clock_only_moves_to_due_times_of_queued_items :
  forall (fuel : nat) (s : sched),
    items_sleep_free (queue s) ->
    (forall until, clock_from s (fst (start fuel until s))) /\
    (forall time, clock_from s (fst (advanceTo fuel time s))) /\
    (forall time, clock_from s (fst (advanceBy fuel time s))) /\
    (forall time,
       time <> clock s ->
       ~ List.In time (List.map dueTime (queue s)) ->
       clock (fst (advanceTo fuel time s)) <> time).
Proof.
  intros fuel s Hs.
  destruct (sleep_free_clock_from fuel) as (Hloop & _ & _).
  assert (Hstart : forall until, clock_from s (fst (start fuel until s))).
  { intros u. unfold VirtualTimeScheduler.start, start_with.
    destruct (isEnabled s); [apply clock_from_refl |].
    apply (clock_from_trans s (set_isEnabled true s)).
    - now apply clock_from_same.
    - apply Hloop. exact Hs. }
  assert (Hadv : forall time, clock_from s (fst (advanceTo fuel time s))).
  { intros time. unfold VirtualTimeScheduler.advanceTo, advanceTo_with.
    destruct (comparer time (clock s) <? 0); [apply clock_from_refl |].
    destruct (comparer time (clock s) =? 0); [apply clock_from_refl |].
    apply Hstart. }
  split; [exact Hstart | split; [exact Hadv | split]].
  - intros time. apply Hadv.
  - intros time Hne Hnot Heq.
    destruct (Hadv time) as (_ & [Hc | Hin]).
    + apply Hne. rewrite <- Heq. exact Hc.
    + apply Hnot. rewrite <- Heq. exact Hin.
Qed.
End VirtualTimeClock.

Lemma X18_clock_only_moves_to_due_times_of_queued_items_witness :
  VirtualTimeItems.items_sleep_free (VirtualTimeScheduler.queue two_items) /\
  VirtualTimeScheduler.clock
    (fst (HistoricalScheduler.advanceTo HistoricalScheduler.defaultSubComparer 9 7
            two_items))
  <> 7.
Proof.
  assert (Hfree : VirtualTimeItems.items_sleep_free (VirtualTimeScheduler.queue two_items))
    by (repeat constructor).
  split; [exact Hfree |].
  apply (proj2 (proj2 (proj2
           (X18_clock_only_moves_to_due_times_of_queued_items
              HistoricalScheduler.defaultSubComparer HistoricalScheduler.add
              HistoricalScheduler.toRelative HistoricalScheduler.toDateTimeOffset Z.sub
              9 two_items Hfree))) 7).
  - discriminate.
  - simpl. intros [H | [H | []]]; discriminate H.
Defined.
